(** * AI Content Summarizer and Assistant: session and job lifecycle

    A shallow embedding of [app.py] (the Flask routes and the background
    jobs they start) and of [utils/whisper_transcribe.py].

    - The two global dictionaries [chat_sessions] and [processing_status]
      are finite maps keyed by the session token.
    - A route or a job is a computation in the monad [M]: it reads and
      writes the shared [World], either returns a value or raises a Python
      exception, and leaves the list of worlds that followed each of its
      writes (what a concurrent poller of [/status] can observe).
    - The collaborators that the application only calls (PDF extraction,
      audio extraction, Whisper, Ollama, the filename sanitizer, the
      configuration) are the fields of [Externals].
    - A time is a Python number: an [int], or a [float] with the
      arithmetic of IEEE 754 binary64 ([SpecFloat]) and CPython's floor
      division, remainder and conversions. *)

From Stdlib Require Import ZArith Ascii.
From Stdlib Require String QArith.
From Stdlib Require Import Floats.SpecFloat.
From stdpp Require Import gmap strings list fin_maps pretty.

Local Open Scope Z_scope.

(** ** Python text helpers *)

Module Py.

(** [sep.join(parts)]. *)
Fixpoint join (sep : string) (parts : list string) : string :=
  match parts with
  | [] => ""
  | [p] => p
  | p :: rest => p +:+ sep +:+ join sep rest
  end.

(** [c.lower()] on one ASCII character; other characters are kept. *)
Definition lower_ascii (c : ascii) : ascii :=
  let n := nat_of_ascii c in
  if (Nat.leb 65 n && Nat.leb n 90)%bool then ascii_of_nat (n + 32) else c.

(** [s.lower()]. *)
Fixpoint lower (s : string) : string :=
  match s with
  | EmptyString => EmptyString
  | String c rest => String (lower_ascii c) (lower rest)
  end.

(** The text after the last occurrence of [sep], if [sep] occurs. *)
Fixpoint after_last (sep : ascii) (s : string) : option string :=
  match s with
  | EmptyString => None
  | String c rest =>
      match after_last sep rest with
      | Some t => Some t
      | None => if decide (c = sep) then Some rest else None
      end
  end.

(** The text before the last occurrence of [sep]; the whole text when
    [sep] does not occur. *)
Fixpoint before_last (sep : ascii) (s : string) : string :=
  match s with
  | EmptyString => EmptyString
  | String c rest =>
      match after_last sep rest with
      | Some _ => String c (before_last sep rest)
      | None => if decide (c = sep) then EmptyString else String c rest
      end
  end.

(** [s.rsplit(sep, 1)]: one piece without [sep], else the two pieces
    around its last occurrence. *)
Definition rsplit1 (sep : ascii) (s : string) : list string :=
  match after_last sep s with
  | Some t => [before_last sep s; t]
  | None => [s]
  end.

(** The last character of [s]. *)
Fixpoint last_char (s : string) : option ascii :=
  match s with
  | EmptyString => None
  | String c EmptyString => Some c
  | String _ rest => last_char rest
  end.

(** [os.path.join(a, b)] on POSIX, two arguments. *)
Definition path_join (a b : string) : string :=
  match b with
  | String "/"%char _ => b
  | _ =>
      match last_char a with
      | None | Some "/"%char => a +:+ b
      | Some _ => a +:+ "/" +:+ b
      end
  end.

(** [f"{z:02d}"]: decimal digits, zero-filled to two characters (a minus
    sign counts as a character). *)
Definition format_02d (z : Z) : string :=
  let s := pretty z in
  if Nat.ltb (String.length s) 2 then "0" +:+ s else s.

(** [needle in hay] as a proposition. *)
Definition contains (needle hay : string) : Prop :=
  ∃ pre post, hay = pre +:+ needle +:+ post.

End Py.

(** ** Data model *)

(** One chat message, [{'role': ..., 'content': ...}]. *)
Inductive Role := user | assistant.

Record Message := { role : Role; content : string }.

(** A Python number: an [int] of any size, or a [float] (binary64: signed
    zeros, infinities, NaN, or [(-1)^s * m * 2^e]). *)
Inductive number :=
| py_int (z : Z)
| py_float (f : spec_float).

(** One transcript segment, [{'start': ..., 'end': ..., 'text': ...}].
    Whisper gives the times as floats; the lookup accepts any number. *)
Record Segment := { seg_start : number; seg_end : number; seg_text : string }.

(** A value of [chat_sessions]: the dictionary created by [index], with the
    key ['segments'] that only [process_video_file] adds. *)
Record Session := {
  messages : list Message;
  extracted_text : string;
  is_processing : bool;
  segments : option (list Segment)
}.

(** A background thread started by a route: its target and arguments. *)
Inductive Job :=
| process_pdf_job (session_id filepath : string)
| process_video_job (session_id filepath : string)
| generate_answer_job (session_id question : string).

(** The state shared by all requests and threads: the two global
    dictionaries, the files on disk (by path) and the threads that were
    started and have not run yet, oldest first. *)
Record World := {
  chat_sessions : gmap string Session;
  processing_status : gmap string string;
  files : gset string;
  threads : list Job
}.

Definition initial_world : World :=
  {| chat_sessions := ∅; processing_status := ∅; files := ∅; threads := [] |}.

Definition set_messages (v : list Message) (s : Session) : Session :=
  {| messages := v; extracted_text := extracted_text s;
     is_processing := is_processing s; segments := segments s |}.
Definition set_extracted_text (v : string) (s : Session) : Session :=
  {| messages := messages s; extracted_text := v;
     is_processing := is_processing s; segments := segments s |}.
Definition set_is_processing (v : bool) (s : Session) : Session :=
  {| messages := messages s; extracted_text := extracted_text s;
     is_processing := v; segments := segments s |}.
Definition set_segments (v : list Segment) (s : Session) : Session :=
  {| messages := messages s; extracted_text := extracted_text s;
     is_processing := is_processing s; segments := Some v |}.

Definition with_chat_sessions (f : gmap string Session → gmap string Session)
    (w : World) : World :=
  {| chat_sessions := f (chat_sessions w);
     processing_status := processing_status w;
     files := files w; threads := threads w |}.
Definition with_processing_status (f : gmap string string → gmap string string)
    (w : World) : World :=
  {| chat_sessions := chat_sessions w;
     processing_status := f (processing_status w);
     files := files w; threads := threads w |}.
Definition with_files (f : gset string → gset string) (w : World) : World :=
  {| chat_sessions := chat_sessions w;
     processing_status := processing_status w;
     files := f (files w); threads := threads w |}.
Definition with_threads (f : list Job → list Job) (w : World) : World :=
  {| chat_sessions := chat_sessions w;
     processing_status := processing_status w;
     files := files w; threads := f (threads w) |}.

(** ** Exceptions and the computation monad *)

Inductive Exn :=
| KeyError (key : string)
| IndexError (msg : string)
| FileNotFoundError (path : string)
| OverflowError (msg : string)
| ValueError (msg : string)
| Exception (msg : string).

(** [str(e)]. *)
Definition str (e : Exn) : string :=
  match e with
  | KeyError key => "'" +:+ key +:+ "'"
  | IndexError msg => msg
  | FileNotFoundError path =>
      "[Errno 2] No such file or directory: '" +:+ path +:+ "'"
  | OverflowError msg => msg
  | ValueError msg => msg
  | Exception msg => msg
  end.

Inductive Outcome (A : Type) :=
| Return (a : A)
| Raise (e : Exn).
Arguments Return {A} a.
Arguments Raise {A} e.

(** A call that returns or raises, with stdpp's monad notations: the
    first exception ends the computation. *)
Definition and_then {A B} (k : A → Outcome B) (o : Outcome A) : Outcome B :=
  match o with
  | Return a => k a
  | Raise e => Raise e
  end.

Definition and_return {A B} (f : A → B) (o : Outcome A) : Outcome B :=
  match o with
  | Return a => Return (f a)
  | Raise e => Raise e
  end.

Global Instance Outcome_ret : MRet Outcome := @Return.
Global Instance Outcome_bind : MBind Outcome := @and_then.
Global Instance Outcome_fmap : FMap Outcome := @and_return.

(** ** Python numbers

    The operators that [find_text_around_timestamp] and [format_timestamp]
    apply to times, on [int] and on [float]. *)

(** The C library on doubles, as CPython calls it. *)
Module Float.

Definition prec : Z := 53.
Definition emax : Z := 1024.

Definition add : spec_float → spec_float → spec_float := SFadd prec emax.
Definition sub : spec_float → spec_float → spec_float := SFsub prec emax.
Definition div : spec_float → spec_float → spec_float := SFdiv prec emax.

(** The double nearest to an integer (ties to even; an infinity beyond
    the largest double). *)
Definition of_Z (z : Z) : spec_float := binary_normalize prec emax z 0 false.

Definition one : spec_float := of_Z 1.

(** [0.5]. *)
Definition half : spec_float := S754_finite false 4503599627370496 (-53).

(** The sign bit, as [copysign] reads it. *)
Definition sign (x : spec_float) : bool :=
  match x with
  | S754_zero s | S754_infinity s | S754_finite s _ _ => s
  | S754_nan => false
  end.

(** [if (x)] in C: every double but the two zeros. *)
Definition nonzero (x : spec_float) : bool :=
  match x with
  | S754_zero _ => false
  | _ => true
  end.

(** [x < 0] in C. *)
Definition negative (x : spec_float) : bool :=
  match x with
  | S754_infinity s | S754_finite s _ _ => s
  | _ => false
  end.

(** [fmod(x, y)]: the remainder of the division truncated towards zero,
    which is a double and carries the sign of [x]. *)
Definition fmod (x y : spec_float) : spec_float :=
  match x, y with
  | S754_nan, _ | _, S754_nan => S754_nan
  | S754_infinity _, _ => S754_nan
  | _, S754_zero _ => S754_nan
  | S754_zero _, _ => x
  | S754_finite _ _ _, S754_infinity _ => x
  | S754_finite sx mx ex, S754_finite _ my ey =>
      let e := Z.min ex ey in
      let r := (Z.pos mx * 2 ^ (ex - e)) `mod` (Z.pos my * 2 ^ (ey - e)) in
      binary_normalize prec emax (cond_Zopp sx r) e sx
  end.

(** [floor(x)]. *)
Definition floor (x : spec_float) : spec_float :=
  match x with
  | S754_finite s m (Z.neg p) =>
      let d := 2 ^ Z.pos p in
      let q := Z.pos m `div` d in
      let n :=
        if s then (if decide (Z.pos m `mod` d = 0) then - q else - q - 1)
        else q in
      binary_normalize prec emax n 0 s
  | _ => x
  end.

(** [float.__trunc__], behind [int(x)]: towards zero. *)
Definition to_int (x : spec_float) : Outcome Z :=
  match x with
  | S754_nan => Raise (ValueError "cannot convert float NaN to integer")
  | S754_infinity _ =>
      Raise (OverflowError "cannot convert float infinity to integer")
  | S754_zero _ => Return 0
  | S754_finite s m (Z.neg p) =>
      Return (cond_Zopp s (Z.pos m `div` 2 ^ Z.pos p))
  | S754_finite s m e => Return (cond_Zopp s (Z.pos m * 2 ^ e))
  end.

(** [PyLong_AsDouble], which converts the [int] operand of a mixed
    operation. *)
Definition of_int (z : Z) : Outcome spec_float :=
  match of_Z z with
  | S754_infinity _ => Raise (OverflowError "int too large to convert to float")
  | f => Return f
  end.

(** [float_rem] for a divisor that is not zero: the remainder takes the
    sign of the divisor. *)
Definition rem (vx wx : spec_float) : spec_float :=
  let mod_ := fmod vx wx in
  if nonzero mod_ then
    if xorb (negative wx) (negative mod_) then add mod_ wx else mod_
  else S754_zero (sign wx).

(** [float_floor_div] for a divisor that is not zero. *)
Definition floor_div (vx wx : spec_float) : spec_float :=
  let mod_ := fmod vx wx in
  let div_ := div (sub vx mod_) wx in
  let div_ :=
    if nonzero mod_ && xorb (negative wx) (negative mod_) then sub div_ one
    else div_ in
  if nonzero div_ then
    let floordiv := floor div_ in
    if SFltb half (sub div_ floordiv) then add floordiv one else floordiv
  else S754_zero (sign (div vx wx)).

End Float.

(** Python's operators on numbers. *)
Module Number.

(** The rationals with the two infinities: what a number that is not NaN
    stands for. *)
Inductive extended :=
| minus_infinity
| rational (q : QArith_base.Q)
| plus_infinity.

Definition extended_le (x y : extended) : bool :=
  match x, y with
  | minus_infinity, _ | _, plus_infinity => true
  | rational p, rational q => QArith_base.Qle_bool p q
  | _, _ => false
  end.

Definition float_value (x : spec_float) : option extended :=
  match x with
  | S754_nan => None
  | S754_infinity s => Some (if s then minus_infinity else plus_infinity)
  | S754_zero _ => Some (rational (QArith_base.inject_Z 0))
  | S754_finite s m (Z.neg p) =>
      Some (rational (QArith_base.Qmake (cond_Zopp s (Z.pos m)) (2 ^ p)))
  | S754_finite s m e =>
      Some (rational (QArith_base.inject_Z (cond_Zopp s (Z.pos m) * 2 ^ e)))
  end.

Definition value (a : number) : option extended :=
  match a with
  | py_int z => Some (rational (QArith_base.inject_Z z))
  | py_float f => float_value f
  end.

(** [a <= b]: Python compares the exact values, also between an [int] and
    a [float]; a comparison with NaN is false. *)
Definition le (a b : number) : bool :=
  match value a, value b with
  | Some x, Some y => extended_le x y
  | _, _ => false
  end.

(** [a - b]: exact on two [int]s, rounded on [float]s; an [int] next to a
    [float] is converted first. *)
Definition sub (a b : number) : Outcome number :=
  match a, b with
  | py_int x, py_int y => Return (py_int (x - y))
  | py_float x, py_float y => Return (py_float (Float.sub x y))
  | py_int x, py_float y =>
      x ← Float.of_int x; Return (py_float (Float.sub x y))
  | py_float x, py_int y =>
      y ← Float.of_int y; Return (py_float (Float.sub x y))
  end.

(** [abs(a)]. *)
Definition abs (a : number) : number :=
  match a with
  | py_int z => py_int (Z.abs z)
  | py_float f => py_float (SFabs f)
  end.

(** [a // k] for a positive [int] literal [k]: on [int]s Python rounds
    towards minus infinity, as [Z.div] does. *)
Definition floordiv (a : number) (k : positive) : Outcome number :=
  match a with
  | py_int z => Return (py_int (z `div` Z.pos k))
  | py_float f =>
      w ← Float.of_int (Z.pos k); Return (py_float (Float.floor_div f w))
  end.

(** [a % k] for a positive [int] literal [k]. *)
Definition modulo (a : number) (k : positive) : Outcome number :=
  match a with
  | py_int z => Return (py_int (z `mod` Z.pos k))
  | py_float f => w ← Float.of_int (Z.pos k); Return (py_float (Float.rem f w))
  end.

(** [int(a)]. *)
Definition int (a : number) : Outcome Z :=
  match a with
  | py_int z => Return z
  | py_float f => Float.to_int f
  end.

End Number.

(** The result of running a computation: how it ended, the world it left,
    and the worlds that followed each of its writes, in order. *)
Record Run (A : Type) := MkRun {
  outcome : Outcome A;
  final : World;
  trace : list World
}.
Arguments MkRun {A} _ _ _.
Arguments outcome {A} _.
Arguments final {A} _.
Arguments trace {A} _.

Definition M (A : Type) : Type := World → Run A.

Definition ret {A} (a : A) : M A := λ w, MkRun (Return a) w [].

Definition raise {A} (e : Exn) : M A := λ w, MkRun (Raise e) w [].

(** [r] preceded by the writes [t]. *)
Definition prepend {A} (t : list World) (r : Run A) : Run A :=
  match r with
  | MkRun o w t' => MkRun o w (t ++ t')
  end.

Definition bind {A B} (m : M A) (k : A → M B) : M B := λ w,
  match m w with
  | MkRun (Return a) w' t => prepend t (k a w')
  | MkRun (Raise e) w' t => MkRun (Raise e) w' t
  end.

(** [M] with stdpp's monad notations: [x ← m; k] and [m;; k]. *)
Global Instance M_ret : MRet M := @ret.
Global Instance M_bind : MBind M := λ A B k m, bind m k.

(** Read the world. *)
Definition get : M World := λ w, MkRun (Return w) w [].

(** One write to the shared state. *)
Definition write (f : World → World) : M unit := λ w,
  MkRun (Return tt) (f w) [f w].

(** Lift the result of a call that has no effect on the world. *)
Definition call {A} (o : Outcome A) : M A := λ w, MkRun o w [].

(** [try: body  except Exception as e: handler e]. *)
Definition try_except {A} (body : M A) (handler : Exn → M A) : M A := λ w,
  match body w with
  | MkRun (Return a) w' t => MkRun (Return a) w' t
  | MkRun (Raise e) w' t => prepend t (handler e w')
  end.

(** [try: body  finally: cleanup]: [cleanup] always runs; what [body] did
    stands unless [cleanup] itself raises. *)
Definition try_finally {A} (body : M A) (cleanup : M unit) : M A := λ w,
  match body w with
  | MkRun o w' t =>
      match cleanup w' with
      | MkRun (Return _) w'' t' => MkRun o w'' (t ++ t')
      | MkRun (Raise e) w'' t' => MkRun (Raise e) w'' (t ++ t')
      end
  end.

(** *** Dictionary and file primitives *)

(** [chat_sessions[session_id]]. *)
Definition lookup_session (session_id : string) : M Session :=
  w ← get;
  match chat_sessions w !! session_id with
  | Some s => ret s
  | None => raise (KeyError session_id)
  end.

(** [chat_sessions[session_id][key] = v], as an update [f] of the session
    dictionary found under [session_id]. *)
Definition update_session (session_id : string) (f : Session → Session)
    : M unit :=
  s ← lookup_session session_id;
  write (with_chat_sessions <[session_id := f s]>).

(** [processing_status[session_id] = text]. *)
Definition set_status (session_id text : string) : M unit :=
  write (with_processing_status <[session_id := text]>).

(** [threading.Thread(target=..., args=...).start()]. *)
Definition start_thread (j : Job) : M unit :=
  write (with_threads (λ js, js ++ [j])).

(** [os.remove(path)]. *)
Definition os_remove (path : string) : M unit :=
  w ← get;
  if decide (path ∈ files w) then write (with_files (λ fs, fs ∖ {[path]}))
  else raise (FileNotFoundError path).

(** [l[i]] on a Python list. *)
Definition list_index {A} (l : list A) (i : nat) : M A :=
  match l !! i with
  | Some x => ret x
  | None => raise (IndexError "list index out of range")
  end.

(** [not s] for a Python string. *)
Definition falsy (s : string) : bool := bool_decide (s = "").

(** ** Collaborators *)

(** What [model.transcribe] returns: a dictionary read with
    [result["text"]] and [result.get("segments", [])]. *)
Record Transcription := {
  tr_text : option string;
  tr_segments : option (list Segment)
}.

(** What [ollama.chat] returns, read with [response['message']['content']]. *)
Record ChatMessage := { message_content : option string }.
Record ChatResponse := { response_message : option ChatMessage }.

(** Everything the application calls but does not define: the settings of
    [config.py], Werkzeug's sanitizer and file saving, the two functions of
    [utils/file_processor.py], the Whisper model and the Ollama client.
    A call either returns or raises; audio extraction also changes the
    files on disk. *)
Record Externals := {
  UPLOAD_FOLDER_PDF : string;
  UPLOAD_FOLDER_VIDEO : string;
  UPLOAD_FOLDER_TEMP : string;
  secure_filename : string → string;
  file_save : string → Outcome unit;
  process_pdf : string → Outcome string;
  extract_audio_from_video :
    string → string → gset string → Outcome string * gset string;
  model_transcribe : string → Outcome Transcription;
  ollama_chat : string → Outcome ChatResponse
}.

(** ** Requests and responses *)

(** The uploaded part [request.files['file']]. *)
Record FileStorage := { filename : string }.

(** What the routes read from a request: the signed cookie's
    ['session_id'], the multipart part ['file'], and the ['question'] key
    of the JSON body. *)
Record Request := {
  session_id_cookie : option string;
  request_file : option FileStorage;
  json_question : option string
}.

Inductive Body :=
| error_body (msg : string)
| message_body (msg : string)
| status_body (status : string) (processing : bool)
| messages_body (msgs : list Message)
| html_body (page : string).

Record Response := { body : Body; status_code : Z }.

(** [jsonify(b)] and [jsonify(b), code]. *)
Definition jsonify (b : Body) : Response := {| body := b; status_code := 200 |}.
Definition jsonify_code (b : Body) (code : Z) : Response :=
  {| body := b; status_code := code |}.

(** What Flask answers when a view function raises. *)
Definition internal_server_error : Response :=
  {| body := html_body "500 Internal Server Error"; status_code := 500 |}.

(** A view function as Flask serves it. *)
Definition serve (view : M Response) : M Response :=
  try_except view (λ _, ret internal_server_error).

Definition newline : string := String (ascii_of_nat 10) EmptyString.

(** ** utils/whisper_transcribe.py *)

Section Whisper.
Context (ext : Externals).

Definition transcribe_audio (audio_path : string) : Outcome Transcription :=
  match model_transcribe ext audio_path with
  | Return result => Return result
  | Raise e => Raise (Exception ("Failed to transcribe audio: " +:+ str e))
  end.

End Whisper.

(** ** app.py *)

Section App.
Context (ext : Externals).

(** [index]: [uuid] is the value [str(uuid.uuid4())] takes in this
    request. Returns the page and the token left in the cookie. *)
Definition index (req : Request) (uuid : string) : M (Response * string) :=
  let session_id := default uuid (session_id_cookie req) in
  w ← get;
  (if decide (session_id ∈ dom (chat_sessions w)) then ret tt
   else write (with_chat_sessions
                 <[session_id := {| messages := []; extracted_text := "";
                                    is_processing := false;
                                    segments := None |}]>));;
  ret (jsonify (html_body "index.html"), session_id).

(** [file.save(filepath)]. *)
Definition save (filepath : string) : M unit :=
  call (file_save ext filepath);;
  write (with_files (λ fs, {[filepath]} ∪ fs)).

Definition upload_file (req : Request) : M Response :=
  match request_file req with
  | None => ret (jsonify_code (error_body "No file provided") 400)
  | Some file =>
  if decide (filename file = "") then
    ret (jsonify_code (error_body "No file selected") 400)
  else
  match session_id_cookie req with
  | None => ret (jsonify_code (error_body "Session expired") 400)
  | Some session_id =>
  if falsy session_id then
    ret (jsonify_code (error_body "Session expired") 400)
  else
    update_session session_id (set_is_processing true);;
    set_status session_id "Processing your file...";;
    try_except
      (let name := secure_filename ext (filename file) in
       piece ← list_index (Py.rsplit1 "." name) 1;
       let file_extension := Py.lower piece in
       early ←
         (if decide (file_extension = "pdf") then
            let filepath := Py.path_join (UPLOAD_FOLDER_PDF ext) name in
            save filepath;;
            start_thread (process_pdf_job session_id filepath);;
            ret None
          else if bool_decide (file_extension ∈ ["mp4"; "mov"; "avi"; "mkv"])
          then
            let filepath := Py.path_join (UPLOAD_FOLDER_VIDEO ext) name in
            save filepath;;
            start_thread (process_video_job session_id filepath);;
            ret None
          else
            update_session session_id (set_is_processing false);;
            ret (Some (jsonify_code (error_body "Unsupported file type") 400)));
       match early with
       | Some response => ret response
       | None =>
           ret (jsonify (message_body "File uploaded successfully. Processing..."))
       end)
      (λ e,
         update_session session_id (set_is_processing false);;
         ret (jsonify_code (error_body (str e)) 500))
  end
  end.

Definition process_pdf_file (session_id filepath : string) : M unit :=
  try_finally
    (try_except
       (text ← call (process_pdf ext filepath);
        update_session session_id (set_extracted_text text);;
        set_status session_id
          "File processed successfully. You can now ask questions.")
       (λ e, set_status session_id ("Error processing PDF: " +:+ str e)))
    (update_session session_id (set_is_processing false)).

(** The call [extract_audio_from_video(filepath, temp)], which may
    create files. *)
Definition extract_audio (filepath : string) : M string := λ w,
  match
    extract_audio_from_video ext filepath (UPLOAD_FOLDER_TEMP ext) (files w)
  with
  | (o, fs) => MkRun o (with_files (λ _, fs) w) [with_files (λ _, fs) w]
  end.

(** [d[key]] on a dictionary that may lack [key]. *)
Definition subscript {A} (key : string) (v : option A) : M A :=
  match v with
  | Some x => ret x
  | None => raise (KeyError key)
  end.

Definition process_video_file (session_id filepath : string) : M unit :=
  try_finally
    (try_except
       (audio_path ← extract_audio filepath;
        transcription_result ← call (transcribe_audio ext audio_path);
        text ← subscript "text" (tr_text transcription_result);
        let segs := default [] (tr_segments transcription_result) in
        update_session session_id (set_extracted_text text);;
        update_session session_id (set_segments segs);;
        set_status session_id
          "File processed successfully. You can now ask questions.";;
        os_remove audio_path)
       (λ e, set_status session_id ("Error processing video: " +:+ str e)))
    (update_session session_id (set_is_processing false)).

Definition ask_question (req : Request) : M Response :=
  w ← get;
  match session_id_cookie req with
  | None => ret (jsonify_code (error_body "Session expired") 400)
  | Some session_id =>
  if (falsy session_id
      || negb (bool_decide (session_id ∈ dom (chat_sessions w))))%bool then
    ret (jsonify_code (error_body "Session expired") 400)
  else
    s ← lookup_session session_id;
    if is_processing s then
      ret (jsonify_code (error_body "System is still processing your file") 400)
    else
      let question := default "" (json_question req) in
      if falsy question then
        ret (jsonify_code (error_body "No question provided") 400)
      else
        s ← lookup_session session_id;
        if falsy (extracted_text s) then
          ret (jsonify_code
                 (error_body
                    "No document content available. Please upload a file first.")
                 400)
        else
          update_session session_id
            (λ s, set_messages
                    (messages s ++ [{| role := user; content := question |}]) s);;
          update_session session_id (set_is_processing true);;
          set_status session_id "Generating answer...";;
          start_thread (generate_answer_job session_id question);;
          ret (jsonify (message_body "Question received. Processing..."))
  end.

Definition indent : string := "        ".

(** The f-string of [generate_answer]. *)
Definition prompt (text question : string) : string :=
  newline +:+
  indent +:+ "Act as if you are a chatbot and based on the following content, please answer the user's question." +:+ newline +:+
  indent +:+ newline +:+
  indent +:+ "Content:" +:+ newline +:+
  indent +:+ text +:+ "  # Limit context to avoid token limits" +:+ newline +:+
  indent +:+ newline +:+
  indent +:+ "Question: " +:+ question +:+ newline +:+
  indent +:+ newline +:+
  indent +:+ "Make sure and NEVER forget to provide a detailed answer in HTML format with proper formatting. " +:+ newline +:+
  indent +:+ "Use headings, paragraphs, bullet points, and bold text (using <b></b>) where appropriate." +:+ newline +:+
  indent.

Definition append_message (session_id : string) (m : Message) : M unit :=
  update_session session_id (λ s, set_messages (messages s ++ [m]) s).

Definition generate_answer (session_id question : string) : M unit :=
  try_finally
    (try_except
       (s ← lookup_session session_id;
        let text := extracted_text s in
        response ← call (ollama_chat ext (prompt text question));
        msg ← subscript "message" (response_message response);
        answer ← subscript "content" (message_content msg);
        append_message session_id {| role := assistant; content := answer |};;
        set_status session_id "Answer generated successfully.")
       (λ e,
          set_status session_id ("Error generating answer: " +:+ str e);;
          append_message session_id
            {| role := assistant;
               content :=
                 "Sorry, I encountered an error while processing your question: "
                 +:+ str e |}))
    (update_session session_id (set_is_processing false)).

Definition get_status (req : Request) : M Response :=
  match session_id_cookie req with
  | None => ret (jsonify_code (error_body "Session expired") 400)
  | Some session_id =>
      if falsy session_id then
        ret (jsonify_code (error_body "Session expired") 400)
      else
        w ← get;
        let status := default "Ready" (processing_status w !! session_id) in
        let processing :=
          from_option is_processing false (chat_sessions w !! session_id) in
        ret (jsonify (status_body status processing))
  end.

Definition get_messages (req : Request) : M Response :=
  w ← get;
  match session_id_cookie req with
  | None => ret (jsonify_code (error_body "Session expired") 400)
  | Some session_id =>
      if (falsy session_id
          || negb (bool_decide (session_id ∈ dom (chat_sessions w))))%bool then
        ret (jsonify_code (error_body "Session expired") 400)
      else
        s ← lookup_session session_id;
        ret (jsonify (messages_body (messages s)))
  end.

Definition format_timestamp (seconds : number) : Outcome string :=
  hours ← Number.floordiv seconds 3600 ≫= Number.int;
  minutes ← (m ← Number.modulo seconds 3600; Number.floordiv m 60)
            ≫= Number.int;
  seconds ← Number.modulo seconds 60 ≫= Number.int;
  Return (Py.format_02d hours +:+ ":" +:+ Py.format_02d minutes +:+ ":"
          +:+ Py.format_02d seconds).

(** The test of the loop body of [find_text_around_timestamp]; [or]
    evaluates its right operand only when the left one is false. *)
Definition within_window (target_seconds window_seconds : number)
    (segment : Segment) : Outcome bool :=
  let start := seg_start segment in
  let end_ := seg_end segment in
  if (Number.le start target_seconds && Number.le target_seconds end_)%bool
  then Return true
  else
    distance ← Number.sub start target_seconds;
    Return (Number.le (Number.abs distance) window_seconds).

Definition default_window_seconds : number := py_int 30.

(** The loop of [find_text_around_timestamp], which appends to
    [context_text]. *)
Fixpoint for_segment (target_seconds window_seconds : number)
    (segs : list Segment) (context_text : list string)
    : Outcome (list string) :=
  match segs with
  | [] => Return context_text
  | segment :: rest =>
      qualifies ← within_window target_seconds window_seconds segment;
      if qualifies : bool then
        timestamp ← format_timestamp (seg_start segment);
        for_segment target_seconds window_seconds rest
          (context_text ++ ["[" +:+ timestamp +:+ "] " +:+ seg_text segment])
      else for_segment target_seconds window_seconds rest context_text
  end.

Definition find_text_around_timestamp (segs : list Segment)
    (target_seconds window_seconds : number) : Outcome string :=
  match segs with
  | [] => Return "No timestamp information available."
  | _ =>
      context_text ← for_segment target_seconds window_seconds segs [];
      match context_text with
      | [] =>
          timestamp ← format_timestamp target_seconds;
          Return ("No content found around timestamp " +:+ timestamp +:+ ".")
      | _ => Return (Py.join newline context_text)
      end
  end.

(** The body of a background thread. *)
Definition run_job (j : Job) : M unit :=
  match j with
  | process_pdf_job session_id filepath => process_pdf_file session_id filepath
  | process_video_job session_id filepath =>
      process_video_file session_id filepath
  | generate_answer_job session_id question =>
      generate_answer session_id question
  end.

End App.

(** ** Werkzeug's [secure_filename]

    The sanitizer that [app.py] imports, on POSIX. A file name is the
    UTF-8 text of the Python string. The sanitizer starts with
    [unicodedata.normalize("NFKD", filename)], which reads the Unicode
    character database: that step is the parameter [nfkd] of
    [secure_filename]. *)

Module Werkzeug.

Definition is_ascii (c : ascii) : bool := Nat.ltb (nat_of_ascii c) 128.

(** [s.encode("ascii", "ignore")]: the characters below 128; every byte
    of any other character is dropped. *)
Definition encode_ascii_ignore (s : string) : list ascii :=
  filter (λ c, is_ascii c = true) (String.list_ascii_of_string s).

(** The characters [str.split()] splits on. *)
Definition is_space (c : ascii) : bool :=
  let n := nat_of_ascii c in
  ((Nat.leb 9 n && Nat.leb n 13) || (Nat.leb 28 n && Nat.leb n 32))%bool.

Definition is_alnum (c : ascii) : bool :=
  let n := nat_of_ascii c in
  ((Nat.leb 48 n && Nat.leb n 57) || (Nat.leb 65 n && Nat.leb n 90)
   || (Nat.leb 97 n && Nat.leb n 122))%bool.

(** The complement of [_filename_ascii_strip_re], [[^A-Za-z0-9_.-]]. *)
Definition is_kept (c : ascii) : bool :=
  (is_alnum c || bool_decide (c = "_"%char) || bool_decide (c = "."%char)
   || bool_decide (c = "-"%char))%bool.

(** The characters removed by [.strip("._")]. *)
Definition is_stripped (c : ascii) : bool :=
  (bool_decide (c = "."%char) || bool_decide (c = "_"%char))%bool.

(** [filename.replace(os.sep, " ")]. *)
Definition replace_sep (c : ascii) : ascii :=
  if decide (c = "/"%char) then " "%char else c.

(** [s.split()]: the maximal runs of non-space characters; [word] is the
    run being read. *)
Fixpoint split_go (word s : list ascii) : list (list ascii) :=
  match s with
  | [] => match word with [] => [] | _ => [word] end
  | c :: rest =>
      if is_space c then
        match word with
        | [] => split_go [] rest
        | _ => word :: split_go [] rest
        end
      else split_go (word ++ [c]) rest
  end.

Definition split (s : list ascii) : list (list ascii) := split_go [] s.

(** [sep.join(parts)]. *)
Fixpoint join (sep : list ascii) (parts : list (list ascii)) : list ascii :=
  match parts with
  | [] => []
  | [p] => p
  | p :: rest => p ++ sep ++ join sep rest
  end.

Fixpoint lstrip (s : list ascii) : list ascii :=
  match s with
  | [] => []
  | c :: rest => if is_stripped c then lstrip rest else s
  end.

Definition rstrip (s : list ascii) : list ascii := rev (lstrip (rev s)).

Definition strip (s : list ascii) : list ascii := rstrip (lstrip s).

(** The characters of an extension that the sanitizer keeps where they
    are: letters, digits and the hyphen. *)
Definition is_plain (c : ascii) : bool :=
  (is_alnum c || bool_decide (c = "-"%char))%bool.

(** What follows the encoding: separators become spaces, runs of white
    space become one underscore, the characters outside [[A-Za-z0-9_.-]]
    go, and so do leading and trailing dots and underscores. *)
Definition sanitize (s : list ascii) : list ascii :=
  let s := replace_sep <$> s in
  strip (filter (λ c, is_kept c = true) (join ["_"%char] (split s))).

Definition secure_filename (nfkd : string → string) (name : string) : string :=
  String.string_of_list_ascii (sanitize (encode_ascii_ignore (nfkd name))).

(** What the character database says of ASCII text: a character below 128
    has no decomposition and nothing combines with it, so normalising
    leaves a run of such characters as it is, where it is. *)
Definition ascii_inert (nfkd : string → string) : Prop :=
  nfkd "" = ""
  ∧ ∀ front tail,
      Forall (λ c, is_ascii c = true) (String.list_ascii_of_string tail) →
      nfkd (front +:+ tail) = nfkd front +:+ tail.

End Werkzeug.

(** ** The server as a transition system

    One transition is one request served, or one started thread run to its
    end. A thread that runs leaves the list of started threads. The
    collaborators may answer differently at every transition. *)

Global Instance Job_eq_dec : EqDecision Job.
Proof. solve_decision. Defined.

Definition job_session (j : Job) : string :=
  match j with
  | process_pdf_job session_id _ => session_id
  | process_video_job session_id _ => session_id
  | generate_answer_job session_id _ => session_id
  end.

Inductive Event :=
| request_index (req : Request) (uuid : string)
| request_upload (ext : Externals) (req : Request)
| request_ask (req : Request)
| request_status (req : Request)
| request_messages (req : Request)
| thread_runs (ext : Externals) (j : Job) (earlier later : list Job).

(** The world after an event, when the event can happen in [w]. *)
Definition fire (e : Event) (w : World) : option World :=
  match e with
  | request_index req uuid => Some (final (index req uuid w))
  | request_upload ext req => Some (final (serve (upload_file ext req) w))
  | request_ask req => Some (final (serve (ask_question req) w))
  | request_status req => Some (final (serve (get_status req) w))
  | request_messages req => Some (final (serve (get_messages req) w))
  | thread_runs ext j earlier later =>
      if decide (threads w = earlier ++ j :: later) then
        Some (final (run_job ext j (with_threads (λ _, earlier ++ later) w)))
      else None
  end.

Definition step (w w' : World) : Prop := ∃ e, fire e w = Some w'.

(** The worlds the server can be in, starting from empty dictionaries. *)
Definition reachable (w : World) : Prop := rtc step initial_world w.

(** Every status entry and every started thread belongs to a session of
    the store. *)
Definition consistent (w : World) : Prop :=
  dom (processing_status w) ⊆ dom (chat_sessions w)
  ∧ Forall (λ j, job_session j ∈ dom (chat_sessions w)) (threads w).

(** A session as [index] creates it. *)
Definition new_session : Session :=
  {| messages := []; extracted_text := ""; is_processing := false;
     segments := None |}.

(** What one transition may change: it leaves the sessions alone, or
    replaces one existing session (keeping its segments unless [video]), or
    adds one new session (only if [visit]); it leaves the status entries
    alone or sets the entry of an existing session; and every thread it
    leaves started was started before or belongs to an existing session. *)
Definition effect (video visit : bool) (w w' : World) : Prop :=
  (chat_sessions w' = chat_sessions w
   ∨ (∃ session_id s s',
        chat_sessions w !! session_id = Some s
        ∧ chat_sessions w' = <[session_id := s']> (chat_sessions w)
        ∧ (video = false → segments s' = segments s))
   ∨ (∃ session_id,
        visit = true
        ∧ chat_sessions w !! session_id = None
        ∧ chat_sessions w' = <[session_id := new_session]> (chat_sessions w)))
  ∧ (processing_status w' = processing_status w
     ∨ ∃ session_id status,
         session_id ∈ dom (chat_sessions w)
         ∧ processing_status w'
           = <[session_id := status]> (processing_status w))
  ∧ ∀ j, j ∈ threads w' →
         j ∈ threads w ∨ job_session j ∈ dom (chat_sessions w).

(** Whether an event is the run of a video job. *)
Definition is_video_run (e : Event) : bool :=
  match e with
  | thread_runs _ (process_video_job _ _) _ _ => true
  | _ => false
  end.

(** Whether an event is a visit of the index route. *)
Definition is_index (e : Event) : bool :=
  match e with
  | request_index _ _ => true
  | _ => false
  end.

(** ** The specification's reading of the operations

    Second definitions, written from the specification's sentences, that
    the definitions above are compared with. *)

Module Spec.

(** What one segment contributes to the lookup: its line when it
    qualifies, nothing otherwise. *)
Definition entry (target window : number) (segment : Segment)
    : Outcome (option string) :=
  qualifies ← within_window target window segment;
  if qualifies : bool then
    timestamp ← format_timestamp (seg_start segment);
    Return (Some ("[" +:+ timestamp +:+ "] " +:+ seg_text segment))
  else Return None.

(** The lines of the qualifying segments, in input order. *)
Definition lines (segs : list Segment) (target window : number)
    : Outcome (list string) :=
  omap id <$> mapM (entry target window) segs.

(** The lookup as the specification words it. *)
Definition context_spec (segs : list Segment) (target window : number)
    : Outcome string :=
  match segs with
  | [] => Return "No timestamp information available."
  | _ =>
      found ← lines segs target window;
      match found with
      | [] =>
          timestamp ← format_timestamp target;
          Return ("No content found around timestamp " +:+ timestamp +:+ ".")
      | _ => Return (Py.join newline found)
      end
  end.

(** A segment whose times are whole seconds. *)
Definition whole (times : Z * Z * string) : Segment :=
  match times with
  | (start, end_, text) =>
      {| seg_start := py_int start; seg_end := py_int end_; seg_text := text |}
  end.

(** On whole seconds: a segment qualifies when its interval contains the
    target or its start is within the window of the target. *)
Definition qualifies (target window : Z) (times : Z * Z * string) : Prop :=
  match times with
  | (start, end_, _) =>
      start ≤ target ≤ end_ ∨ Z.abs (start - target) ≤ window
  end.

Global Instance qualifies_dec target window times :
  Decision (qualifies target window times).
Proof. destruct times as [[? ?] ?]. cbn. apply _. Defined.

(** On whole seconds: hours, minutes and seconds of a time. *)
Definition clock (seconds : Z) : string :=
  Py.format_02d (seconds `div` 3600) +:+ ":"
  +:+ Py.format_02d ((seconds `mod` 3600) `div` 60) +:+ ":"
  +:+ Py.format_02d (seconds `mod` 60).


(** A two-character field holding the decimal digits [d1 d2]. *)
Definition two_digits (d1 d2 : Z) : string :=
  String (ascii_of_nat (48 + Z.to_nat d1))
    (String (ascii_of_nat (48 + Z.to_nat d2)) EmptyString).


Definition example_times : list (Z * Z * string) :=
  [ (0, 10, "a"); (20, 30, "b") ].

Definition example_segments : list Segment := whole <$> example_times.




(** What a video job stores when audio extraction, transcription and the
    reading of the transcript's text all succeed: the text and the
    segments. *)
Definition video_result (ext : Externals) (filepath : string) (w : World)
    : option (string * list Segment) :=
  match
    extract_audio_from_video ext filepath (UPLOAD_FOLDER_TEMP ext) (files w)
  with
  | (Return audio_path, _) =>
      match transcribe_audio ext audio_path with
      | Return result =>
          (λ text, (text, default [] (tr_segments result))) <$> tr_text result
      | Raise _ => None
      end
  | (Raise _, _) => None
  end.

(** A request rejected with [msg]: a 400 response, nothing written. *)
Definition reject (w : World) (msg : string) : Run Response :=
  MkRun (Return (jsonify_code (error_body msg) 400)) w [].

(** The session a request's token names, when the token is present,
    non-empty and a key of the session store. *)
Definition known_session (w : World) (token : option string)
    : option (string * Session) :=
  match token with
  | None => None
  | Some session_id =>
      if decide (session_id = "") then None
      else (λ s, (session_id, s)) <$> chat_sessions w !! session_id
  end.

(** The question handler: four guards in order, then the effects of an
    accepted question, one write after the other. *)
Definition ask (req : Request) (w : World) : Run Response :=
  match known_session w (session_id_cookie req) with
  | None => reject w "Session expired"
  | Some (session_id, s) =>
      let question := default "" (json_question req) in
      if is_processing s then reject w "System is still processing your file"
      else if decide (question = "") then reject w "No question provided"
      else if decide (extracted_text s = "") then
        reject w "No document content available. Please upload a file first."
      else
        let s1 :=
          set_messages
            (messages s ++ [{| role := user; content := question |}]) s in
        let w1 := with_chat_sessions <[session_id := s1]> w in
        let w2 :=
          with_chat_sessions <[session_id := set_is_processing true s1]> w1 in
        let w3 :=
          with_processing_status <[session_id := "Generating answer..."]> w2 in
        let w4 :=
          with_threads (λ js, js ++ [generate_answer_job session_id question])
            w3 in
        MkRun (Return (jsonify (message_body "Question received. Processing...")))
          w4 [w1; w2; w3; w4]
  end.

(** What reading [response['message']['content']] off the model's reply
    gives. *)
Definition answer_of (reply : Outcome ChatResponse) : Outcome string :=
  match reply with
  | Raise e => Raise e
  | Return response =>
      match response_message response with
      | None => Raise (KeyError "message")
      | Some msg =>
          match message_content msg with
          | None => Raise (KeyError "content")
          | Some answer => Return answer
          end
      end
  end.

(** The extension the upload handler dispatches on: the lowercased text
    after the last dot of [name], when [name] has a dot. *)
Definition dispatch_extension (name : string) : option string :=
  Py.lower <$> Py.after_last "." name.

(** The extensions the upload handler accepts. *)
Definition supported : list string := ["pdf"; "mp4"; "mov"; "avi"; "mkv"].

(** The upload handler. With a file, a token and a known session it
    sets the flag and the status first; it then either saves the file
    and starts the job for its extension, or clears the flag again and
    answers 400 (unsupported extension) or 500 (no extension, or the
    file cannot be saved). With an unknown token the first write
    raises. *)
Definition upload (ext : Externals) (req : Request) (w : World)
    : Run Response :=
  match request_file req with
  | None => reject w "No file provided"
  | Some file =>
  if decide (filename file = "") then reject w "No file selected" else
  match session_id_cookie req with
  | None => reject w "Session expired"
  | Some session_id =>
  if decide (session_id = "") then reject w "Session expired" else
  match chat_sessions w !! session_id with
  | None => MkRun (Raise (KeyError session_id)) w []
  | Some s =>
      let w1 :=
        with_chat_sessions <[session_id := set_is_processing true s]> w in
      let w2 :=
        with_processing_status <[session_id := "Processing your file..."]> w1 in
      let w3 :=
        with_chat_sessions <[session_id := set_is_processing false s]> w2 in
      let name := secure_filename ext (filename file) in
      let failed e :=
        MkRun (Return (jsonify_code (error_body (str e)) 500)) w3 [w1; w2; w3] in
      let accept folder job :=
        let filepath := Py.path_join folder name in
        match file_save ext filepath with
        | Raise e => failed e
        | Return _ =>
            let w4 := with_files (λ fs, {[filepath]} ∪ fs) w2 in
            let w5 := with_threads (λ js, js ++ [job session_id filepath]) w4 in
            MkRun
              (Return
                 (jsonify
                    (message_body "File uploaded successfully. Processing...")))
              w5 [w1; w2; w4; w5]
        end in
      match dispatch_extension name with
      | None => failed (IndexError "list index out of range")
      | Some file_extension =>
          if decide (file_extension = "pdf") then
            accept (UPLOAD_FOLDER_PDF ext) process_pdf_job
          else if bool_decide (file_extension ∈ ["mp4"; "mov"; "avi"; "mkv"])
          then accept (UPLOAD_FOLDER_VIDEO ext) process_video_job
          else
            MkRun (Return (jsonify_code (error_body "Unsupported file type") 400))
              w3 [w1; w2; w3]
      end
  end
  end
  end.

(** The PDF job for a session found as [s]. *)
Definition pdf_job (ext : Externals) (session_id filepath : string)
    (s : Session) (w : World) : Run unit :=
  match process_pdf ext filepath with
  | Return text =>
      let s1 := set_extracted_text text s in
      let w1 := with_chat_sessions <[session_id := s1]> w in
      let w2 :=
        with_processing_status
          <[session_id :=
              "File processed successfully. You can now ask questions."]> w1 in
      let w3 :=
        with_chat_sessions <[session_id := set_is_processing false s1]> w2 in
      MkRun (Return tt) w3 [w1; w2; w3]
  | Raise e =>
      let w1 :=
        with_processing_status
          <[session_id := "Error processing PDF: " +:+ str e]> w in
      let w2 :=
        with_chat_sessions <[session_id := set_is_processing false s]> w1 in
      MkRun (Return tt) w2 [w1; w2]
  end.

(** How the video job ends after a failure: the error status, then the
    flag cleared on the session as it is by then. *)
Definition video_failed (session_id : string) (e : Exn) (s : Session)
    (w : World) (writes : list World) : Run unit :=
  let w1 :=
    with_processing_status
      <[session_id := "Error processing video: " +:+ str e]> w in
  let w2 :=
    with_chat_sessions <[session_id := set_is_processing false s]> w1 in
  MkRun (Return tt) w2 (writes ++ [w1; w2]).

(** The video job for a session found as [s]. *)
Definition video_job (ext : Externals) (session_id filepath : string)
    (s : Session) (w : World) : Run unit :=
  match
    extract_audio_from_video ext filepath (UPLOAD_FOLDER_TEMP ext) (files w)
  with
  | (extraction, fs) =>
      let w0 := with_files (λ _, fs) w in
      match extraction with
      | Raise e => video_failed session_id e s w0 [w0]
      | Return audio_path =>
          match transcribe_audio ext audio_path with
          | Raise e => video_failed session_id e s w0 [w0]
          | Return result =>
              match tr_text result with
              | None => video_failed session_id (KeyError "text") s w0 [w0]
              | Some text =>
                  let s1 := set_extracted_text text s in
                  let s2 := set_segments (default [] (tr_segments result)) s1 in
                  let w1 := with_chat_sessions <[session_id := s1]> w0 in
                  let w2 := with_chat_sessions <[session_id := s2]> w1 in
                  let w3 :=
                    with_processing_status
                      <[session_id :=
                          "File processed successfully. You can now ask questions."]>
                      w2 in
                  if decide (audio_path ∈ fs) then
                    let w4 := with_files (λ fs, fs ∖ {[audio_path]}) w3 in
                    let w5 :=
                      with_chat_sessions
                        <[session_id := set_is_processing false s2]> w4 in
                    MkRun (Return tt) w5 [w0; w1; w2; w3; w4; w5]
                  else
                    video_failed session_id (FileNotFoundError audio_path) s2 w3
                      [w0; w1; w2; w3]
              end
          end
      end
  end.

(** The content of the assistant message the answer job appends. *)
Definition answer_text (reply : Outcome string) : string :=
  match reply with
  | Return answer => answer
  | Raise e =>
      "Sorry, I encountered an error while processing your question: "
      +:+ str e
  end.

(** The status the answer job leaves. *)
Definition answer_status (reply : Outcome string) : string :=
  match reply with
  | Return _ => "Answer generated successfully."
  | Raise e => "Error generating answer: " +:+ str e
  end.

(** The answer job for a session found as [s]: one assistant message
    (the answer, or an apology with the failure reason), a status, and
    the flag cleared last. On failure the status is written before the
    message. *)
Definition answer_job (ext : Externals) (session_id question : string)
    (s : Session) (w : World) : Run unit :=
  let reply :=
    answer_of (ollama_chat ext (prompt (extracted_text s) question)) in
  let s1 :=
    set_messages
      (messages s
       ++ [{| role := assistant; content := answer_text reply |}]) s in
  let add_message := with_chat_sessions <[session_id := s1]> in
  let add_status :=
    with_processing_status <[session_id := answer_status reply]> in
  let clear :=
    with_chat_sessions <[session_id := set_is_processing false s1]> in
  match reply with
  | Return _ =>
      MkRun (Return tt) (clear (add_status (add_message w)))
        [add_message w; add_status (add_message w);
         clear (add_status (add_message w))]
  | Raise _ =>
      MkRun (Return tt) (clear (add_message (add_status w)))
        [add_status w; add_message (add_status w);
         clear (add_message (add_status w))]
  end.

(** The job [j] for a session found as [s]. *)
Definition job (ext : Externals) (j : Job) (s : Session) (w : World)
    : Run unit :=
  match j with
  | process_pdf_job session_id filepath => pdf_job ext session_id filepath s w
  | process_video_job session_id filepath =>
      video_job ext session_id filepath s w
  | generate_answer_job session_id question =>
      answer_job ext session_id question s w
  end.

(** The run [r], started in [w], cleared the flag of [session_id] in a
    final step: its last write is [is_processing := False] on the session
    as the world before that write holds it, and in every world the run
    passed through earlier the flag is what it was in [w]. *)
Definition clears_flag_last (session_id : string) (w : World) (r : Run unit)
    : Prop :=
  ∃ earlier before s,
    trace r = earlier ++ [final r]
    ∧ Forall (λ w', is_processing <$> chat_sessions w' !! session_id
                    = is_processing <$> chat_sessions w !! session_id) earlier
    ∧ last (w :: earlier) = Some before
    ∧ chat_sessions before !! session_id = Some s
    ∧ final r
      = with_chat_sessions <[session_id := set_is_processing false s]> before.

(** Every session of [w'] has the segments it had in [w]; a session that
    is new in [w'] has none. *)
Definition segments_kept (w w' : World) : Prop :=
  ∀ session_id s',
    chat_sessions w' !! session_id = Some s' →
    segments s' = chat_sessions w !! session_id ≫= segments.

(** The flag of [session_id] is false wherever the session exists in the
    worlds [r] passed through. *)
Definition never_processing (session_id : string) (r : Run Response) : Prop :=
  ∀ w' s',
    w' ∈ trace r →
    chat_sessions w' !! session_id = Some s' →
    is_processing s' = false.

(** The reading of the segments field that the code does not follow: once
    the PDF job has run for a session, the session holds no segments. *)
Definition no_segments_after_pdf (ext : Externals)
    (session_id filepath : string) (w : World) : Prop :=
  ∀ s',
    chat_sessions (final (process_pdf_file ext session_id filepath w))
      !! session_id = Some s' →
    segments s' = None.

(** The reading of sanitization that the code does not follow: whenever
    an upload is accepted, the extension it was dispatched on is the
    lowercased extension of the file name as submitted. *)
Definition extension_preserved (ext : Externals) (req : Request) (w : World)
    : Prop :=
  ∀ file response,
    request_file req = Some file →
    outcome (upload_file ext req w) = Return response →
    status_code response = 200 →
    dispatch_extension (secure_filename ext (filename file))
    = dispatch_extension (filename file).

(** An extension made of letters, digits and hyphens only, and not
    empty. *)
Definition plain_extension (e : string) : Prop :=
  e ≠ ""
  ∧ Forall (λ c, Werkzeug.is_plain c = true) (String.list_ascii_of_string e).

(** The messages of every session are the same in [w] and [w']. *)
Definition same_messages (w w' : World) : Prop :=
  ∀ session_id,
    messages <$> chat_sessions w' !! session_id
    = messages <$> chat_sessions w !! session_id.

End Spec.

(** ** Concrete collaborators and worlds

    One environment in which every collaborator succeeds and one in which
    the extractors and the model fail, and the worlds the examples start
    from. *)

Module Demo.

(** The file names of the examples are ASCII text, which the Unicode
    normalisation leaves as it is: the sanitizer of these collaborators
    normalises by [id]. *)

Definition transcript : Transcription :=
  {| tr_text := Some "hello and welcome";
     tr_segments := Some Spec.example_segments |}.

Definition externals : Externals :=
  {| UPLOAD_FOLDER_PDF := "uploads/pdf";
     UPLOAD_FOLDER_VIDEO := "uploads/video";
     UPLOAD_FOLDER_TEMP := "uploads/temp";
     secure_filename := Werkzeug.secure_filename id;
     file_save := λ _, Return tt;
     process_pdf := λ _, Return "Quarterly report";
     extract_audio_from_video := λ _ temp fs,
       let audio := Py.path_join temp "audio.wav" in
       (Return audio, {[audio]} ∪ fs);
     model_transcribe := λ _, Return transcript;
     ollama_chat := λ _,
       Return {| response_message :=
                   Some {| message_content := Some "<p>Revenue grew.</p>" |} |}
  |}.

Definition failing : Externals :=
  {| UPLOAD_FOLDER_PDF := "uploads/pdf";
     UPLOAD_FOLDER_VIDEO := "uploads/video";
     UPLOAD_FOLDER_TEMP := "uploads/temp";
     secure_filename := Werkzeug.secure_filename id;
     file_save := λ _, Return tt;
     process_pdf := λ _, Raise (Exception "EOF marker not found");
     extract_audio_from_video := λ _ temp fs,
       let audio := Py.path_join temp "audio.wav" in
       (Return audio, {[audio]} ∪ fs);
     model_transcribe := λ _, Raise (Exception "out of memory");
     ollama_chat := λ _, Raise (Exception "connection refused")
  |}.

(** A session as [index] creates it. *)
Definition fresh : Session :=
  {| messages := []; extracted_text := ""; is_processing := false;
     segments := None |}.

(** A session whose upload is being processed. *)
Definition uploading : Session := set_is_processing true fresh.

(** A session holding the text of a processed PDF. *)
Definition loaded : Session := set_extracted_text "Quarterly report" fresh.

(** A session holding the transcript of a processed video. *)
Definition watched : Session :=
  set_segments Spec.example_segments
    (set_extracted_text "hello and welcome" fresh).

Definition world_of (s : Session) : World :=
  with_chat_sessions <["alice" := s]> initial_world.

Definition pdf_upload : Request :=
  {| session_id_cookie := Some "alice";
     request_file := Some {| filename := "report.pdf" |};
     json_question := None |}.

Definition text_upload : Request :=
  {| session_id_cookie := Some "alice";
     request_file := Some {| filename := "notes.txt" |};
     json_question := None |}.

Definition video_upload : Request :=
  {| session_id_cookie := Some "alice";
     request_file := Some {| filename := "talk.mp4" |};
     json_question := None |}.

(** A first visit, without a cookie. *)
Definition visit : Request :=
  {| session_id_cookie := None; request_file := None; json_question := None |}.

(** A request whose token no session of the store has. *)
Definition stale_upload : Request :=
  {| session_id_cookie := Some "ghost";
     request_file := Some {| filename := "report.pdf" |};
     json_question := None |}.

(** The world after a list of events, when each can happen in turn. *)
Definition after (events : list Event) (w : World) : option World :=
  foldl (λ current e, current ≫= fire e) (Some w) events.

(** The world the server is in after [events], starting from empty
    dictionaries. *)
Definition world_after (events : list Event) : World :=
  default initial_world (after events initial_world).

(** A visit, a video upload and its job, then a PDF upload whose job is
    about to run. *)
Definition video_then_pdf : list Event :=
  [ request_index visit "alice";
    request_upload externals video_upload;
    thread_runs externals (process_video_job "alice" "uploads/video/talk.mp4")
      [] [];
    request_upload externals pdf_upload ].

(** An editor's backup copy of a PDF. *)
Definition backup_upload : Request :=
  {| session_id_cookie := Some "alice";
     request_file := Some {| filename := "notes.pdf~" |};
     json_question := None |}.

Definition question : Request :=
  {| session_id_cookie := Some "alice";
     request_file := None;
     json_question := Some "What grew?" |}.

End Demo.

(** ** Lifecycle readings and invariants

    What the routes and jobs do beyond the claimed properties, in the
    words the properties below are stated in. *)

Module Lifecycle.

(** The first of the upload handler's three checks that a request fails,
    before the session store is looked at: no file part, an empty file
    name, no session token. *)
Definition upload_precheck (req : Request) : option string :=
  match request_file req with
  | None => Some "No file provided"
  | Some file =>
      if decide (filename file = "") then Some "No file selected"
      else
        match session_id_cookie req with
        | None => Some "Session expired"
        | Some session_id =>
            if decide (session_id = "") then Some "Session expired" else None
        end
  end.

(** The folder an upload with extension [file_extension] is saved in. *)
Definition upload_folder (ext : Externals) (file_extension : string) : string :=
  if decide (file_extension = "pdf") then UPLOAD_FOLDER_PDF ext
  else UPLOAD_FOLDER_VIDEO ext.

(** The thread an upload with extension [file_extension] starts. *)
Definition upload_job (file_extension session_id filepath : string) : Job :=
  if decide (file_extension = "pdf") then process_pdf_job session_id filepath
  else process_video_job session_id filepath.

(** The exception that ends the [try] block of the upload handler for the
    submitted name [submitted], if one does: the sanitized name has no
    dot, or saving the file fails. *)
Definition upload_failure (ext : Externals) (submitted : string) : option Exn :=
  let name := secure_filename ext submitted in
  match Spec.dispatch_extension name with
  | None => Some (IndexError "list index out of range")
  | Some file_extension =>
      if bool_decide (file_extension ∈ Spec.supported) then
        match
          file_save ext (Py.path_join (upload_folder ext file_extension) name)
        with
        | Raise e => Some e
        | Return _ => None
        end
      else None
  end.

(** Every session of [w] is still there in [w'], with its messages
    extended at the end. *)
Definition messages_grow (w w' : World) : Prop :=
  ∀ session_id s,
    chat_sessions w !! session_id = Some s →
    ∃ s', chat_sessions w' !! session_id = Some s'
          ∧ messages s `prefix_of` messages s'.

(** Every session marked as processing has a started thread that has not
    run yet. *)
Definition flag_has_thread (w : World) : Prop :=
  ∀ session_id s,
    chat_sessions w !! session_id = Some s →
    is_processing s = true →
    ∃ j, j ∈ threads w ∧ job_session j = session_id.

(** The shapes one transition can have: sessions and threads untouched;
    one new session; or one existing session replaced, its messages
    extended, together with either threads started for that session (at
    least one if the session is left processing) or one thread of that
    session gone and the session left not processing. *)
Definition change (w w' : World) : Prop :=
  (chat_sessions w' = chat_sessions w ∧ threads w' = threads w)
  ∨ (∃ session_id,
       chat_sessions w !! session_id = None
       ∧ chat_sessions w' = <[session_id := new_session]> (chat_sessions w)
       ∧ threads w' = threads w)
  ∨ (∃ session_id s s',
       chat_sessions w !! session_id = Some s
       ∧ chat_sessions w' = <[session_id := s']> (chat_sessions w)
       ∧ messages s `prefix_of` messages s'
       ∧ ((∃ started,
             threads w' = threads w ++ started
             ∧ Forall (λ j, job_session j = session_id) started
             ∧ (is_processing s' = true → started ≠ []))
          ∨ (∃ j earlier later,
               threads w = earlier ++ j :: later
               ∧ threads w' = earlier ++ later
               ∧ job_session j = session_id
               ∧ is_processing s' = false))).

(** A file name that cannot leave the folder it is joined to: only
    letters, digits, underscores, dots and hyphens, and no dot or
    underscore in front. *)
Definition safe_name (name : string) : Prop :=
  Forall (λ c, Werkzeug.is_kept c = true) (String.list_ascii_of_string name)
  ∧ match name with
    | EmptyString => True
    | String c _ => Werkzeug.is_stripped c = false
    end.

(** The statuses a job can leave. *)
Definition final_status (status : string) : Prop :=
  status = "File processed successfully. You can now ask questions."
  ∨ status = "Answer generated successfully."
  ∨ Py.contains "Error" status.

(** A request that carries only the session token [session_id]. *)
Definition with_token (session_id : string) : Request :=
  {| session_id_cookie := Some session_id; request_file := None;
     json_question := None |}.

(** A question [question] asked with the session token [session_id]. *)
Definition asking (session_id question : string) : Request :=
  {| session_id_cookie := Some session_id; request_file := None;
     json_question := Some question |}.

(** A session whose upload is in flight and that already holds a text. *)
Definition busy : Session :=
  set_is_processing true (set_extracted_text "Quarterly report" new_session).

(** Collaborators whose PDF extractor finds no text. *)
Definition blank_pdf : Externals :=
  {| UPLOAD_FOLDER_PDF := "uploads/pdf";
     UPLOAD_FOLDER_VIDEO := "uploads/video";
     UPLOAD_FOLDER_TEMP := "uploads/temp";
     secure_filename := Werkzeug.secure_filename id;
     file_save := λ _, Return tt;
     process_pdf := λ _, Return "";
     extract_audio_from_video := λ _ temp fs, (Return "audio.wav", fs);
     model_transcribe := λ _, Raise (KeyError "language");
     ollama_chat := λ _, Raise (Exception "connection refused") |}.

(** Collaborators that cannot write to the upload folders. *)
Definition read_only_disk : Externals :=
  {| UPLOAD_FOLDER_PDF := "uploads/pdf";
     UPLOAD_FOLDER_VIDEO := "uploads/video";
     UPLOAD_FOLDER_TEMP := "uploads/temp";
     secure_filename := Werkzeug.secure_filename id;
     file_save := λ _, Raise (Exception "Read-only file system");
     process_pdf := λ _, Return "";
     extract_audio_from_video := λ _ temp fs, (Return "audio.wav", fs);
     model_transcribe := λ _, Raise (KeyError "language");
     ollama_chat := λ _, Raise (Exception "connection refused") |}.

(** A first visit that is given the token "alice", then a video upload
    whose job is about to run. *)
Definition video_uploaded : list Event :=
  [ request_index Demo.visit "alice";
    request_upload Demo.externals Demo.video_upload ].

(** The run of the video job of that upload. *)
Definition video_run (ext : Externals) : Event :=
  thread_runs ext (process_video_job "alice" "uploads/video/talk.mp4") [] [].

(** The run of the job of a PDF upload. *)
Definition pdf_run : Event :=
  thread_runs Demo.externals
    (process_pdf_job "alice" "uploads/pdf/report.pdf") [] [].

(** A first visit that is given the token "alice", then a PDF upload. *)
Definition visit_then_upload : list Event :=
  [ request_index Demo.visit "alice";
    request_upload Demo.externals Demo.pdf_upload ].

(** A normalisation that knows one decomposition: the letter e with an
    acute accent (U+00E9, in UTF-8 the bytes 195 169) becomes the letter e
    followed by the combining acute accent (U+0301, the bytes 204 129);
    every other character is left as it is. *)
Fixpoint nfkd_acute (s : string) : string :=
  match s with
  | EmptyString => EmptyString
  | String c rest =>
      match rest with
      | String d rest' =>
          if decide (c = "195"%char ∧ d = "169"%char) then
            String "e" (String "204" (String "129" (nfkd_acute rest')))
          else String c (nfkd_acute rest)
      | EmptyString => String c EmptyString
      end
  end.

(** The collaborators of [Demo.externals] with a sanitizer that
    normalises by [nfkd_acute]. *)
Definition accented : Externals :=
  {| UPLOAD_FOLDER_PDF := "uploads/pdf";
     UPLOAD_FOLDER_VIDEO := "uploads/video";
     UPLOAD_FOLDER_TEMP := "uploads/temp";
     secure_filename := Werkzeug.secure_filename nfkd_acute;
     file_save := λ _, Return tt;
     process_pdf := λ _, Return "Quarterly report";
     extract_audio_from_video := λ _ temp fs, (Return "audio.wav", fs);
     model_transcribe := λ _, Return Demo.transcript;
     ollama_chat := λ _, Raise (Exception "connection refused") |}.

(** An upload whose name has two accented letters. *)
Definition accented_upload : Request :=
  {| session_id_cookie := Some "alice";
     request_file := Some {| filename := "résumé.pdf" |};
     json_question := None |}.

(** An upload whose name tries to leave the upload folder. *)
Definition escaping_upload : Request :=
  {| session_id_cookie := Some "alice";
     request_file := Some {| filename := "../../etc/résumé.pdf" |};
     json_question := None |}.

(** The float [16.5]. *)
Definition sixteen_and_a_half : number :=
  py_float (S754_finite false 4644337115725824 (-48)).

(** The events that leave the flag of [session_id] as it is while the
    session is processing: every event but an upload that carries the
    token and the run of a thread of the session. *)
Definition keeps_flag (session_id : string) (e : Event) : bool :=
  match e with
  | request_upload _ req =>
      negb (bool_decide (session_id_cookie req = Some session_id))
  | thread_runs _ j _ _ => negb (bool_decide (job_session j = session_id))
  | _ => true
  end.

(** Alice visits, uploads a PDF and waits for its job. *)
Definition document_ready : list Event :=
  [ request_index Demo.visit "alice";
    request_upload Demo.externals Demo.pdf_upload;
    pdf_run ].

(** Then she asks a question and waits for the answer. *)
Definition conversation : list Event :=
  document_ready
  ++ [ request_ask Demo.question;
       thread_runs Demo.externals (generate_answer_job "alice" "What grew?")
         [] [] ].

(** Alice asks again and the answer cannot be generated. *)
Definition follow_up : list Event :=
  [ request_ask (asking "alice" "By how much?");
    thread_runs Demo.failing (generate_answer_job "alice" "By how much?")
      [] [] ].

(** Bob visits with a cookie of his own and uploads a video, which is
    processed. *)
Definition earlier_visitor : list Event :=
  [ request_index (with_token "bob") "unused";
    request_upload Demo.externals
      {| session_id_cookie := Some "bob";
         request_file := Some {| filename := "talk.mp4" |};
         json_question := None |};
    thread_runs Demo.externals
      (process_video_job "bob" "uploads/video/talk.mp4") [] [] ].

(** Bob's visit and video, then Alice's first visit. *)
Definition two_visitors : list Event :=
  earlier_visitor ++ [request_index Demo.visit "alice"].

(** While Alice's question is being answered, Bob polls, Alice reloads
    the page and reads her messages. *)
Definition meanwhile : list Event :=
  [ request_status (with_token "bob");
    request_index (with_token "alice") "unused";
    request_messages (with_token "alice") ].

(** The session token an event is about: the token of the request (for
    the index route, the one it leaves in the cookie), or the session a
    thread was started for. *)
Definition event_token (e : Event) : option string :=
  match e with
  | request_index req uuid => Some (default uuid (session_id_cookie req))
  | request_upload _ req => session_id_cookie req
  | request_ask req => session_id_cookie req
  | request_status req => session_id_cookie req
  | request_messages req => session_id_cookie req
  | thread_runs _ j _ _ => Some (job_session j)
  end.

(** The session and the status stored under [session_id] are the same in
    [w] and [w']. *)
Definition untouched (session_id : string) (w w' : World) : Prop :=
  chat_sessions w' !! session_id = chat_sessions w !! session_id
  ∧ processing_status w' !! session_id = processing_status w !! session_id.

End Lifecycle.

(** ** Proof automation *)

(** Unfold the monad's operations and the dictionary primitives. *)
Ltac run :=
  cbv [mbind M_bind mret M_ret bind prepend ret raise get write call
       try_except try_finally lookup_session update_session set_status
       start_thread append_message list_index subscript save os_remove];
  cbn [app outcome final trace chat_sessions processing_status files threads
       with_chat_sessions with_processing_status with_files with_threads
       response_message message_content].

(** Writes that keep the messages of the session they touch keep
    [Spec.same_messages]. *)
Ltac same_messages Hs :=
  let other := fresh "other" in
  intros other; cbn;
  match type of Hs with
  | _ !! ?session_id = _ =>
      destruct (decide (session_id = other)) as [<-|];
      rewrite ?lookup_insert_eq, ?lookup_insert_ne, ?Hs by done; done
  end.

(** The sessions part of [effect] for a world that replaced the session
    found under [Hs]. *)
Ltac replaced Hs :=
  right; left; eexists _, _, _; split; [exact Hs|]; split;
  [cbn; rewrite ?insert_insert_eq; reflexivity|intros; reflexivity].

Ltac status_set Hs :=
  right; eexists _, _; split; [apply elem_of_dom; eexists; exact Hs|];
  cbn; rewrite ?insert_insert_eq; reflexivity.

(** Closes [untouched] goals on explicit worlds whose writes are all under
    another key. *)
Ltac other_key :=
  split; cbn; rewrite ?lookup_insert_ne by congruence; reflexivity.

(** * Properties *)

(** ** Timestamp context lookup *)

Lemma format_02d_below_60 n :
  0 ≤ n < 60 →
  Py.format_02d n = Spec.two_digits (n `div` 10) (n `mod` 10).
Proof.
  intros Hn.
  assert (∃ k : nat, n = Z.of_nat k ∧ (k < 60)%nat) as (k & -> & Hk).
  { exists (Z.to_nat n). lia. }
  do 60 (destruct k as [|k]; [vm_compute; reflexivity|]). lia.
Qed.

Lemma pretty_N_go_length x s :
  (String.length s ≤ String.length (pretty_N_go x s))%nat.
Proof.
  revert s. induction (N.lt_wf_0 x) as [x _ IH]; intros s.
  destruct (decide (x = 0%N)) as [->|Hx]; [by rewrite pretty_N_go_0|].
  rewrite pretty_N_go_step by lia.
  etrans; [|apply IH; apply N.div_lt; lia]. simpl. lia.
Qed.

Lemma pretty_Z_nonempty (z : Z) : (1 ≤ String.length (pretty z))%nat.
Proof.
  assert (∀ p : positive, (1 ≤ String.length (pretty p))%nat) as Hpos.
  { intros p. unfold pretty, pretty_positive, pretty, pretty_N.
    rewrite decide_False by done.
    rewrite pretty_N_go_step by lia.
    etrans; [|apply pretty_N_go_length]. simpl. lia. }
  destruct z as [|p|p]; unfold pretty, pretty_Z.
  - simpl. lia.
  - apply Hpos.
  - simpl. lia.
Qed.


Lemma append_inj_tail a b t t' :
  String.length t = String.length t' →
  a +:+ t = b +:+ t' → a = b ∧ t = t'.
Proof.
  intros Hlen. revert b.
  induction a as [|c a IH]; intros [|d b] Heq.
  - done.
  - apply (f_equal String.length) in Heq.
    change (String d b +:+ t') with (String d (b +:+ t')) in Heq.
    change ("" +:+ t) with t in Heq. cbn in Heq.
    assert (String.length t' ≤ String.length (b +:+ t'))%nat; [|lia].
    clear. induction b as [|e b IH]; [done|].
    change (String e b +:+ t') with (String e (b +:+ t')). cbn. lia.
  - apply (f_equal String.length) in Heq.
    change (String c a +:+ t) with (String c (a +:+ t)) in Heq.
    change ("" +:+ t') with t' in Heq. cbn in Heq.
    assert (String.length t ≤ String.length (a +:+ t))%nat; [|lia].
    clear. induction a as [|e a IH]; [done|].
    change (String e a +:+ t) with (String e (a +:+ t)). cbn. lia.
  - change (String c a +:+ t) with (String c (a +:+ t)) in Heq.
    change (String d b +:+ t') with (String d (b +:+ t')) in Heq.
    injection Heq as -> Heq. destruct (IH b Heq) as [-> ->]. done.
Qed.

Lemma two_digits_inj n n' :
  0 ≤ n < 60 → 0 ≤ n' < 60 →
  Spec.two_digits (n `div` 10) (n `mod` 10)
  = Spec.two_digits (n' `div` 10) (n' `mod` 10) →
  n = n'.
Proof.
  intros Hn Hn'. unfold Spec.two_digits. intros [= H1 H2].
  assert (∀ d d' : Z, 0 ≤ d < 10 → 0 ≤ d' < 10 →
            ascii_of_nat (48 + Z.to_nat d) = ascii_of_nat (48 + Z.to_nat d') →
            d = d') as Hdigit.
  { intros d d' Hd Hd' Heq. apply (f_equal nat_of_ascii) in Heq.
    rewrite !nat_ascii_embedding in Heq by lia. lia. }
  assert (n `div` 10 = n' `div` 10) as Htens.
  { apply Hdigit; [| |done];
      (split; [apply Z.div_pos; lia|apply Z.div_lt_upper_bound; lia]). }
  assert (n `mod` 10 = n' `mod` 10) as Hunits.
  { apply Hdigit; [| |done]; apply Z.mod_pos_bound; lia. }
  rewrite (Z.div_mod n 10), (Z.div_mod n' 10) by lia. lia.
Qed.

Lemma clock_fields seconds :
  let minutes := (seconds `mod` 3600) `div` 60 in
  let secs := seconds `mod` 60 in
  Spec.clock seconds
  = Py.format_02d (seconds `div` 3600) +:+ ":"
    +:+ Spec.two_digits (minutes `div` 10) (minutes `mod` 10) +:+ ":"
    +:+ Spec.two_digits (secs `div` 10) (secs `mod` 10)
  ∧ 0 ≤ minutes < 60 ∧ 0 ≤ secs < 60
  ∧ seconds = 3600 * (seconds `div` 3600) + 60 * minutes + secs.
Proof.
  intros minutes secs.
  assert (0 ≤ minutes < 60) as Hm.
  { unfold minutes. pose proof (Z.mod_pos_bound seconds 3600).
    split; [apply Z.div_pos; lia|apply Z.div_lt_upper_bound; lia]. }
  assert (0 ≤ secs < 60) as Hs by (apply Z.mod_pos_bound; lia).
  split; [|split; [done|split; [done|]]].
  - unfold Spec.clock. fold minutes secs.
    by rewrite (format_02d_below_60 minutes), (format_02d_below_60 secs).
  - unfold minutes, secs.
    rewrite (Z.div_mod seconds 3600) at 1 by lia.
    rewrite (Z.div_mod (seconds `mod` 3600) 60) at 1 by lia.
    rewrite (Z.mod_mod_divide seconds 3600 60); [lia|].
    exists 60. lia.
Qed.


(** *** Whole seconds *)


Lemma format_timestamp_whole seconds :
  format_timestamp (py_int seconds) = Return (Spec.clock seconds).
Proof. reflexivity. Qed.



Lemma lines_cons segment segs target window :
  Spec.lines (segment :: segs) target window
  = (found_here ← Spec.entry target window segment;
     found ← Spec.lines segs target window;
     Return (match found_here with Some line => line :: found | None => found end)).
Proof.
  unfold Spec.lines. cbn [mapM].
  destruct (Spec.entry target window segment) as [[line|]|e];
    cbn; destruct (mapM (Spec.entry target window) segs); done.
Qed.


(** *** The loop *)

Lemma for_segment_spec target window segs context_text :
  for_segment target window segs context_text
  = (found ← Spec.lines segs target window; Return (context_text ++ found)).
Proof.
  revert context_text.
  induction segs as [|segment segs IH]; intros context_text.
  { cbn. by rewrite app_nil_r. }
  rewrite lines_cons. cbn [for_segment]. unfold Spec.entry.
  destruct (within_window target window segment) as [[|]|e]; cbn; [| |done].
  - destruct (format_timestamp (seg_start segment)) as [timestamp|e];
      cbn; [|done].
    rewrite IH. destruct (Spec.lines segs target window); cbn; [|done].
    by rewrite <- app_assoc.
  - rewrite IH. by destruct (Spec.lines segs target window).
Qed.

Lemma find_text_refines segs target window :
  find_text_around_timestamp segs target window
  = Spec.context_spec segs target window.
Proof.
  unfold find_text_around_timestamp, Spec.context_spec.
  destruct segs as [|segment segs]; [done|].
  rewrite for_segment_spec.
  by destruct (Spec.lines (segment :: segs) target window).
Qed.



(** ** Running the monad *)

Lemma falsy_true s : falsy s = true ↔ s = "".
Proof. unfold falsy. apply bool_decide_eq_true. Qed.

Lemma falsy_false s : falsy s = false ↔ s ≠ "".
Proof. unfold falsy. apply bool_decide_eq_false. Qed.

(** ** Question handler *)

Lemma ask_question_refines req w :
  ask_question req w = Spec.ask req w.
Proof.
  unfold ask_question, Spec.ask, Spec.known_session, Spec.reject.
  destruct (session_id_cookie req) as [session_id|]; [|done].
  run. destruct (decide (session_id = "")) as [->|Hne].
  { rewrite (proj2 (falsy_true "") eq_refl). done. }
  rewrite (proj2 (falsy_false _) Hne). cbn [orb].
  destruct (chat_sessions w !! session_id) as [s|] eqn:Hs;
    cbn [fmap option_fmap option_map].
  - rewrite bool_decide_eq_true_2 by (apply elem_of_dom; eauto). cbn [negb].
    rewrite Hs. run.
    destruct (is_processing s) eqn:Hp; [done|].
    destruct (decide (default "" (json_question req) = "")) as [Hq|Hq].
    { rewrite (proj2 (falsy_true _) Hq). done. }
    rewrite (proj2 (falsy_false _) Hq). rewrite Hs. run.
    destruct (decide (extracted_text s = "")) as [Ht|Ht].
    { rewrite (proj2 (falsy_true _) Ht). done. }
    rewrite (proj2 (falsy_false _) Ht). rewrite Hs. run.
    rewrite !lookup_insert_eq. run. done.
  - rewrite bool_decide_eq_false_2; [done|].
    rewrite elem_of_dom, Hs. by intros [? ?].
Qed.

(** C1. The question handler checks, in this order, that the session token
    is present and known, that the session is not processing, that the
    question is non-empty and that the session has extracted text; each
    failed check answers 400 with its own message and writes nothing (so a
    busy session's messages are left alone). Only when all four pass does
    it append the user message, set [is_processing], set the status to
    "Generating answer..." and start the answer job, in that order. *)
Theorem ask_question_guards :
  (∀ req w, ask_question req w = Spec.ask req w)
  ∧ NoDup [ "Session expired"; "System is still processing your file";
            "No question provided";
            "No document content available. Please upload a file first." ]
  ∧ (∀ req w,
       (∃ msg, ask_question req w = Spec.reject w msg)
       ∨ (∃ session_id s s',
            let question := default "" (json_question req) in
            let r := ask_question req w in
            Spec.known_session w (session_id_cookie req) = Some (session_id, s)
            ∧ is_processing s = false
            ∧ question ≠ ""
            ∧ extracted_text s ≠ ""
            ∧ outcome r
              = Return (jsonify (message_body "Question received. Processing..."))
            ∧ chat_sessions (final r) = <[session_id := s']> (chat_sessions w)
            ∧ messages s'
              = messages s ++ [{| role := user; content := question |}]
            ∧ is_processing s' = true
            ∧ extracted_text s' = extracted_text s
            ∧ segments s' = segments s
            ∧ processing_status (final r)
              = <[session_id := "Generating answer..."]> (processing_status w)
            ∧ threads (final r)
              = threads w ++ [generate_answer_job session_id question]
            ∧ files (final r) = files w)).
Proof.
  split; [exact ask_question_refines|].
  split.
  { apply (bool_decide_unpack _). vm_compute. exact I. }
  intros req w. rewrite ask_question_refines. unfold Spec.ask.
  destruct (Spec.known_session w (session_id_cookie req)) as [[session_id s]|];
    [|left; eauto].
  destruct (is_processing s) eqn:Hp; [left; eauto|].
  destruct (decide (default "" (json_question req) = "")); [left; eauto|].
  destruct (decide (extracted_text s = "")); [left; eauto|].
  right. eexists session_id, s, _. cbn.
  rewrite insert_insert_eq.
  repeat split; try done.
Qed.

(** ** Background jobs *)

Lemma contains_prefix needle rest : Py.contains needle (needle +:+ rest).
Proof. exists "", rest. done. Qed.

Lemma contains_suffix pre needle : Py.contains needle (pre +:+ needle).
Proof.
  exists pre, "". f_equal. induction needle as [|c needle IH]; [done|].
  change (String c needle +:+ "") with (String c (needle +:+ "")).
  by rewrite <- IH.
Qed.

(** C3. A run of the PDF job for a known session never raises, clears
    [is_processing] in its last write, leaves every session's messages and
    the session's segments alone at every point, and either stores the
    extractor's text with the success status or, when the extractor fails,
    keeps the old text and sets a status made of "Error processing PDF: "
    and the failure reason. *)
Theorem process_pdf_file_outcome ext w session_id filepath s :
  chat_sessions w !! session_id = Some s →
  let r := process_pdf_file ext session_id filepath w in
  ∃ s' status,
    outcome r = Return tt
    ∧ chat_sessions (final r) = <[session_id := s']> (chat_sessions w)
    ∧ processing_status (final r)
      = <[session_id := status]> (processing_status w)
    ∧ is_processing s' = false
    ∧ messages s' = messages s
    ∧ segments s' = segments s
    ∧ last (trace r) = Some (final r)
    ∧ Forall (Spec.same_messages w) (trace r)
    ∧ match process_pdf ext filepath with
      | Return text =>
          extracted_text s' = text
          ∧ status = "File processed successfully. You can now ask questions."
      | Raise e =>
          extracted_text s' = extracted_text s
          ∧ status = "Error processing PDF: " +:+ str e
          ∧ Py.contains "Error" status
          ∧ Py.contains (str e) status
      end.
Proof.
  intros Hs r. subst r. unfold process_pdf_file. run.
  destruct (process_pdf ext filepath) as [text|e]; run; rewrite Hs; run.
  - rewrite lookup_insert_eq. run. rewrite insert_insert_eq.
    eexists _, _. split_and!; try done.
    repeat constructor; same_messages Hs.
  - eexists _, _. split_and!; try done.
    + repeat constructor; same_messages Hs.
    + apply (contains_prefix "Error").
    + apply contains_suffix.
Qed.

Lemma process_pdf_file_outcome_witness :
  chat_sessions (Demo.world_of Demo.uploading) !! "alice" = Some Demo.uploading
  ∧ ∃ s',
      chat_sessions
        (final (process_pdf_file Demo.externals "alice" "uploads/pdf/report.pdf"
                  (Demo.world_of Demo.uploading)))
      = <["alice" := s']> (chat_sessions (Demo.world_of Demo.uploading))
      ∧ is_processing s' = false
      ∧ extracted_text s' = "Quarterly report".
Proof.
  assert (chat_sessions (Demo.world_of Demo.uploading) !! "alice"
          = Some Demo.uploading) as Hs by (vm_compute; reflexivity).
  split; [exact Hs|].
  destruct (process_pdf_file_outcome Demo.externals _ "alice"
              "uploads/pdf/report.pdf" _ Hs)
    as (s' & status & _ & Hcs & _ & Hp & _ & _ & _ & _ & Ht & _).
  exists s'. repeat split; assumption.
Defined.

Lemma process_video_file_refines ext w session_id filepath s :
  chat_sessions w !! session_id = Some s →
  process_video_file ext session_id filepath w
  = Spec.video_job ext session_id filepath s w.
Proof.
  intros Hs.
  unfold process_video_file, extract_audio, Spec.video_job, Spec.video_failed.
  run.
  destruct (extract_audio_from_video ext filepath (UPLOAD_FOLDER_TEMP ext)
              (files w)) as [[audio_path|e] fs]; run.
  2: { rewrite Hs. run. done. }
  destruct (transcribe_audio ext audio_path) as [result|e]; run.
  2: { rewrite Hs. run. done. }
  destruct (tr_text result) as [text|]; run.
  2: { rewrite Hs. run. done. }
  rewrite Hs. run. rewrite lookup_insert_eq. run.
  destruct (decide (audio_path ∈ fs)); run; rewrite lookup_insert_eq; run;
    done.
Qed.

Lemma video_job_clears_flag_last ext session_id filepath s w :
  chat_sessions w !! session_id = Some s →
  Spec.clears_flag_last session_id w
    (Spec.video_job ext session_id filepath s w).
Proof.
  intros Hs. unfold Spec.clears_flag_last, Spec.video_job, Spec.video_failed.
  destruct (extract_audio_from_video ext filepath (UPLOAD_FOLDER_TEMP ext)
              (files w)) as [[audio_path|e] fs];
    [destruct (transcribe_audio ext audio_path) as [result|e];
     [destruct (tr_text result) as [text|];
      [cbn zeta; destruct (decide (audio_path ∈ fs))|]|]|].
  1, 2: eexists [_; _; _; _; _], _, _.
  3, 4, 5: eexists [_; _], _, _.
  all: cbn; rewrite ?lookup_insert_eq, Hs; cbn.
  all: (split; [reflexivity|]).
  all: (split;
        [repeat (apply Forall_cons; split;
                 [cbn; rewrite ?lookup_insert_eq, ?Hs; reflexivity|]);
         constructor|]).
  all: (split; [reflexivity|]).
  all: (split;
        [cbn; rewrite ?lookup_insert_eq, ?Hs; reflexivity|reflexivity]).
Qed.

(** C4. A run of the video job for a known session never raises and clears
    [is_processing] in a final step: its last write clears the flag, and
    in every world it passes through before, the flag is what it was when
    the job started. When audio extraction, transcription or reading the
    transcript's text fails, the status is "Error processing video: "
    followed by the exception text, the stored text and segments are
    untouched and no file is removed: the files are those audio extraction
    left. Only when every step before it succeeded is the temporary audio
    file removed. *)
Theorem process_video_file_outcome ext w session_id filepath s :
  chat_sessions w !! session_id = Some s →
  let r := process_video_file ext session_id filepath w in
  let extraction :=
    extract_audio_from_video ext filepath (UPLOAD_FOLDER_TEMP ext) (files w) in
  let failed e s' status :=
    status = "Error processing video: " +:+ str e
    ∧ Py.contains (str e) status
    ∧ extracted_text s' = extracted_text s
    ∧ segments s' = segments s
    ∧ files (final r) = extraction.2 in
  Spec.clears_flag_last session_id w r
  ∧ ∃ s' status,
    outcome r = Return tt
    ∧ chat_sessions (final r) = <[session_id := s']> (chat_sessions w)
    ∧ processing_status (final r)
      = <[session_id := status]> (processing_status w)
    ∧ is_processing s' = false
    ∧ messages s' = messages s
    ∧ last (trace r) = Some (final r)
    ∧ match extraction.1 with
      | Raise e => failed e s' status
      | Return audio_path =>
          match transcribe_audio ext audio_path with
          | Raise e => failed e s' status
          | Return result =>
              match tr_text result with
              | None => failed (KeyError "text") s' status
              | Some text =>
                  extracted_text s' = text
                  ∧ segments s' = Some (default [] (tr_segments result))
                  ∧ if decide (audio_path ∈ extraction.2) then
                      status
                      = "File processed successfully. You can now ask questions."
                      ∧ files (final r) = extraction.2 ∖ {[audio_path]}
                    else
                      status = "Error processing video: "
                               +:+ str (FileNotFoundError audio_path)
                      ∧ files (final r) = extraction.2
              end
          end
      end.
Proof.
  intros Hs r extraction failed. subst r extraction failed.
  split.
  { rewrite (process_video_file_refines _ _ _ _ s) by exact Hs.
    by apply video_job_clears_flag_last. }
  unfold process_video_file, extract_audio. run.
  destruct (extract_audio_from_video ext filepath (UPLOAD_FOLDER_TEMP ext)
              (files w)) as [[audio_path|e] fs]; run; cbn [fst snd].
  2: { rewrite Hs. run. eexists _, _.
       split_and!; try done. apply contains_suffix. }
  destruct (transcribe_audio ext audio_path) as [result|e]; run.
  2: { rewrite Hs. run. eexists _, _.
       split_and!; try done. apply contains_suffix. }
  destruct (tr_text result) as [text|]; run.
  2: { rewrite Hs. run. eexists _, _.
       split_and!; try done. apply (contains_suffix _ "'text'"). }
  rewrite Hs. run. rewrite lookup_insert_eq. run.
  destruct (decide (audio_path ∈ fs)); run; rewrite lookup_insert_eq; run;
    rewrite !insert_insert_eq; eexists _, _; split_and!; done.
Qed.

Lemma process_video_file_outcome_witness :
  chat_sessions (Demo.world_of Demo.uploading) !! "alice" = Some Demo.uploading
  ∧ Spec.clears_flag_last "alice" (Demo.world_of Demo.uploading)
      (process_video_file Demo.failing "alice" "uploads/video/talk.mp4"
         (Demo.world_of Demo.uploading))
  ∧ ∃ s',
      chat_sessions
        (final (process_video_file Demo.failing "alice" "uploads/video/talk.mp4"
                  (Demo.world_of Demo.uploading)))
      = <["alice" := s']> (chat_sessions (Demo.world_of Demo.uploading))
      ∧ is_processing s' = false
      ∧ files
          (final (process_video_file Demo.failing "alice"
                    "uploads/video/talk.mp4" (Demo.world_of Demo.uploading)))
        = {["uploads/temp/audio.wav"]} ∪ ∅.
Proof.
  assert (chat_sessions (Demo.world_of Demo.uploading) !! "alice"
          = Some Demo.uploading) as Hs by (vm_compute; reflexivity).
  split; [exact Hs|].
  destruct (process_video_file_outcome Demo.failing _ "alice"
              "uploads/video/talk.mp4" _ Hs)
    as (Hlast & s' & status & _ & Hcs & _ & Hp & _ & _ & Hcase).
  split; [exact Hlast|].
  exists s'. split; [exact Hcs|]. split; [exact Hp|].
  cbn in Hcase. destruct Hcase as (_ & _ & _ & _ & Hfiles). exact Hfiles.
Defined.

Lemma generate_answer_refines ext w session_id question s :
  chat_sessions w !! session_id = Some s →
  generate_answer ext session_id question w
  = Spec.answer_job ext session_id question s w.
Proof.
  intros Hs.
  unfold generate_answer, Spec.answer_job, Spec.answer_text,
    Spec.answer_status, Spec.answer_of.
  run.
  rewrite Hs. run.
  destruct (ollama_chat ext (prompt (extracted_text s) question))
    as [[[[[answer|]]|]]|e]; run; rewrite ?Hs; run;
    rewrite ?lookup_insert_eq; run; reflexivity.
Qed.

(** C5. A run of the answer job for a known session never raises and
    appends exactly one assistant message: the model's answer with the
    status "Answer generated successfully.", or, when the call or reading
    its reply fails, an apology followed by the failure reason with the
    status "Error generating answer: " and the reason. It clears
    [is_processing] in its last write. So a question accepted in [w] and
    then answered leaves the session's messages extended by exactly two
    entries: the user's question, then one assistant message. *)
Theorem generate_answer_outcome ext w session_id question s :
  chat_sessions w !! session_id = Some s →
  let r := generate_answer ext session_id question w in
  let reply :=
    Spec.answer_of (ollama_chat ext (prompt (extracted_text s) question)) in
  ∃ s' text status,
    outcome r = Return tt
    ∧ chat_sessions (final r) = <[session_id := s']> (chat_sessions w)
    ∧ processing_status (final r)
      = <[session_id := status]> (processing_status w)
    ∧ messages s' = messages s ++ [{| role := assistant; content := text |}]
    ∧ is_processing s' = false
    ∧ extracted_text s' = extracted_text s
    ∧ segments s' = segments s
    ∧ last (trace r) = Some (final r)
    ∧ match reply with
      | Return answer =>
          text = answer ∧ status = "Answer generated successfully."
      | Raise e =>
          text = "Sorry, I encountered an error while processing your question: "
                 +:+ str e
          ∧ status = "Error generating answer: " +:+ str e
      end
    ∧ ∀ req,
        session_id_cookie req = Some session_id →
        session_id ≠ "" →
        json_question req = Some question →
        question ≠ "" →
        is_processing s = false →
        extracted_text s ≠ "" →
        ∃ s2,
          chat_sessions
            (final (generate_answer ext session_id question
                      (final (ask_question req w)))) !! session_id
          = Some s2
          ∧ messages s2
            = messages s ++ [ {| role := user; content := question |};
                              {| role := assistant; content := text |} ]
          ∧ is_processing s2 = false.
Proof.
  intros Hs r reply. subst r.
  rewrite (generate_answer_refines _ _ _ _ _ Hs).
  exists (set_is_processing false
            (set_messages
               (messages s
                ++ [{| role := assistant; content := Spec.answer_text reply |}])
               s)),
    (Spec.answer_text reply), (Spec.answer_status reply).
  split_and!.
  10: {
    intros req Hcookie Hne Hq Hqne Hp Ht.
    rewrite ask_question_refines. unfold Spec.ask, Spec.known_session.
    rewrite Hcookie, decide_False, Hs by done. cbn.
    rewrite Hp, Hq. cbn. rewrite !decide_False by done. cbn.
    erewrite generate_answer_refines by (cbn; apply lookup_insert_eq).
    unfold Spec.answer_job. cbn. fold reply.
    destruct reply; cbn; rewrite lookup_insert_eq;
      (eexists; split; [done|]); cbn; rewrite <- app_assoc; split; done. }
  all: unfold Spec.answer_job; fold reply;
    destruct reply; cbn; rewrite ?insert_insert_eq; done.
Qed.

Lemma generate_answer_outcome_witness :
  chat_sessions (Demo.world_of Demo.loaded) !! "alice" = Some Demo.loaded
  ∧ ∃ s2,
      chat_sessions
        (final (generate_answer Demo.externals "alice" "What grew?"
                  (final (ask_question Demo.question
                            (Demo.world_of Demo.loaded))))) !! "alice"
      = Some s2
      ∧ messages s2
        = [ {| role := user; content := "What grew?" |};
            {| role := assistant; content := "<p>Revenue grew.</p>" |} ].
Proof.
  assert (chat_sessions (Demo.world_of Demo.loaded) !! "alice"
          = Some Demo.loaded) as Hs by (vm_compute; reflexivity).
  split; [exact Hs|].
  destruct (generate_answer_outcome Demo.externals _ "alice" "What grew?" _ Hs)
    as (s' & text & status & _ & _ & _ & _ & _ & _ & _ & _ & Hcase & Hreq).
  cbn in Hcase. destruct Hcase as [-> _].
  destruct (Hreq Demo.question) as (s2 & Hs2 & Hm & _);
    [reflexivity|discriminate|reflexivity|discriminate|reflexivity
    |discriminate|].
  exists s2. split; [exact Hs2|exact Hm].
Defined.

(** ** Upload handler *)

Lemma rsplit1_second sep name :
  Py.rsplit1 sep name !! 1%nat = Py.after_last sep name.
Proof. unfold Py.rsplit1. by destruct (Py.after_last sep name). Qed.

Lemma upload_file_refines ext req w :
  upload_file ext req w = Spec.upload ext req w.
Proof.
  unfold upload_file, Spec.upload, Spec.reject, Spec.dispatch_extension.
  destruct (request_file req) as [file|]; [|done].
  destruct (decide (filename file = "")); [done|].
  destruct (session_id_cookie req) as [session_id|]; [|done].
  destruct (decide (session_id = "")) as [Hsid|Hsid].
  { by rewrite (proj2 (falsy_true _) Hsid). }
  rewrite (proj2 (falsy_false _) Hsid). run.
  destruct (chat_sessions w !! session_id) as [s|] eqn:Hs; run; [|done].
  rewrite rsplit1_second.
  destruct (Py.after_last "." (secure_filename ext (filename file)))
    as [piece|]; run; cbn [fmap option_fmap option_map].
  2: { rewrite lookup_insert_eq. run. done. }
  destruct (decide (Py.lower piece = "pdf")); run.
  { destruct (file_save ext _); run; [done|].
    rewrite lookup_insert_eq. run. done. }
  destruct (bool_decide (Py.lower piece ∈ ["mp4"; "mov"; "avi"; "mkv"])); run.
  { destruct (file_save ext _); run; [done|].
    rewrite lookup_insert_eq. run. done. }
  rewrite lookup_insert_eq. run. done.
Qed.

(** ** Jobs and routes in explicit form *)

Lemma process_pdf_file_refines ext w session_id filepath s :
  chat_sessions w !! session_id = Some s →
  process_pdf_file ext session_id filepath w
  = Spec.pdf_job ext session_id filepath s w.
Proof.
  intros Hs. unfold process_pdf_file, Spec.pdf_job. run.
  destruct (process_pdf ext filepath) as [text|e]; run; rewrite Hs; run.
  - rewrite lookup_insert_eq. run. done.
  - done.
Qed.


Lemma run_job_refines ext j w s :
  chat_sessions w !! job_session j = Some s →
  run_job ext j w = Spec.job ext j s w.
Proof.
  destruct j; cbn [job_session run_job Spec.job]; intros Hs.
  - by apply process_pdf_file_refines.
  - by apply process_video_file_refines.
  - by apply generate_answer_refines.
Qed.

Lemma index_final req uuid w :
  let session_id := default uuid (session_id_cookie req) in
  final (index req uuid w)
  = if decide (session_id ∈ dom (chat_sessions w)) then w
    else with_chat_sessions
           <[session_id := {| messages := []; extracted_text := "";
                              is_processing := false; segments := None |}]> w.
Proof.
  intros session_id. unfold index. fold session_id. run.
  destruct (decide (session_id ∈ dom (chat_sessions w))); run; done.
Qed.

Lemma final_serve view w : final (serve view w) = final (view w).
Proof.
  unfold serve, try_except. run.
  by destruct (view w) as [[response|e] w' writes].
Qed.

Lemma get_status_final req w : final (get_status req w) = w.
Proof.
  unfold get_status. destruct (session_id_cookie req) as [session_id|]; [|done].
  destruct (falsy session_id); run; done.
Qed.

Lemma get_messages_final req w : final (get_messages req w) = w.
Proof.
  unfold get_messages. run.
  destruct (session_id_cookie req) as [session_id|]; [|done].
  destruct (falsy session_id); cbn [orb]; [done|].
  destruct (bool_decide _); cbn [negb]; [|done].
  run. by destruct (chat_sessions w !! session_id).
Qed.

(** ** What one transition changes *)

Lemma effect_none video visit w : effect video visit w w.
Proof. split; [by left|]. split; [by left|]. intros j Hj. by left. Qed.

Lemma effect_index req uuid w :
  effect false true w (final (index req uuid w)).
Proof.
  rewrite index_final. cbn zeta.
  destruct (decide (_ ∈ dom (chat_sessions w))) as [|Hnew];
    [apply effect_none|].
  split; [|split; [by left|intros j Hj; by left]].
  right; right. eexists. split; [done|]. split; [|done].
  by apply not_elem_of_dom.
Qed.

Lemma effect_upload ext req w :
  effect false false w (final (upload_file ext req w)).
Proof.
  rewrite upload_file_refines. unfold Spec.upload, Spec.reject.
  destruct (request_file req) as [file|]; [|apply effect_none].
  destruct (decide (filename file = "")); [apply effect_none|].
  destruct (session_id_cookie req) as [session_id|]; [|apply effect_none].
  destruct (decide (session_id = "")); [apply effect_none|].
  destruct (chat_sessions w !! session_id) as [s|] eqn:Hs; [|apply effect_none].
  assert (∀ j, j ∈ threads w → j ∈ threads w
               ∨ job_session j ∈ dom (chat_sessions w)) as Hold by (by left).
  assert (session_id ∈ dom (chat_sessions w)) as Hdom
    by (apply elem_of_dom; eauto).
  cbn zeta.
  destruct (Spec.dispatch_extension _) as [file_extension|];
    [|split; [replaced Hs|split; [status_set Hs|exact Hold]]].
  destruct (decide (file_extension = "pdf")).
  { destruct (file_save ext _);
      (split; [replaced Hs|split; [status_set Hs|]]); [|exact Hold].
    cbn. intros j [Hj| ->%list_elem_of_singleton]%elem_of_app; [by left|].
    by right. }
  destruct (bool_decide _).
  { destruct (file_save ext _);
      (split; [replaced Hs|split; [status_set Hs|]]); [|exact Hold].
    cbn. intros j [Hj| ->%list_elem_of_singleton]%elem_of_app; [by left|].
    by right. }
  split; [replaced Hs|split; [status_set Hs|exact Hold]].
Qed.

Lemma effect_ask req w : effect false false w (final (ask_question req w)).
Proof.
  rewrite ask_question_refines. unfold Spec.ask, Spec.known_session, Spec.reject.
  destruct (session_id_cookie req) as [session_id|]; [|apply effect_none].
  destruct (decide (session_id = "")); [apply effect_none|].
  destruct (chat_sessions w !! session_id) as [s|] eqn:Hs;
    cbn [fmap option_fmap option_map]; [|apply effect_none].
  destruct (is_processing s); [apply effect_none|].
  destruct (decide (default "" (json_question req) = "")); [apply effect_none|].
  destruct (decide (extracted_text s = "")); [apply effect_none|].
  split; [replaced Hs|split; [status_set Hs|]].
  cbn. intros j [Hj| ->%list_elem_of_singleton]%elem_of_app; [by left|].
  right. apply elem_of_dom. eauto.
Qed.

Lemma effect_job ext j s w :
  chat_sessions w !! job_session j = Some s →
  effect (match j with process_video_job _ _ => true | _ => false end) false
    w (final (Spec.job ext j s w)).
Proof.
  intros Hs.
  assert (∀ j, j ∈ threads w → j ∈ threads w
               ∨ job_session j ∈ dom (chat_sessions w)) as Hold by (by left).
  destruct j as [session_id filepath|session_id filepath|session_id question];
    cbn [job_session Spec.job] in *.
  - unfold Spec.pdf_job. destruct (process_pdf ext filepath);
      (split; [replaced Hs|split; [status_set Hs|exact Hold]]).
  - unfold Spec.video_job, Spec.video_failed.
    destruct (extract_audio_from_video _ _ _ _) as [[audio_path|e] fs].
    2: { split; [replaced Hs|split; [status_set Hs|exact Hold]]. }
    destruct (transcribe_audio ext audio_path) as [result|e].
    2: { split; [replaced Hs|split; [status_set Hs|exact Hold]]. }
    destruct (tr_text result) as [text|].
    2: { split; [replaced Hs|split; [status_set Hs|exact Hold]]. }
    cbn zeta. destruct (decide (audio_path ∈ fs)).
    + split; [|split; [status_set Hs|exact Hold]].
      right; left. eexists _, _, _. split; [exact Hs|].
      split; [cbn; rewrite !insert_insert_eq; reflexivity|done].
    + split; [|split; [status_set Hs|exact Hold]].
      right; left. eexists _, _, _. split; [exact Hs|].
      split; [cbn; rewrite !insert_insert_eq; reflexivity|done].
  - unfold Spec.answer_job. destruct (Spec.answer_of _);
      (split; [replaced Hs|split; [status_set Hs|exact Hold]]).
Qed.

Lemma fire_effect e w w' :
  consistent w → fire e w = Some w' →
  effect (is_video_run e) (is_index e) w w'.
Proof.
  intros [Hstatus Hthreads] Hfire.
  destruct e as [req uuid|ext req|req|req|req|ext j earlier later];
    cbn [fire is_video_run is_index] in *.
  - injection Hfire as <-. apply effect_index.
  - injection Hfire as <-. rewrite final_serve. apply effect_upload.
  - injection Hfire as <-. rewrite final_serve. apply effect_ask.
  - injection Hfire as <-. rewrite final_serve, get_status_final.
    apply effect_none.
  - injection Hfire as <-. rewrite final_serve, get_messages_final.
    apply effect_none.
  - destruct (decide (threads w = earlier ++ j :: later)) as [Hj|];
      [|discriminate].
    injection Hfire as <-.
    assert (job_session j ∈ dom (chat_sessions w)) as [s Hs]%elem_of_dom.
    { rewrite Forall_forall in Hthreads. apply Hthreads.
      rewrite Hj. apply elem_of_app. right. left. }
    rewrite (run_job_refines _ _ _ s) by exact Hs.
    destruct (effect_job ext j s (with_threads (λ _, earlier ++ later) w) Hs)
      as (Hsessions & Hstat & Hjobs).
    split; [exact Hsessions|]. split; [exact Hstat|].
    intros j' Hj'. destruct (Hjobs j' Hj') as [Hin|Hin]; [|by right].
    left. cbn in Hin. rewrite Hj.
    apply elem_of_app in Hin as [Hin|Hin]; apply elem_of_app;
      [by left|right; by right].
Qed.

Lemma effect_dom video w w' :
  effect video false w w' → dom (chat_sessions w') = dom (chat_sessions w).
Proof.
  intros ([->|[(session_id & s & s' & Hs & -> & _)|(? & [=] & _)]] & _);
    [done|].
  rewrite dom_insert_L. apply subseteq_union_1_L, singleton_subseteq_l.
  apply elem_of_dom. eauto.
Qed.

Lemma effect_dom_subseteq video visit w w' :
  effect video visit w w' → dom (chat_sessions w) ⊆ dom (chat_sessions w').
Proof.
  intros ([->|[(session_id & s & s' & Hs & -> & _)
              |(session_id & _ & _ & ->)]] & _);
    [done|rewrite dom_insert_L; apply union_subseteq_r..].
Qed.

Lemma effect_consistent video visit w w' :
  consistent w → effect video visit w w' → consistent w'.
Proof.
  intros [Hstatus Hthreads] Heffect.
  pose proof (effect_dom_subseteq _ _ _ _ Heffect) as Hdom.
  destruct Heffect as (_ & Hstat & Hjobs). split.
  - destruct Hstat as [->|(session_id & status & Hin & ->)];
      [by etrans|].
    rewrite dom_insert_L. apply union_subseteq. split; [|by etrans].
    apply singleton_subseteq_l, Hdom, Hin.
  - rewrite Forall_forall in Hthreads |- *. intros j Hj.
    destruct (Hjobs j Hj) as [Hin|Hin]; [|apply Hdom, Hin].
    apply Hdom, Hthreads, Hin.
Qed.

Lemma effect_segments_kept visit w w' :
  effect false visit w w' → Spec.segments_kept w w'.
Proof.
  intros ([Heq|[(session_id & s & s' & Hs & Heq & Hsegs)
               |(session_id & _ & Hnew & Heq)]] & _) other s2;
    rewrite Heq.
  - by intros ->.
  - destruct (decide (session_id = other)) as [<-|].
    + rewrite lookup_insert_eq, Hs. intros [= <-]. cbn. by apply Hsegs.
    + rewrite lookup_insert_ne by done. by intros ->.
  - destruct (decide (session_id = other)) as [<-|].
    + rewrite lookup_insert_eq, Hnew. by intros [= <-].
    + rewrite lookup_insert_ne by done. by intros ->.
Qed.

Lemma initial_consistent : consistent initial_world.
Proof.
  split; [|apply Forall_nil; done].
  cbn. rewrite dom_empty_L. apply empty_subseteq.
Qed.

Lemma reachable_consistent w : reachable w → consistent w.
Proof.
  unfold reachable. revert w.
  apply rtc_ind_r; [apply initial_consistent|].
  intros w1 w2 _ [e Hfire] IH.
  eapply effect_consistent; [exact IH|]. by eapply fire_effect.
Qed.

(** ** Status route *)

(** C9. In every reachable world the status route answers 400 exactly when
    the request has no session token (none, or an empty one); it writes
    nothing; and for a token that is present but not a key of the session
    store it answers 200 with the status "Ready" and [is_processing]
    false. *)
Theorem get_status_unknown_session w req :
  reachable w →
  let r := get_status req w in
  final r = w
  ∧ trace r = []
  ∧ ∃ response,
      outcome r = Return response
      ∧ (status_code response = 400 ↔
         session_id_cookie req = None ∨ session_id_cookie req = Some "")
      ∧ (status_code response = 400 ∨ status_code response = 200)
      ∧ ∀ session_id,
          session_id_cookie req = Some session_id →
          session_id ≠ "" →
          chat_sessions w !! session_id = None →
          response = jsonify (status_body "Ready" false).
Proof.
  intros [Hstatus _]%reachable_consistent r. subst r. unfold get_status.
  destruct (session_id_cookie req) as [session_id|].
  2: { run. split_and!; try done. eexists. split_and!; try done.
       - split; [tauto|done].
       - by left. }
  destruct (decide (session_id = "")) as [->|Hne].
  { rewrite (proj2 (falsy_true "") eq_refl). run. split_and!; try done.
    eexists. split_and!; try done.
    - split; [tauto|done].
    - by left.
    - intros ? [= <-]. done. }
  rewrite (proj2 (falsy_false _) Hne). run. split_and!; try done.
  eexists. split_and!; try done.
  - split; [done|]. intros [[=]|[= ->]]. done.
  - by right.
  - intros ? [= <-] _ Hs. rewrite Hs.
    assert (processing_status w !! session_id = None) as ->; [|done].
    apply not_elem_of_dom. intros Hin%Hstatus.
    by apply not_elem_of_dom in Hs.
Qed.

Lemma get_status_unknown_session_witness :
  reachable initial_world
  ∧ outcome (get_status Demo.stale_upload initial_world)
    = Return (jsonify (status_body "Ready" false)).
Proof.
  assert (reachable initial_world) as Hreach by apply rtc_refl.
  split; [exact Hreach|].
  destruct (get_status_unknown_session initial_world Demo.stale_upload Hreach)
    as (_ & _ & response & -> & _ & _ & Hready).
  f_equal. apply (Hready "ghost"); [reflexivity|discriminate|reflexivity].
Defined.

(** ** Upload route *)

(** C10. An upload with a file and a non-empty token that is not a key of
    the session store raises [KeyError] at its first write: nothing is
    written, no file is saved, and Flask answers 500. With a token that is
    a key of the store the handler returns a response. Visiting the index
    route with the token registers it, and in a reachable world no other
    event changes the set of registered tokens. *)
Theorem upload_unknown_session ext w req file session_id :
  request_file req = Some file →
  filename file ≠ "" →
  session_id_cookie req = Some session_id →
  session_id ≠ "" →
  (chat_sessions w !! session_id = None →
   upload_file ext req w = MkRun (Raise (KeyError session_id)) w []
   ∧ serve (upload_file ext req) w = MkRun (Return internal_server_error) w []
   ∧ status_code internal_server_error = 500)
  ∧ (is_Some (chat_sessions w !! session_id) →
     ∃ response, outcome (upload_file ext req w) = Return response)
  ∧ (∀ uuid, session_id ∈ dom (chat_sessions (final (index req uuid w))))
  ∧ (reachable w →
     ∀ e w', is_index e = false → fire e w = Some w' →
             dom (chat_sessions w') = dom (chat_sessions w)).
Proof.
  intros Hfile Hname Hcookie Hne. split_and!.
  - intros Hs. unfold serve, try_except. rewrite upload_file_refines.
    unfold Spec.upload. rewrite Hfile, Hcookie, Hs, !decide_False by done.
    done.
  - intros [s Hs]. rewrite upload_file_refines.
    unfold Spec.upload. rewrite Hfile, Hcookie, Hs, !decide_False by done.
    cbn zeta. destruct (Spec.dispatch_extension _); [|by eexists].
    repeat case_match; by eexists.
  - intros uuid. rewrite index_final, Hcookie. cbn.
    case_decide; [done|]. cbn. rewrite dom_insert_L.
    apply elem_of_union_l, elem_of_singleton. done.
  - intros Hreach%reachable_consistent e w' He Hfire.
    eapply effect_dom. rewrite <- He. by apply fire_effect.
Qed.

Lemma upload_unknown_session_witness :
  request_file Demo.stale_upload = Some {| filename := "report.pdf" |}
  ∧ session_id_cookie Demo.stale_upload = Some "ghost"
  ∧ outcome (serve (upload_file Demo.externals Demo.stale_upload)
               (Demo.world_of Demo.loaded))
    = Return internal_server_error
  ∧ final (serve (upload_file Demo.externals Demo.stale_upload)
             (Demo.world_of Demo.loaded))
    = Demo.world_of Demo.loaded.
Proof.
  split; [reflexivity|]. split; [reflexivity|].
  destruct (upload_unknown_session Demo.externals (Demo.world_of Demo.loaded)
              Demo.stale_upload {| filename := "report.pdf" |} "ghost")
    as (Hunknown & _); [reflexivity|discriminate|reflexivity|discriminate|].
  destruct Hunknown as (_ & -> & _); [vm_compute; reflexivity|].
  split; reflexivity.
Defined.

(** C2, as the specification states it, fails: an upload of "notes.txt"
    for a known session passes through worlds in which [is_processing] is
    true, although "txt" is not a supported extension. *)
Lemma upload_unsupported_never_processing_counterexample :
  Spec.dispatch_extension (secure_filename Demo.externals "notes.txt")
  = Some "txt"
  ∧ ("txt" ∉ Spec.supported)
  ∧ ¬ Spec.never_processing "alice"
        (upload_file Demo.externals Demo.text_upload
           (Demo.world_of Demo.fresh)).
Proof.
  split; [vm_compute; reflexivity|].
  split; [apply (bool_decide_unpack _); vm_compute; exact I|].
  intros Hnever.
  assert (is_processing Demo.uploading = false) as Hflag; [|discriminate].
  apply (Hnever (with_chat_sessions <["alice" := Demo.uploading]>
                   (Demo.world_of Demo.fresh))).
  - apply list_elem_of_lookup. exists 0%nat. vm_compute. reflexivity.
  - vm_compute. reflexivity.
Qed.

(** C2, amended. An upload with a file, a non-empty token of a known
    session, and a sanitized name whose extension is not one of pdf, mp4,
    mov, avi, mkv is answered 400 "Unsupported file type"; no file is saved
    and no thread is started; the handler first sets [is_processing], then
    the status, and clears [is_processing] again in its last write, so the
    flag is false when it returns. *)
Theorem upload_unsupported_extension ext w req file session_id s file_extension :
  request_file req = Some file →
  filename file ≠ "" →
  session_id_cookie req = Some session_id →
  session_id ≠ "" →
  chat_sessions w !! session_id = Some s →
  Spec.dispatch_extension (secure_filename ext (filename file))
  = Some file_extension →
  file_extension ∉ Spec.supported →
  let r := upload_file ext req w in
  outcome r = Return (jsonify_code (error_body "Unsupported file type") 400)
  ∧ chat_sessions (final r)
    = <[session_id := set_is_processing false s]> (chat_sessions w)
  ∧ files (final r) = files w
  ∧ threads (final r) = threads w
  ∧ ∃ w1 w2,
      trace r = [w1; w2; final r]
      ∧ chat_sessions w1 !! session_id = Some (set_is_processing true s)
      ∧ chat_sessions w2 !! session_id = Some (set_is_processing true s).
Proof.
  intros Hfile Hname Hcookie Hne Hs Hext Hunsupported r. subst r.
  rewrite upload_file_refines. unfold Spec.upload.
  rewrite Hfile, Hcookie, Hs, !decide_False by done. cbn zeta.
  rewrite Hext.
  assert (file_extension ≠ "pdf") as Hpdf.
  { intros ->. apply Hunsupported. left. }
  assert (file_extension ∉ ["mp4"; "mov"; "avi"; "mkv"]) as Hvideo.
  { intros Hin. apply Hunsupported. by right. }
  rewrite decide_False, bool_decide_eq_false_2 by done. cbn.
  split_and!; try done.
  - by rewrite insert_insert_eq.
  - eexists _, _. split; [done|]. cbn. by rewrite !lookup_insert_eq.
Qed.

Lemma upload_unsupported_extension_witness :
  chat_sessions (Demo.world_of Demo.fresh) !! "alice" = Some Demo.fresh
  ∧ ("txt" ∉ Spec.supported)
  ∧ outcome (upload_file Demo.externals Demo.text_upload
               (Demo.world_of Demo.fresh))
    = Return (jsonify_code (error_body "Unsupported file type") 400).
Proof.
  assert (chat_sessions (Demo.world_of Demo.fresh) !! "alice"
          = Some Demo.fresh) as Hs by (vm_compute; reflexivity).
  assert ("txt" ∉ Spec.supported) as Hunsupported
    by (apply (bool_decide_unpack _); vm_compute; exact I).
  split; [exact Hs|]. split; [exact Hunsupported|].
  destruct (upload_unsupported_extension Demo.externals
              (Demo.world_of Demo.fresh) Demo.text_upload
              {| filename := "notes.txt" |} "alice" Demo.fresh "txt")
    as (Hout & _);
    [reflexivity|discriminate|reflexivity|discriminate|exact Hs
    |vm_compute; reflexivity|exact Hunsupported|].
  exact Hout.
Defined.

(** ** Segments *)

(** C7, as the specification states it, fails: after a visit, a video
    upload and its job, and a PDF upload, running the PDF job leaves the
    session with the video's segments. *)
Lemma pdf_upload_keeps_segments_counterexample :
  ∃ w,
    Demo.after Demo.video_then_pdf initial_world = Some w
    ∧ threads w = [process_pdf_job "alice" "uploads/pdf/report.pdf"]
    ∧ ¬ Spec.no_segments_after_pdf Demo.externals "alice"
          "uploads/pdf/report.pdf" w.
Proof.
  eexists. split; [vm_compute; reflexivity|].
  split; [vm_compute; reflexivity|].
  intros Hnone.
  assert (Some Spec.example_segments = None) as Habs; [|discriminate].
  apply (Hnone {| messages := []; extracted_text := "Quarterly report";
                  is_processing := false;
                  segments := Some Spec.example_segments |}).
  vm_compute. reflexivity.
Qed.

Lemma step_reachable w w' : reachable w → step w w' → reachable w'.
Proof. intros Hreach Hstep. by eapply rtc_r. Qed.

Lemma after_steps events w w' :
  Demo.after events w = Some w' → rtc step w w'.
Proof.
  unfold Demo.after. revert w.
  induction events as [|e events IH]; intros w; cbn.
  - by intros [= <-].
  - destruct (fire e w) as [w1|] eqn:Hfire.
    + intros Hrest. eapply rtc_l; [by exists e|by apply IH].
    + intros Hnone. exfalso. clear -Hnone.
      induction events as [|e' events IH]; [done|]. by apply IH.
Qed.

Lemma after_reachable events w w' :
  reachable w → Demo.after events w = Some w' → reachable w'.
Proof.
  intros Hreach Hafter. unfold reachable.
  etrans; [exact Hreach|]. by eapply after_steps.
Qed.

Lemma replaced_segments_kept session_id s s' w w' :
  chat_sessions w !! session_id = Some s →
  chat_sessions w' = <[session_id := s']> (chat_sessions w) →
  segments s' = segments s →
  Spec.segments_kept w w'.
Proof.
  intros Hs Hw' Hsegs other t. rewrite Hw'.
  destruct (decide (session_id = other)) as [<-|Hne].
  - rewrite lookup_insert_eq, Hs. by intros [= <-].
  - rewrite lookup_insert_ne by done. by intros ->.
Qed.

(** An event keeps the segments of every session, unless it is the run of
    a video job that got its transcript. *)
Lemma fire_segments e w w' :
  reachable w →
  fire e w = Some w' →
  Spec.segments_kept w w'
  ∨ ∃ ext session_id filepath earlier later text segs s',
      e = thread_runs ext (process_video_job session_id filepath) earlier later
      ∧ Spec.video_result ext filepath w = Some (text, segs)
      ∧ chat_sessions w' = <[session_id := s']> (chat_sessions w)
      ∧ extracted_text s' = text
      ∧ segments s' = Some segs.
Proof.
  intros Hreach Hfire.
  pose proof (reachable_consistent _ Hreach) as Hcons.
  destruct (is_video_run e) eqn:Hvideo.
  2: { left. apply (effect_segments_kept (is_index e)).
       rewrite <- Hvideo. by apply fire_effect. }
  destruct e as [| | | | |ext [|session_id filepath|] earlier later];
    try discriminate Hvideo.
  cbn [fire] in Hfire. case_decide as Hthreads; [|discriminate].
  injection Hfire as <-. cbn [run_job].
  assert (session_id ∈ dom (chat_sessions w)) as [s Hs]%elem_of_dom.
  { destruct Hcons as [_ Hjobs]. rewrite Forall_forall in Hjobs.
    apply (Hjobs (process_video_job session_id filepath)).
    rewrite Hthreads. apply elem_of_app. right. left. }
  rewrite (process_video_file_refines _ _ _ _ s) by exact Hs.
  unfold Spec.video_job, Spec.video_failed. cbn [files with_threads].
  destruct (extract_audio_from_video ext filepath (UPLOAD_FOLDER_TEMP ext)
              (files w)) as [[audio_path|e] fs] eqn:Haudio.
  2: { left. eapply replaced_segments_kept; [exact Hs|done|done]. }
  destruct (transcribe_audio ext audio_path) as [result|e] eqn:Hresult.
  2: { left. eapply replaced_segments_kept; [exact Hs|done|done]. }
  destruct (tr_text result) as [text|] eqn:Htext.
  2: { left. eapply replaced_segments_kept; [exact Hs|done|done]. }
  right. cbn zeta.
  eexists ext, session_id, filepath, earlier, later, text,
    (default [] (tr_segments result)), _.
  split; [reflexivity|]. split.
  { unfold Spec.video_result. by rewrite Haudio, Hresult, Htext. }
  destruct (decide (audio_path ∈ fs)); cbn; rewrite !insert_insert_eq;
    split_and!; reflexivity.
Qed.

(** C7, amended. In a reachable world, an event changes the segments of a
    session only if it is the run of a video job of that session whose
    audio extraction, transcription and reading of the transcript's text
    succeeded, and then the session holds the transcript's text and
    segments (none given: the empty list). Every other event, the run of
    a video job that fails before that included, leaves the segments of
    every session as they were, and a session that an event creates has
    none. The run of a PDF job keeps the session's segments and, when
    extraction succeeds, replaces the extracted text by the extractor's
    result. *)
Theorem segments_written_only_by_video_job e w w' :
  reachable w →
  fire e w = Some w' →
  (∀ session_id s',
     chat_sessions w' !! session_id = Some s' →
     segments s' ≠ chat_sessions w !! session_id ≫= segments →
     ∃ ext filepath earlier later text segs,
       e = thread_runs ext (process_video_job session_id filepath)
             earlier later
       ∧ Spec.video_result ext filepath w = Some (text, segs)
       ∧ extracted_text s' = text
       ∧ segments s' = Some segs)
  ∧ (is_video_run e = false → Spec.segments_kept w w')
  ∧ (∀ ext session_id filepath earlier later,
       e = thread_runs ext (process_video_job session_id filepath)
             earlier later →
       Spec.video_result ext filepath w = None →
       Spec.segments_kept w w')
  ∧ (∀ ext session_id filepath earlier later s,
       e = thread_runs ext (process_pdf_job session_id filepath) earlier later →
       chat_sessions w !! session_id = Some s →
       ∃ s',
         chat_sessions w' !! session_id = Some s'
         ∧ segments s' = segments s
         ∧ ∀ text, process_pdf ext filepath = Return text →
                   extracted_text s' = text)
  ∧ (∀ ext session_id filepath earlier later audio_path fs result text,
       e = thread_runs ext (process_video_job session_id filepath)
             earlier later →
       extract_audio_from_video ext filepath (UPLOAD_FOLDER_TEMP ext) (files w)
       = (Return audio_path, fs) →
       transcribe_audio ext audio_path = Return result →
       tr_text result = Some text →
       ∃ s',
         chat_sessions w' !! session_id = Some s'
         ∧ extracted_text s' = text
         ∧ segments s' = Some (default [] (tr_segments result))).
Proof.
  intros Hreach Hfire.
  pose proof (reachable_consistent _ Hreach) as Hcons. split_and!.
  - intros session_id s' Hs' Hchanged.
    destruct (fire_segments e w w' Hreach Hfire)
      as [Hkept|(ext & token & filepath & earlier & later & text & segs & t
                 & -> & Hresult & Hw' & Htext & Hsegs)].
    { destruct Hchanged. by apply Hkept. }
    rewrite Hw' in Hs'.
    destruct (decide (token = session_id)) as [->|Hother].
    + rewrite lookup_insert_eq in Hs'. injection Hs' as <-.
      by eexists ext, filepath, earlier, later, text, segs.
    + rewrite lookup_insert_ne in Hs' by done.
      destruct Hchanged. by rewrite Hs'.
  - intros Hvideo. apply (effect_segments_kept (is_index e)).
    rewrite <- Hvideo. by apply fire_effect.
  - intros ext session_id filepath earlier later -> Hnone.
    destruct (fire_segments _ w w' Hreach Hfire)
      as [Hkept|(ext' & token & filepath' & earlier' & later' & text & segs & t
                 & [= <- <- <- <- <-] & Hresult & _)]; [done|congruence].
  - intros ext session_id filepath earlier later s -> Hs.
    cbn [fire] in Hfire. case_decide; [|discriminate].
    injection Hfire as <-. cbn [run_job].
    rewrite (process_pdf_file_refines _ _ _ _ s) by exact Hs.
    unfold Spec.pdf_job.
    destruct (process_pdf ext filepath) as [text|e]; cbn;
      rewrite lookup_insert_eq; (eexists; split; [done|]); (split; [done|]).
    + by intros ? [= <-].
    + by intros ? [=].
  - intros ext session_id filepath earlier later audio_path fs result text
      -> Haudio Hresult Htext.
    cbn [fire] in Hfire. case_decide as Hthreads; [|discriminate].
    injection Hfire as <-. cbn [run_job].
    assert (session_id ∈ dom (chat_sessions w)) as [s Hs]%elem_of_dom.
    { destruct Hcons as [_ Hjobs]. rewrite Forall_forall in Hjobs.
      apply (Hjobs (process_video_job session_id filepath)).
      rewrite Hthreads. apply elem_of_app. right. left. }
    rewrite (process_video_file_refines _ _ _ _ s) by exact Hs.
    unfold Spec.video_job, Spec.video_failed. cbn [files with_threads].
    rewrite Haudio, Hresult, Htext. cbn zeta.
    case_decide; cbn; rewrite lookup_insert_eq; by eexists.
Qed.

Lemma segments_written_only_by_video_job_witness :
  reachable (Demo.world_after Lifecycle.video_uploaded)
  ∧ fire (Lifecycle.video_run Demo.externals)
      (Demo.world_after Lifecycle.video_uploaded)
    = Some (Demo.world_after
              (Lifecycle.video_uploaded
               ++ [Lifecycle.video_run Demo.externals]))
  ∧ (∃ s',
       chat_sessions
         (Demo.world_after
            (Lifecycle.video_uploaded ++ [Lifecycle.video_run Demo.externals]))
         !! "alice" = Some s'
       ∧ extracted_text s' = "hello and welcome"
       ∧ segments s' = Some Spec.example_segments)
  ∧ fire (Lifecycle.video_run Demo.failing)
      (Demo.world_after Lifecycle.video_uploaded)
    = Some (Demo.world_after
              (Lifecycle.video_uploaded ++ [Lifecycle.video_run Demo.failing]))
  ∧ Spec.segments_kept (Demo.world_after Lifecycle.video_uploaded)
      (Demo.world_after
         (Lifecycle.video_uploaded ++ [Lifecycle.video_run Demo.failing]))
  ∧ reachable (Demo.world_after Demo.video_then_pdf)
  ∧ fire Lifecycle.pdf_run (Demo.world_after Demo.video_then_pdf)
    = Some (Demo.world_after (Demo.video_then_pdf ++ [Lifecycle.pdf_run]))
  ∧ ∃ s',
      chat_sessions
        (Demo.world_after (Demo.video_then_pdf ++ [Lifecycle.pdf_run]))
        !! "alice" = Some s'
      ∧ segments s' = Some Spec.example_segments
      ∧ extracted_text s' = "Quarterly report".
Proof.
  assert (reachable (Demo.world_after Lifecycle.video_uploaded)) as Hvideo.
  { apply (after_reachable Lifecycle.video_uploaded initial_world);
      [apply rtc_refl|vm_compute; reflexivity]. }
  assert (reachable (Demo.world_after Demo.video_then_pdf)) as Hpdf.
  { apply (after_reachable Demo.video_then_pdf initial_world);
      [apply rtc_refl|vm_compute; reflexivity]. }
  assert (fire (Lifecycle.video_run Demo.externals)
            (Demo.world_after Lifecycle.video_uploaded)
          = Some (Demo.world_after
                    (Lifecycle.video_uploaded
                     ++ [Lifecycle.video_run Demo.externals]))) as Hrun
    by (vm_compute; reflexivity).
  assert (fire (Lifecycle.video_run Demo.failing)
            (Demo.world_after Lifecycle.video_uploaded)
          = Some (Demo.world_after
                    (Lifecycle.video_uploaded
                     ++ [Lifecycle.video_run Demo.failing]))) as Hfailed
    by (vm_compute; reflexivity).
  assert (fire Lifecycle.pdf_run (Demo.world_after Demo.video_then_pdf)
          = Some (Demo.world_after (Demo.video_then_pdf ++ [Lifecycle.pdf_run])))
    as Hjob by (vm_compute; reflexivity).
  split; [exact Hvideo|]. split; [exact Hrun|]. split.
  { destruct (segments_written_only_by_video_job _ _ _ Hvideo Hrun)
      as (_ & _ & _ & _ & Hstored).
    eapply (Hstored Demo.externals "alice" "uploads/video/talk.mp4" [] []
              "uploads/temp/audio.wav" _ Demo.transcript "hello and welcome");
      reflexivity. }
  split; [exact Hfailed|]. split.
  { destruct (segments_written_only_by_video_job _ _ _ Hvideo Hfailed)
      as (_ & _ & Hkept & _).
    apply (Hkept Demo.failing "alice" "uploads/video/talk.mp4" [] []);
      [reflexivity|vm_compute; reflexivity]. }
  split; [exact Hpdf|]. split; [exact Hjob|].
  destruct (segments_written_only_by_video_job _ _ _ Hpdf Hjob)
    as (_ & _ & _ & Hkept & _).
  destruct (Hkept Demo.externals "alice" "uploads/pdf/report.pdf" [] []
              {| messages := []; extracted_text := "hello and welcome";
                 is_processing := true;
                 segments := Some Spec.example_segments |})
    as (s' & Hs' & Hsegs & Htext); [reflexivity|vm_compute; reflexivity|].
  exists s'. split; [exact Hs'|]. split; [exact Hsegs|].
  apply Htext. reflexivity.
Defined.

(** ** The sanitizer and the extension *)

Lemma append_cons c s t : String c s +:+ t = String c (s +:+ t).
Proof. reflexivity. Qed.

Lemma list_ascii_of_string_app s t :
  String.list_ascii_of_string (s +:+ t)
  = String.list_ascii_of_string s ++ String.list_ascii_of_string t.
Proof.
  induction s as [|c s IH]; [done|].
  rewrite append_cons. cbn. by rewrite IH.
Qed.

Lemma string_of_list_ascii_app l k :
  String.string_of_list_ascii (l ++ k)
  = String.string_of_list_ascii l +:+ String.string_of_list_ascii k.
Proof.
  induction l as [|c l IH]; [done|].
  cbn. by rewrite IH.
Qed.

Lemma after_last_None sep s :
  Py.after_last sep s = None ↔ sep ∉ String.list_ascii_of_string s.
Proof.
  induction s as [|c s IH]; cbn.
  - split; [intros _ Hin; inversion Hin|done].
  - destruct (Py.after_last sep s) as [t|].
    + split; [done|]. intros Hnot. exfalso.
      assert (sep ∉ String.list_ascii_of_string s) as Hs
        by (intros Hin; apply Hnot; by right).
      apply IH in Hs. done.
    + destruct (decide (c = sep)) as [->|Hne].
      * split; [done|]. intros Hnot. exfalso. apply Hnot. left.
      * split; [|done]. intros _ [->|Hin]%elem_of_cons; [done|].
        by apply (proj1 IH).
Qed.

Lemma after_last_app sep b t :
  Py.after_last sep t = None →
  Py.after_last sep (b +:+ String sep t) = Some t.
Proof.
  intros Ht. induction b as [|c b IH].
  - change ("" +:+ String sep t) with (String sep t). cbn.
    rewrite Ht. by rewrite decide_True.
  - rewrite append_cons. cbn. by rewrite IH.
Qed.

Lemma after_last_Some sep s t :
  Py.after_last sep s = Some t →
  ∃ b, s = b +:+ String sep t ∧ Py.after_last sep t = None.
Proof.
  revert t. induction s as [|c s IH]; intros t; cbn; [done|].
  destruct (Py.after_last sep s) as [t'|] eqn:Hs.
  - intros [= <-]. destruct (IH t' eq_refl) as (b & -> & Hnone).
    exists (String c b). done.
  - destruct (decide (c = sep)) as [->|]; [|done].
    intros [= <-]. exists "". done.
Qed.

Lemma is_plain_facts c :
  Werkzeug.is_plain c = true →
  Werkzeug.is_ascii c = true ∧ Werkzeug.is_space c = false
  ∧ Werkzeug.is_kept c = true ∧ Werkzeug.is_stripped c = false
  ∧ Werkzeug.replace_sep c = c ∧ c ≠ "."%char.
Proof.
  destruct c as [[] [] [] [] [] [] [] []]; vm_compute; intros Hc;
    try discriminate Hc; repeat split; discriminate.
Qed.

Lemma filter_all {A} (P : A → Prop) `{∀ x, Decision (P x)} (l : list A) :
  Forall P l → filter P l = l.
Proof.
  induction 1 as [|x l Hx _ IH]; [done|].
  by rewrite filter_cons_True, IH.
Qed.

Lemma join_cons sep p rest :
  rest ≠ [] →
  Werkzeug.join sep (p :: rest) = p ++ sep ++ Werkzeug.join sep rest.
Proof. by destruct rest. Qed.

Lemma split_go_word word tail :
  Forall (λ c, Werkzeug.is_space c = false) tail →
  word ++ tail ≠ [] →
  Werkzeug.split_go word tail = [word ++ tail].
Proof.
  revert word. induction tail as [|c tail IH]; intros word Htail Hne; cbn.
  - rewrite app_nil_r in *. by destruct word.
  - apply Forall_cons in Htail as [-> Htail].
    rewrite IH; [by rewrite <- app_assoc|done|].
    rewrite <- app_assoc. done.
Qed.

(** Splitting on white space and joining with underscores keeps a final
    run of non-space characters as it is. *)
Lemma join_split_tail word l tail :
  tail ≠ [] →
  Forall (λ c, Werkzeug.is_space c = false) tail →
  ∃ front, Werkzeug.join ["_"%char] (Werkzeug.split_go word (l ++ tail))
           = front ++ tail.
Proof.
  intros Hne Htail. revert word.
  induction l as [|c l IH]; intros word.
  - exists word. cbn [app]. rewrite split_go_word; [done|done|].
    intros [_ ?]%app_eq_nil. done.
  - cbn. destruct (Werkzeug.is_space c); [|apply IH].
    destruct (IH []) as (front & Hfront).
    destruct word as [|c' word]; [by exists front|].
    exists ((c' :: word) ++ ["_"%char] ++ front).
    rewrite join_cons, Hfront.
    + by rewrite <- !app_assoc.
    + intros Hnil. rewrite Hnil in Hfront. cbn in Hfront.
      symmetry in Hfront. apply app_eq_nil in Hfront as [_ ?]. done.
Qed.

Lemma lstrip_tail front tail :
  (∃ c rest, tail = c :: rest ∧ Werkzeug.is_stripped c = false) →
  Werkzeug.lstrip (front ++ "."%char :: tail) = tail
  ∨ ∃ stem, stem ≠ [] ∧ Werkzeug.lstrip (front ++ "."%char :: tail)
                         = stem ++ "."%char :: tail.
Proof.
  intros (c & rest & -> & Hc).
  induction front as [|d front IH]; cbn.
  - left. by rewrite Hc.
  - destruct (Werkzeug.is_stripped d); [exact IH|].
    right. by exists (d :: front).
Qed.

Lemma rstrip_tail front c :
  Werkzeug.is_stripped c = false →
  Werkzeug.rstrip (front ++ [c]) = front ++ [c].
Proof.
  intros Hc. unfold Werkzeug.rstrip.
  rewrite rev_app_distr. cbn. rewrite Hc.
  change (c :: rev front) with (rev [c] ++ rev front).
  by rewrite <- rev_app_distr, rev_involutive.
Qed.

Lemma plain_last tail :
  tail ≠ [] →
  Forall (λ c, Werkzeug.is_plain c = true) tail →
  ∃ body c, tail = body ++ [c] ∧ Werkzeug.is_stripped c = false.
Proof.
  destruct tail as [|c body _] using rev_ind; [done|].
  intros _ [_ Hc]%Forall_app. exists body, c. split; [done|].
  apply is_plain_facts. by apply Forall_cons in Hc as [? _].
Qed.

(** The sanitizer keeps a plain extension: the sanitized name is the
    extension alone (the rest of the name was stripped away) or a
    non-empty stem, a dot, and the extension. *)
Lemma sanitize_plain_extension front tail :
  tail ≠ [] →
  Forall (λ c, Werkzeug.is_plain c = true) tail →
  Werkzeug.sanitize (front ++ "."%char :: tail) = tail
  ∨ ∃ stem, stem ≠ []
            ∧ Werkzeug.sanitize (front ++ "."%char :: tail)
              = stem ++ "."%char :: tail.
Proof.
  intros Hne Hplain. unfold Werkzeug.sanitize, Werkzeug.split.
  assert (Forall (λ c, Werkzeug.is_ascii c = true ∧ Werkzeug.is_space c = false
                       ∧ Werkzeug.is_kept c = true
                       ∧ Werkzeug.replace_sep c = c) ("."%char :: tail))
    as Hdot.
  { apply Forall_cons. split; [by vm_compute|].
    eapply Forall_impl; [exact Hplain|]. intros c Hc.
    by destruct (is_plain_facts c Hc) as (? & ? & ? & _ & ? & _). }
  rewrite fmap_app.
  assert (Werkzeug.replace_sep <$> "."%char :: tail = "."%char :: tail) as ->.
  { clear -Hdot. induction Hdot as [|c l (_ & _ & _ & Hc) _ IH]; [done|].
    cbn. by rewrite Hc, IH. }
  destruct (join_split_tail [] (Werkzeug.replace_sep <$> front)
              ("."%char :: tail)) as (joined & ->); [done| |].
  { eapply Forall_impl; [exact Hdot|]. by intros c (_ & ? & _). }
  rewrite filter_app.
  rewrite (filter_all _ ("."%char :: tail)).
  2: { eapply Forall_impl; [exact Hdot|]. by intros c (_ & _ & ? & _). }
  unfold Werkzeug.strip.
  assert (∃ body c, tail = body ++ [c] ∧ Werkzeug.is_stripped c = false)
    as (body & c & Hbody & Hc).
  { by apply plain_last. }
  assert (∃ c rest, tail = c :: rest ∧ Werkzeug.is_stripped c = false)
    as Hhead.
  { destruct tail as [|d rest]; [done|]. exists d, rest. split; [done|].
    apply is_plain_facts. by apply Forall_cons in Hplain as [? _]. }
  destruct (lstrip_tail (filter (λ c, Werkzeug.is_kept c = true) joined)
              tail Hhead) as [->|(stem & Hstem & ->)].
  - left. rewrite Hbody. by apply rstrip_tail.
  - right. exists stem. split; [done|].
    rewrite Hbody.
    change (stem ++ "."%char :: body ++ [c])
      with (stem ++ ("."%char :: body) ++ [c]).
    rewrite app_assoc. by apply rstrip_tail.
Qed.

Lemma plain_no_dot e :
  Forall (λ c, Werkzeug.is_plain c = true) (String.list_ascii_of_string e) →
  Py.after_last "." e = None.
Proof.
  intros Hplain. apply after_last_None. intros Hin.
  rewrite Forall_forall in Hplain.
  by destruct (is_plain_facts _ (Hplain _ Hin)) as (_ & _ & _ & _ & _ & ?).
Qed.

Lemma nfkd_acute_cons c rest :
  Werkzeug.is_ascii c = true →
  Lifecycle.nfkd_acute (String c rest) = String c (Lifecycle.nfkd_acute rest).
Proof.
  intros Hc. cbn [Lifecycle.nfkd_acute]. destruct rest as [|d rest]; [done|].
  rewrite decide_False; [done|]. intros [-> _]. by vm_compute in Hc.
Qed.

Lemma nfkd_acute_ascii tail :
  Forall (λ c, Werkzeug.is_ascii c = true) (String.list_ascii_of_string tail) →
  Lifecycle.nfkd_acute tail = tail.
Proof.
  induction tail as [|c tail IH]; [done|].
  intros [Hc Htail]%Forall_cons. by rewrite nfkd_acute_cons, IH.
Qed.

Lemma nfkd_acute_step c d rest :
  Lifecycle.nfkd_acute (String c (String d rest))
  = if decide (c = "195"%char ∧ d = "169"%char) then
      String "e" (String "204" (String "129" (Lifecycle.nfkd_acute rest)))
    else String c (Lifecycle.nfkd_acute (String d rest)).
Proof. reflexivity. Qed.

(** The normalisation of the examples leaves ASCII text as it is. *)
Lemma nfkd_acute_inert : Werkzeug.ascii_inert Lifecycle.nfkd_acute.
Proof.
  split; [done|]. intros front tail Htail.
  assert (∀ n front, (String.length front ≤ n)%nat →
            Lifecycle.nfkd_acute (front +:+ tail)
            = Lifecycle.nfkd_acute front +:+ tail) as Hall; [|by eapply Hall].
  clear front. induction n as [|n IH]; intros front Hlen.
  { destruct front; [|cbn in Hlen; lia].
    change ("" +:+ tail) with tail. by rewrite (nfkd_acute_ascii tail). }
  destruct front as [|c [|d front]].
  - change ("" +:+ tail) with tail. by rewrite (nfkd_acute_ascii tail).
  - change (String c "" +:+ tail) with (String c tail).
    destruct tail as [|t tail]; [done|].
    apply Forall_cons in Htail as Hhead. destruct Hhead as [Ht _].
    rewrite nfkd_acute_step.
    rewrite decide_False by (intros [_ ->]; by vm_compute in Ht).
    rewrite (nfkd_acute_ascii (String t tail)) by done. done.
  - change (String c (String d front) +:+ tail)
      with (String c (String d (front +:+ tail))).
    rewrite !nfkd_acute_step. cbn in Hlen. case_decide.
    + rewrite (IH front) by lia. done.
    + change (String d (front +:+ tail)) with (String d front +:+ tail).
      rewrite (IH (String d front)) by (cbn; lia). done.
Qed.

(** Encoding keeps ASCII text. *)
Lemma encode_ascii_ignore_app front tail :
  Forall (λ c, Werkzeug.is_ascii c = true) (String.list_ascii_of_string tail) →
  Werkzeug.encode_ascii_ignore (front +:+ tail)
  = Werkzeug.encode_ascii_ignore front ++ String.list_ascii_of_string tail.
Proof.
  intros Htail. unfold Werkzeug.encode_ascii_ignore.
  by rewrite list_ascii_of_string_app, filter_app, (filter_all _ _ Htail).
Qed.

Lemma secure_filename_plain_extension nfkd name e :
  Werkzeug.ascii_inert nfkd →
  Py.after_last "." name = Some e →
  Spec.plain_extension e →
  Werkzeug.secure_filename nfkd name = e
  ∨ ∃ stem, stem ≠ ""
            ∧ Werkzeug.secure_filename nfkd name = stem +:+ String "." e.
Proof.
  intros [_ Hinert] (front & -> & _)%after_last_Some [Hne Hplain].
  assert (Forall (λ c, Werkzeug.is_ascii c = true)
            (String.list_ascii_of_string (String "." e))) as Hascii.
  { apply Forall_cons. split; [by vm_compute|].
    eapply Forall_impl; [exact Hplain|]. intros c Hc.
    by destruct (is_plain_facts c Hc) as (? & _). }
  unfold Werkzeug.secure_filename.
  rewrite (Hinert front _ Hascii), (encode_ascii_ignore_app _ _ Hascii). cbn.
  destruct (sanitize_plain_extension (Werkzeug.encode_ascii_ignore (nfkd front))
              (String.list_ascii_of_string e)) as [->|(stem & Hstem & ->)].
  - intros Hnil. apply Hne.
    by rewrite <- (String.string_of_list_ascii_of_string e), Hnil.
  - exact Hplain.
  - left. apply String.string_of_list_ascii_of_string.
  - right. exists (String.string_of_list_ascii stem). split.
    + intros Hnil. apply Hstem.
      by rewrite <- (String.list_ascii_of_string_of_list_ascii stem), Hnil.
    + rewrite string_of_list_ascii_app. cbn.
      by rewrite String.string_of_list_ascii_of_string.
Qed.

(** An upload answered 200 was dispatched on a supported extension and
    started the job of that extension. *)
Lemma upload_accepted ext req w file response :
  request_file req = Some file →
  outcome (upload_file ext req w) = Return response →
  status_code response = 200 →
  ∃ file_extension session_id filepath,
    Spec.dispatch_extension (secure_filename ext (filename file))
    = Some file_extension
    ∧ file_extension ∈ Spec.supported
    ∧ threads (final (upload_file ext req w))
      = threads w
        ++ [if decide (file_extension = "pdf")
            then process_pdf_job session_id filepath
            else process_video_job session_id filepath].
Proof.
  intros Hfile. rewrite upload_file_refines. unfold Spec.upload, Spec.reject.
  rewrite Hfile.
  destruct (decide (filename file = "")); [by intros [= <-]|].
  destruct (session_id_cookie req) as [session_id|]; [|by intros [= <-]].
  destruct (decide (session_id = "")); [by intros [= <-]|].
  destruct (chat_sessions w !! session_id) as [s|]; [|done].
  cbn zeta.
  destruct (Spec.dispatch_extension _) as [file_extension|];
    [|by intros [= <-]].
  destruct (decide (file_extension = "pdf")) as [->|Hpdf].
  { destruct (file_save ext _); [|by intros [= <-]].
    intros _ _. eexists _, session_id, _. split; [done|].
    split; [left|]. by rewrite decide_True. }
  destruct (bool_decide (file_extension ∈ ["mp4"; "mov"; "avi"; "mkv"]))
    eqn:Hvideo; [|by intros [= <-]].
  destruct (file_save ext _); [|by intros [= <-]].
  intros _ _. eexists _, session_id, _. split; [done|].
  split; [right; by apply bool_decide_eq_true in Hvideo|].
  by rewrite decide_False.
Qed.

(** On an ASCII name the sanitizer does not depend on the
    normalisation. *)
Lemma secure_filename_ascii nfkd name :
  Werkzeug.ascii_inert nfkd →
  Forall (λ c, Werkzeug.is_ascii c = true) (String.list_ascii_of_string name) →
  Werkzeug.secure_filename nfkd name = Werkzeug.secure_filename id name.
Proof.
  intros [Hempty Hinert] Hname. unfold Werkzeug.secure_filename.
  change name with ("" +:+ name) at 1.
  by rewrite (Hinert "" name Hname), Hempty.
Qed.

(** C8, as the specification states it, fails: "notes.pdf~" is accepted
    and dispatched as a PDF, because the sanitizer drops the tilde
    (whatever the normalisation), while the extension of the submitted
    name is "pdf~". *)
Lemma upload_extension_preserved_counterexample :
  Werkzeug.secure_filename id "notes.pdf~" = "notes.pdf"
  ∧ (∀ nfkd, Werkzeug.ascii_inert nfkd →
             Werkzeug.secure_filename nfkd "notes.pdf~" = "notes.pdf")
  ∧ ¬ Spec.extension_preserved Demo.externals Demo.backup_upload
        (Demo.world_of Demo.fresh).
Proof.
  split; [vm_compute; reflexivity|]. split.
  { intros nfkd Hinert. rewrite (secure_filename_ascii nfkd) by
      (done || (vm_compute; repeat constructor)).
    vm_compute. reflexivity. }
  intros Hpreserved.
  specialize (Hpreserved {| filename := "notes.pdf~" |}
                (jsonify (message_body "File uploaded successfully. Processing..."))
                eq_refl).
  assert (Spec.dispatch_extension
            (secure_filename Demo.externals "notes.pdf~")
          = Spec.dispatch_extension "notes.pdf~") as Habs.
  { apply Hpreserved; vm_compute; reflexivity. }
  vm_compute in Habs. discriminate.
Qed.

(** C8, amended. The sanitizer is Werkzeug's, with any Unicode
    normalisation that leaves ASCII text as it is, so the submitted name
    may hold any characters. For an upload that is accepted, if the
    extension of the submitted name (the text after its last dot) is not
    empty and made of ASCII letters, digits and hyphens only, then the
    sanitized name ends with a dot and that same extension, the extension
    the handler dispatches on is its lowercase form, which is a supported
    one, and the thread started is the job of that extension. *)
Theorem upload_dispatch_extension nfkd ext w req file e response :
  Werkzeug.ascii_inert nfkd →
  secure_filename ext = Werkzeug.secure_filename nfkd →
  request_file req = Some file →
  Py.after_last "." (filename file) = Some e →
  Spec.plain_extension e →
  outcome (upload_file ext req w) = Return response →
  status_code response = 200 →
  (∃ stem, stem ≠ ""
           ∧ secure_filename ext (filename file) = stem +:+ "." +:+ e)
  ∧ Spec.dispatch_extension (secure_filename ext (filename file))
    = Some (Py.lower e)
  ∧ Spec.dispatch_extension (filename file) = Some (Py.lower e)
  ∧ Py.lower e ∈ Spec.supported
  ∧ ∃ session_id filepath,
      threads (final (upload_file ext req w))
      = threads w
        ++ [if decide (Py.lower e = "pdf")
            then process_pdf_job session_id filepath
            else process_video_job session_id filepath].
Proof.
  intros Hinert Hext Hfile He Hplain Hout Hcode.
  destruct (upload_accepted _ _ _ _ _ Hfile Hout Hcode)
    as (file_extension & session_id & filepath & Hdispatch & Hsupported
        & Hthreads).
  assert (Py.after_last "." e = None) as Hnodot
    by (apply plain_no_dot, Hplain).
  rewrite Hext in *.
  destruct (secure_filename_plain_extension _ _ _ Hinert He Hplain)
    as [Hname|(stem & Hstem & Hname)]; rewrite Hname in *.
  { unfold Spec.dispatch_extension in Hdispatch.
    by rewrite Hnodot in Hdispatch. }
  unfold Spec.dispatch_extension in *.
  rewrite after_last_app in Hdispatch |- * by done.
  rewrite He. injection Hdispatch as <-.
  split_and!; try done; eauto.
Qed.

Lemma upload_dispatch_extension_witness :
  Werkzeug.ascii_inert Lifecycle.nfkd_acute
  ∧ secure_filename Lifecycle.accented
    = Werkzeug.secure_filename Lifecycle.nfkd_acute
  ∧ Py.after_last "." "résumé.pdf" = Some "pdf"
  ∧ Spec.plain_extension "pdf"
  ∧ secure_filename Lifecycle.accented "résumé.pdf" = "resume.pdf"
  ∧ Spec.dispatch_extension (secure_filename Lifecycle.accented "résumé.pdf")
    = Some "pdf".
Proof.
  assert (Spec.plain_extension "pdf") as Hplain.
  { split; [discriminate|]. repeat constructor. }
  split; [exact nfkd_acute_inert|].
  split; [reflexivity|]. split; [reflexivity|]. split; [exact Hplain|].
  split; [vm_compute; reflexivity|].
  destruct (upload_dispatch_extension Lifecycle.nfkd_acute Lifecycle.accented
              (Demo.world_of Demo.fresh) Lifecycle.accented_upload
              {| filename := "résumé.pdf" |} "pdf"
              (jsonify (message_body "File uploaded successfully. Processing...")))
    as (_ & Hdispatch & _);
    [exact nfkd_acute_inert|reflexivity|reflexivity|reflexivity|exact Hplain
    |vm_compute; reflexivity|reflexivity|].
  exact Hdispatch.
Defined.

(** * Further properties of the routes and jobs *)

(** ** Messages route *)

Lemma get_messages_run req w :
  get_messages req w
  = MkRun
      (Return
         match Spec.known_session w (session_id_cookie req) with
         | Some (_, s) => jsonify (messages_body (messages s))
         | None => jsonify_code (error_body "Session expired") 400
         end) w [].
Proof.
  unfold get_messages, Spec.known_session. run.
  destruct (session_id_cookie req) as [session_id|]; [|done].
  destruct (decide (session_id = "")) as [->|Hne].
  { by rewrite (proj2 (falsy_true "") eq_refl). }
  rewrite (proj2 (falsy_false _) Hne). cbn [orb].
  destruct (chat_sessions w !! session_id) as [s|] eqn:Hs;
    cbn [fmap option_fmap option_map].
  - rewrite bool_decide_eq_true_2 by (apply elem_of_dom; eauto). cbn [negb].
    rewrite Hs. run. done.
  - rewrite bool_decide_eq_false_2; [done|].
    rewrite elem_of_dom, Hs. by intros [? ?].
Qed.

(** X1. The messages route never raises and never writes. It answers 400
    "Session expired" exactly when the token is absent, empty or not a key
    of the session store, and otherwise 200 with exactly the messages of
    that session. *)
Theorem get_messages_read_only req w :
  let r := get_messages req w in
  final r = w
  ∧ trace r = []
  ∧ ∃ response,
      outcome r = Return response
      ∧ (status_code response = 400 ↔
         Spec.known_session w (session_id_cookie req) = None)
      ∧ response
        = match Spec.known_session w (session_id_cookie req) with
          | Some (_, s) => jsonify (messages_body (messages s))
          | None => jsonify_code (error_body "Session expired") 400
          end.
Proof.
  cbn zeta. rewrite get_messages_run. cbn.
  split; [done|]. split; [done|]. eexists. split; [done|]. split; [|done].
  by destruct (Spec.known_session w (session_id_cookie req)) as [[? ?]|].
Qed.

(** ** Index route *)

(** X2. The index route answers with the page and leaves in the cookie the
    token it came with, or the fresh one when it came with none. That
    token is then a key of the session store: a new session is empty and
    not processing, an existing one is returned to as it is. No other
    session is touched, and visiting again with the cookie changes
    nothing. *)
Theorem index_registers_once req uuid w :
  let token := default uuid (session_id_cookie req) in
  let r := index req uuid w in
  outcome r = Return (jsonify (html_body "index.html"), token)
  ∧ chat_sessions (final r) !! token
    = Some (default new_session (chat_sessions w !! token))
  ∧ chat_sessions w ⊆ chat_sessions (final r)
  ∧ dom (chat_sessions (final r)) = {[token]} ∪ dom (chat_sessions w)
  ∧ processing_status (final r) = processing_status w
  ∧ threads (final r) = threads w
  ∧ ∀ uuid', final (index (Lifecycle.with_token token) uuid' (final r))
             = final r.
Proof.
  intros token r.
  assert (final r
          = if decide (token ∈ dom (chat_sessions w)) then w
            else with_chat_sessions <[token := new_session]> w) as Hfinal
    by apply index_final.
  split.
  { subst r. unfold index. fold token. run.
    destruct (decide (token ∈ dom (chat_sessions w))); run; done. }
  assert (∀ uuid', final (index (Lifecycle.with_token token) uuid' (final r))
                   = final r) as Hagain.
  { intros uuid'. rewrite index_final. cbn.
    rewrite decide_True; [done|]. rewrite Hfinal.
    destruct (decide (token ∈ dom (chat_sessions w))); [done|].
    cbn. rewrite dom_insert_L. apply elem_of_union_l, elem_of_singleton.
    done. }
  rewrite Hfinal in *. clear Hfinal.
  destruct (decide (token ∈ dom (chat_sessions w))) as [Hin|Hnew].
  - destruct (proj1 (elem_of_dom _ _) Hin) as [s Hs]. rewrite Hs.
    split_and!; try done.
    symmetry. apply subseteq_union_1_L, singleton_subseteq_l, Hin.
  - apply not_elem_of_dom in Hnew. rewrite Hnew. cbn.
    split_and!; try done.
    + apply lookup_insert_eq.
    + by apply insert_subseteq.
    + apply dom_insert_L.
Qed.

(** ** Transcription *)

(** X3. Whatever the Whisper model raises, [transcribe_audio] raises a
    plain exception whose text is "Failed to transcribe audio: " followed
    by the original text. So when audio extraction succeeds and the model
    fails, the video job of a known session leaves the status
    "Error processing video: Failed to transcribe audio: " followed by the
    original text, and leaves the audio file where extraction put it. *)
Theorem transcription_failure_status ext w session_id filepath s audio_path
    fs e :
  chat_sessions w !! session_id = Some s →
  extract_audio_from_video ext filepath (UPLOAD_FOLDER_TEMP ext) (files w)
  = (Return audio_path, fs) →
  model_transcribe ext audio_path = Raise e →
  let r := process_video_file ext session_id filepath w in
  transcribe_audio ext audio_path
  = Raise (Exception ("Failed to transcribe audio: " +:+ str e))
  ∧ outcome r = Return tt
  ∧ processing_status (final r) !! session_id
    = Some ("Error processing video: Failed to transcribe audio: " +:+ str e)
  ∧ chat_sessions (final r) !! session_id = Some (set_is_processing false s)
  ∧ files (final r) = fs.
Proof.
  intros Hs Haudio He r. subst r.
  assert (transcribe_audio ext audio_path
          = Raise (Exception ("Failed to transcribe audio: " +:+ str e)))
    as Htranscribe by (unfold transcribe_audio; by rewrite He).
  split; [exact Htranscribe|].
  rewrite (process_video_file_refines _ _ _ _ s) by exact Hs.
  unfold Spec.video_job, Spec.video_failed.
  rewrite Haudio, Htranscribe. cbn.
  rewrite !lookup_insert_eq. done.
Qed.

Lemma transcription_failure_status_witness :
  chat_sessions (Demo.world_of Demo.uploading) !! "alice" = Some Demo.uploading
  ∧ processing_status
      (final (process_video_file Demo.failing "alice" "uploads/video/talk.mp4"
                (Demo.world_of Demo.uploading))) !! "alice"
    = Some "Error processing video: Failed to transcribe audio: out of memory".
Proof.
  assert (chat_sessions (Demo.world_of Demo.uploading) !! "alice"
          = Some Demo.uploading) as Hs by (vm_compute; reflexivity).
  split; [exact Hs|].
  destruct (transcription_failure_status Demo.failing _ "alice"
              "uploads/video/talk.mp4" _ "uploads/temp/audio.wav"
              ({["uploads/temp/audio.wav"]} ∪ ∅) (Exception "out of memory")
              Hs eq_refl eq_refl) as (_ & _ & Hstatus & _).
  exact Hstatus.
Defined.

(** ** Upload route: every path *)

Lemma upload_early_rejection_run ext req w msg :
  Lifecycle.upload_precheck req = Some msg →
  upload_file ext req w = Spec.reject w msg.
Proof.
  rewrite upload_file_refines.
  unfold Lifecycle.upload_precheck, Spec.upload.
  destruct (request_file req) as [file|]; [|by intros [= <-]].
  destruct (decide (filename file = "")); [by intros [= <-]|].
  destruct (session_id_cookie req) as [session_id|]; [|by intros [= <-]].
  destruct (decide (session_id = "")); [by intros [= <-]|done].
Qed.

(** X4. The upload handler makes three checks before it looks at the
    session store: a file part, a non-empty file name, a non-empty session
    token, in this order. The first that fails answers 400 with its
    message ("No file provided", "No file selected", "Session expired")
    and nothing is written; the handler does not raise then, also when the
    token is unknown to the store. *)
Theorem upload_early_rejection ext req w msg :
  Lifecycle.upload_precheck req = Some msg →
  upload_file ext req w = Spec.reject w msg
  ∧ serve (upload_file ext req) w = Spec.reject w msg
  ∧ msg ∈ ["No file provided"; "No file selected"; "Session expired"].
Proof.
  intros Hcheck.
  pose proof (upload_early_rejection_run ext req w msg Hcheck) as Hrun.
  split; [exact Hrun|]. split.
  - unfold serve, try_except. by rewrite Hrun.
  - unfold Lifecycle.upload_precheck in Hcheck.
    destruct (request_file req) as [file|]; [|injection Hcheck as <-; left].
    destruct (decide (filename file = ""));
      [injection Hcheck as <-; right; left|].
    destruct (session_id_cookie req) as [session_id|];
      [|injection Hcheck as <-; right; right; left].
    destruct (decide (session_id = "")); [|done].
    injection Hcheck as <-. right; right; left.
Qed.

Lemma upload_early_rejection_witness :
  Lifecycle.upload_precheck (Lifecycle.with_token "ghost")
  = Some "No file provided"
  ∧ upload_file Demo.externals (Lifecycle.with_token "ghost") initial_world
    = Spec.reject initial_world "No file provided".
Proof.
  split; [reflexivity|].
  destruct (upload_early_rejection Demo.externals
              (Lifecycle.with_token "ghost") initial_world "No file provided")
    as (Hrun & _); [reflexivity|exact Hrun].
Defined.

(** The upload handler for a request that passes the three first checks
    and names a known session. *)
Lemma upload_known ext req w file session_id s :
  request_file req = Some file →
  filename file ≠ "" →
  session_id_cookie req = Some session_id →
  session_id ≠ "" →
  chat_sessions w !! session_id = Some s →
  upload_file ext req w
  = (let w1 :=
       with_chat_sessions <[session_id := set_is_processing true s]> w in
     let w2 :=
       with_processing_status <[session_id := "Processing your file..."]> w1 in
     let w3 :=
       with_chat_sessions <[session_id := set_is_processing false s]> w2 in
     let name := secure_filename ext (filename file) in
     let failed e :=
       MkRun (Return (jsonify_code (error_body (str e)) 500)) w3 [w1; w2; w3] in
     match Spec.dispatch_extension name with
     | None => failed (IndexError "list index out of range")
     | Some file_extension =>
         if bool_decide (file_extension ∈ Spec.supported) then
           let filepath :=
             Py.path_join (Lifecycle.upload_folder ext file_extension) name in
           match file_save ext filepath with
           | Raise e => failed e
           | Return _ =>
               let w4 := with_files (λ fs, {[filepath]} ∪ fs) w2 in
               let w5 :=
                 with_threads
                   (λ js, js ++ [Lifecycle.upload_job file_extension
                                   session_id filepath]) w4 in
               MkRun
                 (Return
                    (jsonify
                       (message_body
                          "File uploaded successfully. Processing...")))
                 w5 [w1; w2; w4; w5]
           end
         else
           MkRun
             (Return (jsonify_code (error_body "Unsupported file type") 400))
             w3 [w1; w2; w3]
     end).
Proof.
  intros Hfile Hname Hcookie Hne Hs.
  rewrite upload_file_refines. unfold Spec.upload.
  rewrite Hfile, Hcookie, Hs, !decide_False by done. cbn zeta.
  destruct (Spec.dispatch_extension _) as [file_extension|]; [|done].
  unfold Lifecycle.upload_folder, Lifecycle.upload_job.
  destruct (decide (file_extension = "pdf")) as [->|Hpdf].
  { rewrite bool_decide_eq_true_2 by left. done. }
  destruct (bool_decide (file_extension ∈ ["mp4"; "mov"; "avi"; "mkv"]))
    eqn:Hvideo.
  - apply bool_decide_eq_true in Hvideo.
    rewrite bool_decide_eq_true_2 by (by right). done.
  - apply bool_decide_eq_false in Hvideo.
    rewrite bool_decide_eq_false_2; [done|].
    intros [?|?]%elem_of_cons; done.
Qed.

(** X5. An upload with a file, a non-empty token of a known session and a
    sanitized name with a supported extension, whose file can be saved, is
    answered 200. The file is saved under the PDF folder for "pdf" and
    under the video folder otherwise, at the folder joined with the
    sanitized name; exactly one thread is started, the job of that
    extension on that path; and the session is left processing with the
    status "Processing your file...". *)
Theorem upload_accepted_effects ext w req file session_id s file_extension :
  request_file req = Some file →
  filename file ≠ "" →
  session_id_cookie req = Some session_id →
  session_id ≠ "" →
  chat_sessions w !! session_id = Some s →
  Spec.dispatch_extension (secure_filename ext (filename file))
  = Some file_extension →
  file_extension ∈ Spec.supported →
  Lifecycle.upload_failure ext (filename file) = None →
  let r := upload_file ext req w in
  let filepath :=
    Py.path_join (Lifecycle.upload_folder ext file_extension)
      (secure_filename ext (filename file)) in
  outcome r
  = Return (jsonify (message_body "File uploaded successfully. Processing..."))
  ∧ chat_sessions (final r)
    = <[session_id := set_is_processing true s]> (chat_sessions w)
  ∧ processing_status (final r)
    = <[session_id := "Processing your file..."]> (processing_status w)
  ∧ files (final r) = {[filepath]} ∪ files w
  ∧ threads (final r)
    = threads w ++ [Lifecycle.upload_job file_extension session_id filepath].
Proof.
  intros Hfile Hname Hcookie Hne Hs Hext Hsupported Hsaved r filepath.
  subst r filepath.
  rewrite (upload_known _ _ _ _ _ _ Hfile Hname Hcookie Hne Hs).
  unfold Lifecycle.upload_failure in Hsaved. cbn zeta.
  rewrite Hext in Hsaved |- *.
  rewrite bool_decide_eq_true_2 in Hsaved |- * by done.
  by destruct (file_save ext _).
Qed.

Lemma upload_accepted_effects_witness :
  chat_sessions (Demo.world_of Demo.fresh) !! "alice" = Some Demo.fresh
  ∧ threads (final (upload_file Demo.externals Demo.video_upload
                      (Demo.world_of Demo.fresh)))
    = [process_video_job "alice" "uploads/video/talk.mp4"]
  ∧ files (final (upload_file Demo.externals Demo.video_upload
                    (Demo.world_of Demo.fresh)))
    = {["uploads/video/talk.mp4"]} ∪ ∅.
Proof.
  assert (chat_sessions (Demo.world_of Demo.fresh) !! "alice"
          = Some Demo.fresh) as Hs by (vm_compute; reflexivity).
  split; [exact Hs|].
  destruct (upload_accepted_effects Demo.externals (Demo.world_of Demo.fresh)
              Demo.video_upload {| filename := "talk.mp4" |} "alice"
              Demo.fresh "mp4")
    as (_ & _ & _ & Hfiles & Hthreads);
    [reflexivity|discriminate|reflexivity|discriminate|exact Hs
    |vm_compute; reflexivity
    |apply (bool_decide_unpack _); vm_compute; exact I
    |vm_compute; reflexivity|].
  split; [exact Hthreads|exact Hfiles].
Defined.

(** X6. When the sanitized name of an upload for a known session has no
    dot at all, or the file cannot be saved, the handler answers 500 with
    the text of the exception ("list index out of range" for a name
    without a dot). It makes exactly three writes: the flag set, the
    status "Processing your file...", and the flag cleared, which is its
    last write; the flag is true in the two worlds before. It leaves that
    status behind, saves no file and starts no thread. *)
Theorem upload_internal_error ext w req file session_id s e :
  request_file req = Some file →
  filename file ≠ "" →
  session_id_cookie req = Some session_id →
  session_id ≠ "" →
  chat_sessions w !! session_id = Some s →
  Lifecycle.upload_failure ext (filename file) = Some e →
  let r := upload_file ext req w in
  let w1 := with_chat_sessions <[session_id := set_is_processing true s]> w in
  let w2 :=
    with_processing_status <[session_id := "Processing your file..."]> w1 in
  let w3 :=
    with_chat_sessions <[session_id := set_is_processing false s]> w2 in
  outcome r = Return (jsonify_code (error_body (str e)) 500)
  ∧ trace r = [w1; w2; w3]
  ∧ final r = w3
  ∧ is_processing <$> chat_sessions w1 !! session_id = Some true
  ∧ is_processing <$> chat_sessions w2 !! session_id = Some true
  ∧ is_processing <$> chat_sessions w3 !! session_id = Some false
  ∧ chat_sessions (final r)
    = <[session_id := set_is_processing false s]> (chat_sessions w)
  ∧ processing_status (final r)
    = <[session_id := "Processing your file..."]> (processing_status w)
  ∧ last (trace r) = Some (final r)
  ∧ files (final r) = files w
  ∧ threads (final r) = threads w
  ∧ (Spec.dispatch_extension (secure_filename ext (filename file)) = None →
     str e = "list index out of range").
Proof.
  intros Hfile Hname Hcookie Hne Hs Hfailed r. subst r.
  rewrite (upload_known _ _ _ _ _ _ Hfile Hname Hcookie Hne Hs).
  unfold Lifecycle.upload_failure in Hfailed. cbn zeta.
  destruct (Spec.dispatch_extension _) as [file_extension|].
  - destruct (bool_decide (file_extension ∈ Spec.supported)); [|done].
    destruct (file_save ext _) as [|e']; [done|].
    injection Hfailed as <-. cbn.
    rewrite !lookup_insert_eq, insert_insert_eq. split_and!; done.
  - injection Hfailed as <-. cbn.
    rewrite !lookup_insert_eq, insert_insert_eq. split_and!; done.
Qed.

Lemma upload_internal_error_witness :
  chat_sessions (Demo.world_of Demo.fresh) !! "alice" = Some Demo.fresh
  ∧ Werkzeug.secure_filename id ".pdf" = "pdf"
  ∧ outcome (upload_file Demo.externals
               {| session_id_cookie := Some "alice";
                  request_file := Some {| filename := ".pdf" |};
                  json_question := None |}
               (Demo.world_of Demo.fresh))
    = Return (jsonify_code (error_body "list index out of range") 500).
Proof.
  assert (chat_sessions (Demo.world_of Demo.fresh) !! "alice"
          = Some Demo.fresh) as Hs by (vm_compute; reflexivity).
  split; [exact Hs|]. split; [vm_compute; reflexivity|].
  destruct (upload_internal_error Demo.externals (Demo.world_of Demo.fresh)
              {| session_id_cookie := Some "alice";
                 request_file := Some {| filename := ".pdf" |};
                 json_question := None |}
              {| filename := ".pdf" |} "alice" Demo.fresh
              (IndexError "list index out of range"))
    as (Hout & _);
    [reflexivity|discriminate|reflexivity|discriminate|exact Hs
    |vm_compute; reflexivity|].
  exact Hout.
Defined.

(** ** Polling and asking after an upload or a job *)

Lemma get_status_known req w session_id :
  session_id_cookie req = Some session_id →
  session_id ≠ "" →
  get_status req w
  = MkRun
      (Return
         (jsonify
            (status_body (default "Ready" (processing_status w !! session_id))
               (from_option is_processing false
                  (chat_sessions w !! session_id))))) w [].
Proof.
  intros Hcookie Hne. unfold get_status.
  rewrite Hcookie, (proj2 (falsy_false _) Hne). run. done.
Qed.

(** X7. After an upload with a file and a non-empty token of a known
    session, polling the status with the same token answers the status
    "Processing your file..." whatever the upload's answer was, and
    [is_processing] is true exactly when the upload was answered 200:
    after an upload rejected with 400 or failed with 500 the status still
    reads "Processing your file..." although nothing is being
    processed. *)
Theorem status_after_upload ext w req file session_id s :
  request_file req = Some file →
  filename file ≠ "" →
  session_id_cookie req = Some session_id →
  session_id ≠ "" →
  chat_sessions w !! session_id = Some s →
  ∃ response,
    outcome (upload_file ext req w) = Return response
    ∧ outcome (get_status req (final (upload_file ext req w)))
      = Return
          (jsonify
             (status_body "Processing your file..."
                (bool_decide (status_code response = 200)))).
Proof.
  intros Hfile Hname Hcookie Hne Hs.
  rewrite (get_status_known _ _ _ Hcookie Hne).
  rewrite (upload_known _ _ _ _ _ _ Hfile Hname Hcookie Hne Hs). cbn zeta.
  destruct (Spec.dispatch_extension _) as [file_extension|].
  - destruct (bool_decide (file_extension ∈ Spec.supported)).
    + destruct (file_save ext _); eexists; (split; [done|]); cbn;
        by rewrite !lookup_insert_eq.
    + eexists; (split; [done|]); cbn; by rewrite !lookup_insert_eq.
  - eexists; (split; [done|]); cbn; by rewrite !lookup_insert_eq.
Qed.

Lemma status_after_upload_witness :
  chat_sessions (Demo.world_of Demo.fresh) !! "alice" = Some Demo.fresh
  ∧ outcome (get_status Demo.text_upload
               (final (upload_file Demo.externals Demo.text_upload
                         (Demo.world_of Demo.fresh))))
    = Return (jsonify (status_body "Processing your file..." false)).
Proof.
  assert (chat_sessions (Demo.world_of Demo.fresh) !! "alice"
          = Some Demo.fresh) as Hs by (vm_compute; reflexivity).
  split; [exact Hs|].
  destruct (status_after_upload Demo.externals (Demo.world_of Demo.fresh)
              Demo.text_upload {| filename := "notes.txt" |} "alice"
              Demo.fresh)
    as (response & Hresponse & Hstatus);
    [reflexivity|discriminate|reflexivity|discriminate|exact Hs|].
  rewrite Hstatus.
  assert (Return response
          = Return (jsonify_code (error_body "Unsupported file type") 400))
    as [= ->] by (rewrite <- Hresponse; vm_compute; reflexivity).
  reflexivity.
Defined.

(** X8. The upload handler does not look at [is_processing]. While a job
    of a session is in flight a question is refused as busy; but an upload
    for that session that is rejected for its extension clears the flag,
    and the same question asked right after it is accepted and starts an
    answer job, although the earlier thread has not run. *)
Theorem rejected_upload_unlocks_ask ext w req file session_id s
    file_extension question :
  request_file req = Some file →
  filename file ≠ "" →
  session_id_cookie req = Some session_id →
  session_id ≠ "" →
  chat_sessions w !! session_id = Some s →
  is_processing s = true →
  extracted_text s ≠ "" →
  question ≠ "" →
  Spec.dispatch_extension (secure_filename ext (filename file))
  = Some file_extension →
  file_extension ∉ Spec.supported →
  let asked := Lifecycle.asking session_id question in
  let w' := final (upload_file ext req w) in
  outcome (ask_question asked w)
  = Return (jsonify_code (error_body "System is still processing your file") 400)
  ∧ threads w' = threads w
  ∧ outcome (ask_question asked w')
    = Return (jsonify (message_body "Question received. Processing..."))
  ∧ threads (final (ask_question asked w'))
    = threads w ++ [generate_answer_job session_id question].
Proof.
  intros Hfile Hname Hcookie Hne Hs Hbusy Htext Hquestion Hext Hunsupported
    asked w'. subst asked w'.
  rewrite (upload_known _ _ _ _ _ _ Hfile Hname Hcookie Hne Hs). cbn zeta.
  rewrite Hext, bool_decide_eq_false_2 by done.
  rewrite !ask_question_refines. unfold Spec.ask, Spec.known_session. cbn.
  rewrite !decide_False, Hs, lookup_insert_eq by done. cbn.
  rewrite Hbusy, !decide_False by done. done.
Qed.

Lemma rejected_upload_unlocks_ask_witness :
  chat_sessions (Demo.world_of Lifecycle.busy) !! "alice" = Some Lifecycle.busy
  ∧ outcome (ask_question (Lifecycle.asking "alice" "What grew?")
               (final (upload_file Demo.externals Demo.text_upload
                         (Demo.world_of Lifecycle.busy))))
    = Return (jsonify (message_body "Question received. Processing...")).
Proof.
  assert (chat_sessions (Demo.world_of Lifecycle.busy) !! "alice"
          = Some Lifecycle.busy) as Hs by (vm_compute; reflexivity).
  split; [exact Hs|].
  destruct (rejected_upload_unlocks_ask Demo.externals
              (Demo.world_of Lifecycle.busy) Demo.text_upload
              {| filename := "notes.txt" |} "alice" Lifecycle.busy "txt"
              "What grew?")
    as (_ & _ & Hasked & _);
    [reflexivity|discriminate|reflexivity|discriminate|exact Hs|reflexivity
    |discriminate|discriminate|vm_compute; reflexivity
    |apply (bool_decide_unpack _); vm_compute; exact I|].
  exact Hasked.
Defined.

(** X9. When the PDF extractor returns the empty text for a session that
    holds no text, the PDF job reports "File processed successfully. You
    can now ask questions." and clears the flag, yet every question asked
    next is refused with "No document content available. Please upload a
    file first.". *)
Theorem empty_extraction_refuses_questions ext w session_id filepath s
    question :
  chat_sessions w !! session_id = Some s →
  session_id ≠ "" →
  question ≠ "" →
  process_pdf ext filepath = Return "" →
  let w' := final (process_pdf_file ext session_id filepath w) in
  processing_status w' !! session_id
  = Some "File processed successfully. You can now ask questions."
  ∧ chat_sessions w' !! session_id
    = Some (set_is_processing false (set_extracted_text "" s))
  ∧ ask_question (Lifecycle.asking session_id question) w'
    = Spec.reject w'
        "No document content available. Please upload a file first.".
Proof.
  intros Hs Hne Hquestion Hblank w'. subst w'.
  rewrite (process_pdf_file_refines _ _ _ _ s) by exact Hs.
  unfold Spec.pdf_job. rewrite Hblank. cbn.
  rewrite !lookup_insert_eq. split; [done|]. split; [done|].
  rewrite ask_question_refines. unfold Spec.ask, Spec.known_session. cbn.
  rewrite decide_False, lookup_insert_eq by done. cbn.
  by rewrite decide_False by done.
Qed.

Lemma empty_extraction_refuses_questions_witness :
  chat_sessions (Demo.world_of Demo.uploading) !! "alice" = Some Demo.uploading
  ∧ outcome
      (ask_question (Lifecycle.asking "alice" "What grew?")
         (final (process_pdf_file Lifecycle.blank_pdf "alice"
                   "uploads/pdf/scan.pdf" (Demo.world_of Demo.uploading))))
    = Return
        (jsonify_code
           (error_body
              "No document content available. Please upload a file first.")
           400).
Proof.
  assert (chat_sessions (Demo.world_of Demo.uploading) !! "alice"
          = Some Demo.uploading) as Hs by (vm_compute; reflexivity).
  split; [exact Hs|].
  destruct (empty_extraction_refuses_questions Lifecycle.blank_pdf
              (Demo.world_of Demo.uploading) "alice" "uploads/pdf/scan.pdf"
              Demo.uploading "What grew?" Hs)
    as (_ & _ & Hasked); [discriminate|discriminate|reflexivity|].
  rewrite Hasked. reflexivity.
Defined.

(** X10. After any job has run for its session, polling the status with
    that session's token answers [is_processing] false and the status the
    job left: one of the two success texts or a text containing
    "Error". *)
Theorem status_after_job ext j w s :
  chat_sessions w !! job_session j = Some s →
  job_session j ≠ "" →
  ∃ status,
    Lifecycle.final_status status
    ∧ get_status (Lifecycle.with_token (job_session j))
        (final (run_job ext j w))
      = MkRun (Return (jsonify (status_body status false)))
          (final (run_job ext j w)) [].
Proof.
  intros Hs Hne.
  rewrite (get_status_known (Lifecycle.with_token (job_session j)) _
             (job_session j) eq_refl Hne).
  rewrite (run_job_refines _ _ _ s) by exact Hs.
  assert (∀ text, Py.contains "Error" ("Error" +:+ text)) as Herror
    by (intros; apply contains_prefix).
  destruct j as [session_id filepath|session_id filepath|session_id question];
    cbn [job_session Spec.job] in *.
  - unfold Spec.pdf_job. destruct (process_pdf ext filepath) as [text|e]; cbn;
      rewrite !lookup_insert_eq; eexists; (split; [|done]).
    + by left.
    + right; right. apply (Herror (" processing PDF: " +:+ str e)).
  - unfold Spec.video_job, Spec.video_failed.
    destruct (extract_audio_from_video _ _ _ _) as [[audio_path|e] fs].
    2: { cbn. rewrite !lookup_insert_eq. eexists. split; [|done].
         right; right. apply (Herror (" processing video: " +:+ str e)). }
    destruct (transcribe_audio ext audio_path) as [result|e].
    2: { cbn. rewrite !lookup_insert_eq. eexists. split; [|done].
         right; right. apply (Herror (" processing video: " +:+ str e)). }
    destruct (tr_text result) as [text|].
    2: { cbn. rewrite !lookup_insert_eq. eexists. split; [|done].
         right; right. apply (Herror (" processing video: " +:+ _)). }
    cbn zeta. destruct (decide (audio_path ∈ fs)); cbn;
      rewrite !lookup_insert_eq; eexists; (split; [|done]).
    + by left.
    + right; right. apply (Herror (" processing video: " +:+ _)).
  - unfold Spec.answer_job, Spec.answer_status.
    destruct (Spec.answer_of _) as [answer|e]; cbn;
      rewrite !lookup_insert_eq; eexists; (split; [|done]).
    + right; by left.
    + right; right. apply (Herror (" generating answer: " +:+ str e)).
Qed.

Lemma status_after_job_witness :
  chat_sessions (Demo.world_of Demo.uploading) !! "alice" = Some Demo.uploading
  ∧ ∃ status,
      Lifecycle.final_status status
      ∧ outcome
          (get_status (Lifecycle.with_token "alice")
             (final (run_job Demo.failing
                       (process_pdf_job "alice" "uploads/pdf/report.pdf")
                       (Demo.world_of Demo.uploading))))
        = Return (jsonify (status_body status false)).
Proof.
  assert (chat_sessions (Demo.world_of Demo.uploading) !! "alice"
          = Some Demo.uploading) as Hs by (vm_compute; reflexivity).
  split; [exact Hs|].
  destruct (status_after_job Demo.failing
              (process_pdf_job "alice" "uploads/pdf/report.pdf")
              (Demo.world_of Demo.uploading) Demo.uploading Hs)
    as (status & Hfinal & Hpoll); [discriminate|].
  exists status. split; [exact Hfinal|]. cbn [job_session] in Hpoll.
  rewrite Hpoll. reflexivity.
Defined.

(** ** Invariants of the transition system *)

Lemma change_none w : Lifecycle.change w w.
Proof. by left. Qed.

Lemma change_upload ext req w :
  Lifecycle.change w (final (upload_file ext req w)).
Proof.
  destruct (Lifecycle.upload_precheck req) as [msg|] eqn:Hcheck.
  { rewrite (upload_early_rejection_run ext req w msg Hcheck).
    apply change_none. }
  unfold Lifecycle.upload_precheck in Hcheck.
  destruct (request_file req) as [file|] eqn:Hfile; [|done].
  destruct (decide (filename file = "")) as [|Hname]; [done|].
  destruct (session_id_cookie req) as [session_id|] eqn:Hcookie; [|done].
  destruct (decide (session_id = "")) as [|Hne]; [done|].
  destruct (chat_sessions w !! session_id) as [s|] eqn:Hs.
  2: { rewrite upload_file_refines. unfold Spec.upload.
       rewrite Hfile, Hcookie, Hs, !decide_False by done. apply change_none. }
  rewrite (upload_known _ _ _ _ _ _ Hfile Hname Hcookie Hne Hs). cbn zeta.
  assert (Lifecycle.change w
            (with_chat_sessions <[session_id := set_is_processing false s]>
               (with_processing_status
                  <[session_id := "Processing your file..."]>
                  (with_chat_sessions
                     <[session_id := set_is_processing true s]> w))))
    as Hcleared.
  { right; right. exists session_id, s, (set_is_processing false s).
    split; [done|]. split; [cbn; by rewrite insert_insert_eq|].
    split; [done|]. left. exists []. cbn. rewrite app_nil_r.
    split; [done|]. split; [apply Forall_nil; done|done]. }
  destruct (Spec.dispatch_extension _) as [file_extension|]; [|exact Hcleared].
  destruct (bool_decide (file_extension ∈ Spec.supported)); [|exact Hcleared].
  destruct (file_save ext _); [|exact Hcleared].
  right; right. exists session_id, s, (set_is_processing true s).
  split; [done|]. split; [done|]. split; [done|].
  left. eexists. split; [done|]. split; [|done].
  apply Forall_singleton. unfold Lifecycle.upload_job. by case_decide.
Qed.

Lemma change_ask req w : Lifecycle.change w (final (ask_question req w)).
Proof.
  rewrite ask_question_refines. unfold Spec.ask, Spec.known_session, Spec.reject.
  destruct (session_id_cookie req) as [session_id|]; [|apply change_none].
  destruct (decide (session_id = "")); [apply change_none|].
  destruct (chat_sessions w !! session_id) as [s|] eqn:Hs;
    cbn [fmap option_fmap option_map]; [|apply change_none].
  destruct (is_processing s); [apply change_none|].
  destruct (decide (default "" (json_question req) = "")); [apply change_none|].
  destruct (decide (extracted_text s = "")); [apply change_none|].
  right; right. eexists session_id, s, _. split; [done|].
  split; [cbn; by rewrite insert_insert_eq|].
  split; [by apply prefix_app_r|].
  left. eexists. split; [done|]. split; [|done].
  by apply Forall_singleton.
Qed.

(** What a job leaves for a session found as [s]: one session replaced,
    its messages extended, not processing, nothing else of the sessions
    and no thread touched; and the job returns. *)
Lemma job_leaves ext j s w :
  chat_sessions w !! job_session j = Some s →
  ∃ s',
    outcome (Spec.job ext j s w) = Return tt
    ∧ chat_sessions (final (Spec.job ext j s w))
      = <[job_session j := s']> (chat_sessions w)
    ∧ threads (final (Spec.job ext j s w)) = threads w
    ∧ messages s `prefix_of` messages s'
    ∧ is_processing s' = false.
Proof.
  intros Hs.
  destruct j as [session_id filepath|session_id filepath|session_id question];
    cbn [job_session Spec.job] in *.
  - unfold Spec.pdf_job. destruct (process_pdf ext filepath); cbn;
      rewrite ?insert_insert_eq; eexists; split_and!; done.
  - unfold Spec.video_job, Spec.video_failed.
    destruct (extract_audio_from_video _ _ _ _) as [[audio_path|e] fs].
    2: { cbn. eexists; split_and!; done. }
    destruct (transcribe_audio ext audio_path) as [result|e].
    2: { cbn. eexists; split_and!; done. }
    destruct (tr_text result) as [text|].
    2: { cbn. eexists; split_and!; done. }
    cbn zeta. destruct (decide (audio_path ∈ fs)); cbn;
      rewrite !insert_insert_eq; eexists; split_and!; done.
  - unfold Spec.answer_job. destruct (Spec.answer_of _); cbn;
      rewrite !insert_insert_eq; eexists; split_and!; try done;
      by apply prefix_app_r.
Qed.

Lemma fire_change e w w' :
  consistent w → fire e w = Some w' → Lifecycle.change w w'.
Proof.
  intros [_ Hthreads] Hfire.
  destruct e as [req uuid|ext req|req|req|req|ext j earlier later];
    cbn [fire] in Hfire.
  - injection Hfire as <-. rewrite index_final. cbn zeta.
    destruct (decide (_ ∈ dom (chat_sessions w))) as [|Hnew];
      [apply change_none|].
    right; left. eexists. split; [by apply not_elem_of_dom|]. done.
  - injection Hfire as <-. rewrite final_serve. apply change_upload.
  - injection Hfire as <-. rewrite final_serve. apply change_ask.
  - injection Hfire as <-. rewrite final_serve, get_status_final.
    apply change_none.
  - injection Hfire as <-. rewrite final_serve, get_messages_final.
    apply change_none.
  - destruct (decide (threads w = earlier ++ j :: later)) as [Hj|];
      [|discriminate].
    injection Hfire as <-.
    assert (job_session j ∈ dom (chat_sessions w)) as [s Hs]%elem_of_dom.
    { rewrite Forall_forall in Hthreads. apply Hthreads.
      rewrite Hj. apply elem_of_app. right. left. }
    rewrite (run_job_refines _ _ _ s) by exact Hs.
    destruct (job_leaves ext j s (with_threads (λ _, earlier ++ later) w) Hs)
      as (s' & _ & Hsessions & Hjobs & Hprefix & Hflag).
    right; right. exists (job_session j), s, s'.
    split; [done|]. split; [exact Hsessions|]. split; [done|].
    right. exists j, earlier, later. by rewrite Hjobs.
Qed.




Lemma change_messages_grow w w' :
  Lifecycle.change w w' → Lifecycle.messages_grow w w'.
Proof.
  intros [[Hsame _]|[(session_id & Hnew & Hsessions & _)
                    |(session_id & s & s' & Hs & Hsessions & Hprefix & _)]]
    other t Ht.
  - rewrite Hsame. by exists t.
  - rewrite Hsessions. exists t. split; [|done].
    rewrite lookup_insert_ne; [done|]. intros <-. congruence.
  - rewrite Hsessions. destruct (decide (session_id = other)) as [<-|].
    + exists s'. rewrite lookup_insert_eq. split; [done|]. congruence.
    + exists t. by rewrite lookup_insert_ne.
Qed.

Lemma change_flag_has_thread w w' :
  Lifecycle.change w w' →
  Lifecycle.flag_has_thread w → Lifecycle.flag_has_thread w'.
Proof.
  intros [[Hsame Hjobs]|[(session_id & Hnew & Hsessions & Hjobs)
                        |(session_id & s & s' & Hs & Hsessions & _ & Hjobs)]]
    Hinv other t; rewrite Hsessions || rewrite Hsame.
  - rewrite Hjobs. apply Hinv.
  - rewrite Hjobs. destruct (decide (session_id = other)) as [<-|].
    + rewrite lookup_insert_eq. by intros [= <-].
    + rewrite lookup_insert_ne by done. apply Hinv.
  - destruct Hjobs as [(started & -> & Hstarted & Hflag)
                      |(j & earlier & later & Hbefore & -> & Hj & Hflag)];
      (destruct (decide (session_id = other)) as [<-|Hother];
       [rewrite lookup_insert_eq; intros [= <-] Ht
       |rewrite lookup_insert_ne by done; intros Hlookup Ht]).
    + destruct started as [|j started]; [by destruct (Hflag Ht)|].
      exists j. split; [apply elem_of_app; right; left|].
      by apply Forall_cons in Hstarted as [? _].
    + destruct (Hinv other t Hlookup Ht) as (j & Hin & Hj).
      exists j. split; [apply elem_of_app; by left|done].
    + congruence.
    + destruct (Hinv other t Hlookup Ht) as (j' & Hin & Hj').
      exists j'. split; [|done]. rewrite Hbefore in Hin.
      apply elem_of_app in Hin as [Hin|[->|Hin]%elem_of_cons];
        [apply elem_of_app; by left|congruence|apply elem_of_app; by right].
Qed.

(** X11. Sessions are never removed and their messages are only ever
    extended at the end: from a reachable world, after any number of
    requests and thread runs every session is still in the store and its
    earlier messages are a prefix of its later ones. *)
Theorem messages_only_grow w w' :
  reachable w →
  rtc step w w' →
  Lifecycle.messages_grow w w'.
Proof.
  intros Hreach Hsteps.
  assert (reachable w' ∧ Lifecycle.messages_grow w w') as [_ Hgrow];
    [|exact Hgrow].
  revert w' Hsteps. apply rtc_ind_r.
  - split; [exact Hreach|]. intros session_id s Hs. by exists s.
  - intros w1 w2 _ [e Hfire] [Hreach1 Hgrow]. split.
    + eapply step_reachable; [exact Hreach1|]. by exists e.
    + intros session_id s Hs.
      destruct (Hgrow session_id s Hs) as (s1 & Hs1 & Hprefix1).
      destruct (change_messages_grow w1 w2
                  (fire_change e w1 w2 (reachable_consistent _ Hreach1) Hfire)
                  session_id s1 Hs1) as (s2 & Hs2 & Hprefix2).
      exists s2. split; [done|]. by etrans.
Qed.

Lemma messages_only_grow_witness :
  reachable (Demo.world_after Lifecycle.conversation)
  ∧ Demo.after Lifecycle.follow_up (Demo.world_after Lifecycle.conversation)
    = Some (Demo.world_after (Lifecycle.conversation ++ Lifecycle.follow_up))
  ∧ messages <$> chat_sessions (Demo.world_after Lifecycle.conversation)
                   !! "alice"
    = Some [ {| role := user; content := "What grew?" |};
             {| role := assistant; content := "<p>Revenue grew.</p>" |} ]
  ∧ messages <$> chat_sessions
                   (Demo.world_after
                      (Lifecycle.conversation ++ Lifecycle.follow_up))
                   !! "alice"
    = Some [ {| role := user; content := "What grew?" |};
             {| role := assistant; content := "<p>Revenue grew.</p>" |};
             {| role := user; content := "By how much?" |};
             {| role := assistant;
                content :=
                  "Sorry, I encountered an error while processing your question: connection refused" |} ]
  ∧ Lifecycle.messages_grow (Demo.world_after Lifecycle.conversation)
      (Demo.world_after (Lifecycle.conversation ++ Lifecycle.follow_up)).
Proof.
  assert (reachable (Demo.world_after Lifecycle.conversation)) as Hreach.
  { apply (after_reachable Lifecycle.conversation initial_world);
      [apply rtc_refl|vm_compute; reflexivity]. }
  assert (Demo.after Lifecycle.follow_up
            (Demo.world_after Lifecycle.conversation)
          = Some (Demo.world_after
                    (Lifecycle.conversation ++ Lifecycle.follow_up)))
    as Hafter by (vm_compute; reflexivity).
  split; [exact Hreach|]. split; [exact Hafter|].
  split; [vm_compute; reflexivity|]. split; [vm_compute; reflexivity|].
  apply (messages_only_grow _ _ Hreach).
  exact (after_steps Lifecycle.follow_up _ _ Hafter).
Defined.

(** X12. In every reachable world a session marked as processing has a
    started thread that has not run yet: the flag is never left set
    without a job that will clear it. *)
Theorem processing_has_thread w :
  reachable w →
  Lifecycle.flag_has_thread w.
Proof.
  unfold reachable. revert w. apply rtc_ind_r.
  - intros session_id s Hs. cbn in Hs. by rewrite lookup_empty in Hs.
  - intros w1 w2 Hreach [e Hfire] Hinv.
    eapply change_flag_has_thread; [|exact Hinv].
    eapply fire_change; [|exact Hfire]. by apply reachable_consistent.
Qed.

Lemma processing_has_thread_witness :
  ∃ w,
    Demo.after Lifecycle.visit_then_upload initial_world = Some w
    ∧ reachable w
    ∧ Lifecycle.flag_has_thread w.
Proof.
  eexists. split; [vm_compute; reflexivity|].
  assert (reachable
            (final (serve (upload_file Demo.externals Demo.pdf_upload)
                      (final (index Demo.visit "alice" initial_world)))))
    as Hreach.
  { apply (after_reachable Lifecycle.visit_then_upload initial_world);
      [apply rtc_refl|reflexivity]. }
  split; [exact Hreach|]. exact (processing_has_thread _ Hreach).
Defined.

(** X13. In every reachable world every status entry and every started
    thread belongs to a session of the store; so a started thread, when it
    runs, never raises and leaves its session not processing. *)
Theorem started_threads_return w :
  reachable w →
  consistent w
  ∧ ∀ ext j,
      j ∈ threads w →
      ∃ s',
        outcome (run_job ext j w) = Return tt
        ∧ chat_sessions (final (run_job ext j w)) !! job_session j = Some s'
        ∧ is_processing s' = false.
Proof.
  intros Hcons%reachable_consistent. split; [exact Hcons|].
  intros ext j Hj. destruct Hcons as [_ Hthreads].
  rewrite Forall_forall in Hthreads.
  destruct (proj1 (elem_of_dom _ _) (Hthreads j Hj)) as [s Hs].
  rewrite (run_job_refines _ _ _ s) by exact Hs.
  destruct (job_leaves ext j s w Hs) as (s' & Hout & Hsessions & _ & _ & Hflag).
  exists s'. rewrite Hsessions, lookup_insert_eq. done.
Qed.

Lemma started_threads_return_witness :
  ∃ w,
    Demo.after Lifecycle.visit_then_upload initial_world = Some w
    ∧ reachable w
    ∧ threads w = [process_pdf_job "alice" "uploads/pdf/report.pdf"]
    ∧ outcome (run_job Demo.failing
                 (process_pdf_job "alice" "uploads/pdf/report.pdf") w)
      = Return tt.
Proof.
  eexists. split; [vm_compute; reflexivity|].
  assert (reachable
            (final (serve (upload_file Demo.externals Demo.pdf_upload)
                      (final (index Demo.visit "alice" initial_world)))))
    as Hreach.
  { apply (after_reachable Lifecycle.visit_then_upload initial_world);
      [apply rtc_refl|reflexivity]. }
  split; [exact Hreach|].
  assert (threads
            (final (serve (upload_file Demo.externals Demo.pdf_upload)
                      (final (index Demo.visit "alice" initial_world))))
          = [process_pdf_job "alice" "uploads/pdf/report.pdf"]) as Hthreads
    by (vm_compute; reflexivity).
  split; [exact Hthreads|].
  destruct (started_threads_return _ Hreach) as (_ & Hreturn).
  destruct (Hreturn Demo.failing
              (process_pdf_job "alice" "uploads/pdf/report.pdf"))
    as (s' & Hout & _); [rewrite Hthreads; left|exact Hout].
Defined.

(** ** Timestamp lookup and the window *)

Lemma extended_le_trans x y z :
  Number.extended_le x y = true →
  Number.extended_le y z = true →
  Number.extended_le x z = true.
Proof.
  destruct x as [|p|], y as [|q|], z as [|r|]; cbn; try done.
  rewrite !QArith_base.Qle_bool_iff. apply QArith_base.Qle_trans.
Qed.

(** Python's [<=] is transitive on numbers, also across [int] and
    [float]. *)
Lemma le_trans a b c :
  Number.le a b = true → Number.le b c = true → Number.le a c = true.
Proof.
  unfold Number.le.
  destruct (Number.value a) as [x|], (Number.value b) as [y|],
    (Number.value c) as [z|]; try done.
  apply extended_le_trans.
Qed.

Lemma entry_wider target window window' segment found :
  Number.le window window' = true →
  Spec.entry target window' segment = Return found →
  Spec.entry target window segment = Return found
  ∨ Spec.entry target window segment = Return None.
Proof.
  intros Hle. unfold Spec.entry, within_window.
  destruct (Number.le (seg_start segment) target
            && Number.le target (seg_end segment))%bool; [by left|].
  destruct (Number.sub (seg_start segment) target) as [distance|e];
    cbn; [|done].
  destruct (Number.le (Number.abs distance) window) eqn:Hnarrow.
  - rewrite (le_trans _ _ _ Hnarrow Hle). by left.
  - by right.
Qed.

Lemma lines_wider segs target window window' wide :
  Number.le window window' = true →
  Spec.lines segs target window' = Return wide →
  ∃ narrow,
    Spec.lines segs target window = Return narrow
    ∧ narrow `sublist_of` wide.
Proof.
  intros Hle. revert wide.
  induction segs as [|segment segs IH]; intros wide.
  { intros [= <-]. by exists []. }
  rewrite !lines_cons.
  destruct (Spec.entry target window' segment) as [found|e] eqn:Hwide;
    cbn; [|done].
  destruct (Spec.lines segs target window') as [rest'|e]; cbn; [|done].
  destruct (IH rest' eq_refl) as (rest & -> & Hsub).
  intros [= <-].
  destruct (entry_wider _ _ _ _ _ Hle Hwide) as [->| ->]; cbn.
  - eexists. split; [done|].
    destruct found; [by apply sublist_skip|done].
  - eexists. split; [done|].
    destruct found; [by apply sublist_cons|done].
Qed.

Lemma lines_containing segs target window found segment :
  Spec.lines segs target window = Return found →
  segment ∈ segs →
  Number.le (seg_start segment) target = true →
  Number.le target (seg_end segment) = true →
  ∃ timestamp,
    format_timestamp (seg_start segment) = Return timestamp
    ∧ "[" +:+ timestamp +:+ "] " +:+ seg_text segment ∈ found.
Proof.
  intros Hfound Hin Hstart Hend. revert found Hfound.
  induction segs as [|first segs IH]; intros found; [by inversion Hin|].
  rewrite lines_cons.
  destruct (Spec.entry target window first) as [here|e] eqn:Hhere;
    cbn; [|done].
  destruct (Spec.lines segs target window) as [rest|e]; cbn; [|done].
  intros [= <-].
  apply elem_of_cons in Hin as [<-|Hin].
  - unfold Spec.entry, within_window in Hhere.
    rewrite Hstart, Hend in Hhere. cbn in Hhere.
    destruct (format_timestamp (seg_start segment)) as [timestamp|e];
      cbn in Hhere; [|done].
    injection Hhere as <-. exists timestamp. split; [done|left].
  - destruct (IH Hin rest eq_refl) as (timestamp & Hstamp & Hline).
    exists timestamp. split; [done|].
    destruct here; [by right|done].
Qed.

(** X14. Widening the window of the timestamp lookup never drops a line,
    on every kind of number. When the lookup with the larger window finds
    its lines without raising, so does the lookup with the smaller window,
    and its lines are, in order, among those of the larger one; a segment
    whose interval contains the target is among them with every window,
    even a negative one; and when the larger window finds nothing, both
    lookups return the same text or raise the same exception. *)
Theorem wider_window_keeps_lines segs target window window' wide :
  Number.le window window' = true →
  Spec.lines segs target window' = Return wide →
  ∃ narrow,
    Spec.lines segs target window = Return narrow
    ∧ narrow `sublist_of` wide
    ∧ (∀ segment,
         segment ∈ segs →
         Number.le (seg_start segment) target = true →
         Number.le target (seg_end segment) = true →
         ∃ timestamp,
           format_timestamp (seg_start segment) = Return timestamp
           ∧ "[" +:+ timestamp +:+ "] " +:+ seg_text segment ∈ narrow)
    ∧ (wide = [] →
       find_text_around_timestamp segs target window
       = find_text_around_timestamp segs target window').
Proof.
  intros Hle Hwide.
  destruct (lines_wider _ _ _ _ _ Hle Hwide) as (narrow & Hnarrow & Hsub).
  exists narrow. split; [done|]. split; [done|]. split.
  - intros segment. by apply (lines_containing segs target window).
  - intros ->. apply sublist_nil_r in Hsub as ->.
    rewrite !find_text_refines. unfold Spec.context_spec.
    by rewrite Hnarrow, Hwide.
Qed.

Lemma wider_window_keeps_lines_witness :
  Number.le (py_int 5) default_window_seconds = true
  ∧ Spec.lines Spec.example_segments Lifecycle.sixteen_and_a_half
      default_window_seconds
    = Return ["[00:00:00] a"; "[00:00:20] b"]
  ∧ Spec.lines Spec.example_segments Lifecycle.sixteen_and_a_half (py_int 5)
    = Return ["[00:00:20] b"]
  ∧ ∃ narrow,
      Spec.lines Spec.example_segments Lifecycle.sixteen_and_a_half (py_int 5)
      = Return narrow
      ∧ narrow `sublist_of` ["[00:00:00] a"; "[00:00:20] b"].
Proof.
  assert (Number.le (py_int 5) default_window_seconds = true) as Hle
    by (vm_compute; reflexivity).
  assert (Spec.lines Spec.example_segments Lifecycle.sixteen_and_a_half
            default_window_seconds
          = Return ["[00:00:00] a"; "[00:00:20] b"]) as Hwide
    by (vm_compute; reflexivity).
  split; [exact Hle|]. split; [exact Hwide|].
  split; [vm_compute; reflexivity|].
  destruct (wider_window_keeps_lines Spec.example_segments
              Lifecycle.sixteen_and_a_half (py_int 5) default_window_seconds
              _ Hle Hwide) as (narrow & Hnarrow & Hsub & _).
  exists narrow. split; [exact Hnarrow|exact Hsub].
Defined.

(** ** Where uploads are saved *)

Lemma lstrip_Forall (P : ascii → Prop) s :
  Forall P s → Forall P (Werkzeug.lstrip s).
Proof.
  induction 1 as [|c s Hc Hs IH]; cbn; [done|].
  destruct (Werkzeug.is_stripped c); [done|by apply Forall_cons].
Qed.

Lemma lstrip_head s :
  match Werkzeug.lstrip s with
  | [] => True
  | c :: _ => Werkzeug.is_stripped c = false
  end.
Proof.
  induction s as [|c s IH]; cbn; [done|].
  by destruct (Werkzeug.is_stripped c) eqn:Hc.
Qed.

Lemma lstrip_keeps_last s c :
  Werkzeug.is_stripped c = false →
  ∃ body, Werkzeug.lstrip (s ++ [c]) = body ++ [c].
Proof.
  intros Hc. induction s as [|d s IH]; cbn.
  - rewrite Hc. by exists [].
  - destruct (Werkzeug.is_stripped d); [done|]. by exists (d :: s).
Qed.

Lemma strip_head s :
  match Werkzeug.strip s with
  | [] => True
  | c :: _ => Werkzeug.is_stripped c = false
  end.
Proof.
  unfold Werkzeug.strip, Werkzeug.rstrip.
  pose proof (lstrip_head s) as Hhead.
  destruct (Werkzeug.lstrip s) as [|c rest]; [done|].
  cbn [rev].
  destruct (lstrip_keeps_last (rev rest) c Hhead) as (body & ->).
  by rewrite rev_app_distr.
Qed.

Lemma strip_Forall (P : ascii → Prop) s :
  Forall P s → Forall P (Werkzeug.strip s).
Proof.
  intros Hs. unfold Werkzeug.strip, Werkzeug.rstrip.
  apply List.Forall_rev, lstrip_Forall, List.Forall_rev.
  by apply lstrip_Forall.
Qed.

(** The sanitizer returns only letters, digits, underscores, dots and
    hyphens, and never a name that starts with a dot or an underscore. *)
Lemma secure_filename_safe nfkd submitted :
  Lifecycle.safe_name (Werkzeug.secure_filename nfkd submitted).
Proof.
  unfold Lifecycle.safe_name, Werkzeug.secure_filename, Werkzeug.sanitize.
  set (joined := Werkzeug.join _ _). split.
  - rewrite String.list_ascii_of_string_of_list_ascii.
    apply strip_Forall. apply Forall_forall.
    by intros c [Hc _]%list_elem_of_filter.
  - pose proof (strip_head (filter (λ c, Werkzeug.is_kept c = true) joined))
      as Hhead.
    by destruct (Werkzeug.strip _).
Qed.

Lemma safe_name_no_slash name :
  Lifecycle.safe_name name → "/"%char ∉ String.list_ascii_of_string name.
Proof.
  intros [Hkept _] Hin. rewrite Forall_forall in Hkept.
  by specialize (Hkept _ Hin).
Qed.

Lemma path_join_safe folder name :
  Lifecycle.safe_name name →
  ∃ sep, sep ∈ [""; "/"] ∧ Py.path_join folder name = folder +:+ sep +:+ name.
Proof.
  intros Hsafe. unfold Py.path_join.
  assert (match name with String "/"%char _ => False | _ => True end) as Hhead.
  { pose proof (safe_name_no_slash _ Hsafe) as Hslash.
    destruct name as [|c rest]; [done|].
    destruct (decide (c = "/"%char)) as [->|Hc].
    - apply Hslash. left.
    - by destruct c as [[] [] [] [] [] [] [] []]. }
  assert (∃ sep, sep ∈ [""; "/"]
                 ∧ match Py.last_char folder with
                   | None | Some "/"%char => folder +:+ name
                   | Some _ => folder +:+ "/" +:+ name
                   end = folder +:+ sep +:+ name) as Hjoin.
  { destruct (Py.last_char folder) as [c|];
      [|exists ""; split; [left|done]].
    destruct (decide (c = "/"%char)) as [->|Hc];
      [exists ""; split; [left|done]|].
    exists "/". split; [right; left|].
    by destruct c as [[] [] [] [] [] [] [] []]. }
  destruct name as [|c rest]; [exact Hjoin|].
  by destruct c as [[] [] [] [] [] [] [] []].
Qed.

(** X15. With Werkzeug's sanitizer, whatever its Unicode normalisation
    makes of the submitted name, the file of every accepted upload is
    saved at the PDF folder or the video folder, followed by a separator
    (a slash, or nothing when the folder already ends in one), followed by
    the sanitized name; and that name holds only letters, digits,
    underscores, dots and hyphens, no slash, and does not start with a
    dot: an upload cannot be written outside the two folders. *)
Theorem upload_saves_inside_folder nfkd ext w req file response :
  secure_filename ext = Werkzeug.secure_filename nfkd →
  request_file req = Some file →
  outcome (upload_file ext req w) = Return response →
  status_code response = 200 →
  ∃ folder sep name,
    folder ∈ [UPLOAD_FOLDER_PDF ext; UPLOAD_FOLDER_VIDEO ext]
    ∧ sep ∈ [""; "/"]
    ∧ name = Werkzeug.secure_filename nfkd (filename file)
    ∧ Lifecycle.safe_name name
    ∧ ("/"%char ∉ String.list_ascii_of_string name)
    ∧ files (final (upload_file ext req w))
      = {[folder +:+ sep +:+ name]} ∪ files w.
Proof.
  intros Hsanitizer Hfile.
  pose proof (secure_filename_safe nfkd (filename file)) as Hsafe.
  destruct (Lifecycle.upload_precheck req) as [msg|] eqn:Hcheck.
  { rewrite (upload_early_rejection_run ext req w msg Hcheck).
    by intros [= <-]. }
  unfold Lifecycle.upload_precheck in Hcheck. rewrite Hfile in Hcheck.
  destruct (decide (filename file = "")) as [|Hname]; [done|].
  destruct (session_id_cookie req) as [session_id|] eqn:Hcookie; [|done].
  destruct (decide (session_id = "")) as [|Hne]; [done|].
  destruct (chat_sessions w !! session_id) as [s|] eqn:Hs.
  2: { rewrite upload_file_refines. unfold Spec.upload.
       by rewrite Hfile, Hcookie, Hs, !decide_False by done. }
  rewrite (upload_known _ _ _ _ _ _ Hfile Hname Hcookie Hne Hs). cbn zeta.
  rewrite Hsanitizer.
  destruct (Spec.dispatch_extension _) as [file_extension|];
    [|by intros [= <-]].
  destruct (bool_decide (file_extension ∈ Spec.supported));
    [|by intros [= <-]].
  destruct (file_save ext _); [|by intros [= <-]].
  intros _ _.
  destruct (path_join_safe (Lifecycle.upload_folder ext file_extension) _ Hsafe)
    as (sep & Hsep & Hjoin).
  exists (Lifecycle.upload_folder ext file_extension), sep,
    (Werkzeug.secure_filename nfkd (filename file)).
  split_and!; try done.
  - unfold Lifecycle.upload_folder. case_decide; [left|right; left].
  - by apply safe_name_no_slash.
  - cbn. by rewrite Hjoin.
Qed.

Lemma upload_saves_inside_folder_witness :
  secure_filename Lifecycle.accented
  = Werkzeug.secure_filename Lifecycle.nfkd_acute
  ∧ Werkzeug.secure_filename Lifecycle.nfkd_acute "../../etc/résumé.pdf"
    = "etc_resume.pdf"
  ∧ files (final (upload_file Lifecycle.accented Lifecycle.escaping_upload
                    (Demo.world_of Demo.fresh)))
    = {["uploads/pdf/etc_resume.pdf"]} ∪ ∅
  ∧ ∃ folder sep name,
      folder ∈ ["uploads/pdf"; "uploads/video"]
      ∧ sep ∈ [""; "/"]
      ∧ name
        = Werkzeug.secure_filename Lifecycle.nfkd_acute "../../etc/résumé.pdf"
      ∧ Lifecycle.safe_name name
      ∧ ("/"%char ∉ String.list_ascii_of_string name)
      ∧ files (final (upload_file Lifecycle.accented Lifecycle.escaping_upload
                        (Demo.world_of Demo.fresh)))
        = {[folder +:+ sep +:+ name]} ∪ files (Demo.world_of Demo.fresh).
Proof.
  split; [reflexivity|]. split; [vm_compute; reflexivity|].
  split; [vm_compute; reflexivity|].
  apply (upload_saves_inside_folder Lifecycle.nfkd_acute Lifecycle.accented
           (Demo.world_of Demo.fresh) Lifecycle.escaping_upload
           {| filename := "../../etc/résumé.pdf" |}
           (jsonify (message_body "File uploaded successfully. Processing...")));
    [reflexivity|reflexivity|vm_compute; reflexivity|reflexivity].
Defined.

(** ** One question at a time, one session at a time *)

Lemma ask_accepted_run w session_id s question :
  chat_sessions w !! session_id = Some s →
  session_id ≠ "" →
  is_processing s = false →
  extracted_text s ≠ "" →
  question ≠ "" →
  chat_sessions (final (ask_question (Lifecycle.asking session_id question) w))
    !! session_id
  = Some (set_is_processing true
            (set_messages
               (messages s ++ [{| role := user; content := question |}]) s)).
Proof.
  intros Hs Hne Hidle Htext Hquestion.
  rewrite ask_question_refines. unfold Spec.ask, Spec.known_session. cbn.
  rewrite decide_False, Hs by done. cbn.
  rewrite Hidle, !decide_False by done. cbn.
  by rewrite lookup_insert_eq.
Qed.

Lemma untouched_refl session_id w : Lifecycle.untouched session_id w w.
Proof. done. Qed.

Lemma fire_untouched e w w' session_id :
  reachable w →
  fire e w = Some w' →
  Lifecycle.event_token e ≠ Some session_id →
  Lifecycle.untouched session_id w w'.
Proof.
  intros [_ Hthreads]%reachable_consistent Hfire Hother.
  destruct e as [req uuid|ext req|req|req|req|ext j earlier later];
    cbn [fire Lifecycle.event_token] in *.
  - injection Hfire as <-. rewrite index_final. cbn zeta.
    case_decide; [done|other_key].
  - injection Hfire as <-. rewrite final_serve.
    destruct (Lifecycle.upload_precheck req) as [msg|] eqn:Hcheck.
    { by rewrite (upload_early_rejection_run ext req w msg Hcheck). }
    unfold Lifecycle.upload_precheck in Hcheck.
    destruct (request_file req) as [file|] eqn:Hfile; [|done].
    destruct (decide (filename file = "")) as [|Hname]; [done|].
    destruct (session_id_cookie req) as [token|] eqn:Hcookie; [|done].
    destruct (decide (token = "")) as [|Hne]; [done|].
    destruct (chat_sessions w !! token) as [s|] eqn:Hs.
    2: { rewrite upload_file_refines. unfold Spec.upload.
         by rewrite Hfile, Hcookie, Hs, !decide_False by done. }
    rewrite (upload_known _ _ _ _ _ _ Hfile Hname Hcookie Hne Hs). cbn zeta.
    destruct (Spec.dispatch_extension _) as [file_extension|]; [|other_key].
    destruct (bool_decide (file_extension ∈ Spec.supported)); [|other_key].
    destruct (file_save ext _); other_key.
  - injection Hfire as <-. rewrite final_serve, ask_question_refines.
    unfold Spec.ask, Spec.known_session, Spec.reject.
    destruct (session_id_cookie req) as [token|]; [|done].
    destruct (decide (token = "")); [done|].
    destruct (chat_sessions w !! token) as [s|];
      cbn [fmap option_fmap option_map]; [|done].
    destruct (is_processing s); [done|].
    destruct (decide (default "" (json_question req) = "")); [done|].
    destruct (decide (extracted_text s = "")); [done|other_key].
  - injection Hfire as <-. by rewrite final_serve, get_status_final.
  - injection Hfire as <-. by rewrite final_serve, get_messages_final.
  - destruct (decide (threads w = earlier ++ j :: later)) as [Hj|];
      [|discriminate].
    injection Hfire as <-.
    assert (job_session j ∈ dom (chat_sessions w)) as [s Hs]%elem_of_dom.
    { rewrite Forall_forall in Hthreads. apply Hthreads.
      rewrite Hj. apply elem_of_app. right. left. }
    rewrite (run_job_refines _ _ _ s) by exact Hs.
    destruct j as [token filepath|token filepath|token question];
      cbn [job_session Spec.job] in *.
    + unfold Spec.pdf_job. destruct (process_pdf ext filepath); other_key.
    + unfold Spec.video_job, Spec.video_failed. cbn [files with_threads].
      destruct (extract_audio_from_video _ _ _ _) as [[audio_path|e] fs];
        [|other_key].
      destruct (transcribe_audio ext audio_path) as [result|e]; [|other_key].
      destruct (tr_text result) as [text|]; [|other_key].
      cbn zeta. destruct (decide (audio_path ∈ fs)); other_key.
    + unfold Spec.answer_job. destruct (Spec.answer_of _); other_key.
Qed.

Lemma after_cons e events w :
  Demo.after (e :: events) w = fire e w ≫= Demo.after events.
Proof.
  unfold Demo.after. cbn.
  destruct (fire e w) as [w1|]; [done|]. cbn.
  induction events as [|e' events IH]; [done|]. by cbn.
Qed.

(** While a session is processing, an event that is neither an upload
    with its token nor the run of one of its threads leaves the session as
    it is. *)
Lemma keeps_flag_session e w w' session_id s :
  reachable w →
  fire e w = Some w' →
  Lifecycle.keeps_flag session_id e = true →
  chat_sessions w !! session_id = Some s →
  is_processing s = true →
  chat_sessions w' !! session_id = Some s.
Proof.
  intros Hreach Hfire Hkeeps Hs Hbusy.
  destruct (decide (Lifecycle.event_token e = Some session_id))
    as [Htoken|Hother].
  2: { destruct (fire_untouched e w w' session_id Hreach Hfire Hother)
         as [-> _]. exact Hs. }
  destruct e as [req uuid|ext req|req|req|req|ext j earlier later];
    cbn [fire Lifecycle.event_token Lifecycle.keeps_flag] in *.
  - injection Hfire as <-. rewrite index_final. cbn zeta.
    injection Htoken as ->.
    rewrite decide_True by (apply elem_of_dom; eauto). exact Hs.
  - rewrite Htoken, bool_decide_eq_true_2 in Hkeeps by done. done.
  - injection Hfire as <-. rewrite final_serve, ask_question_refines.
    unfold Spec.ask, Spec.known_session, Spec.reject. rewrite Htoken.
    destruct (decide (session_id = "")); [exact Hs|].
    rewrite Hs. cbn [fmap option_fmap option_map]. by rewrite Hbusy.
  - injection Hfire as <-. by rewrite final_serve, get_status_final.
  - injection Hfire as <-. by rewrite final_serve, get_messages_final.
  - injection Htoken as Htoken.
    rewrite bool_decide_eq_true_2 in Hkeeps by done. done.
Qed.

Lemma keeps_flag_sessions events w w' session_id s :
  reachable w →
  Demo.after events w = Some w' →
  Forall (λ e, Lifecycle.keeps_flag session_id e = true) events →
  chat_sessions w !! session_id = Some s →
  is_processing s = true →
  reachable w' ∧ chat_sessions w' !! session_id = Some s.
Proof.
  intros Hreach Hafter Hkeeps Hs Hbusy. revert w Hreach Hafter Hs.
  induction Hkeeps as [|e events He _ IH]; intros w Hreach Hafter Hs.
  { injection Hafter as <-. done. }
  rewrite after_cons in Hafter.
  destruct (fire e w) as [w1|] eqn:Hfire; [|done].
  apply (IH w1); [|exact Hafter|].
  - eapply step_reachable; [exact Hreach|]. by exists e.
  - by eapply keeps_flag_session.
Qed.

(** X16. Once a question is accepted, the messages route shows the user's
    message at once, and a further question for that session is refused as
    busy and leaves the world as it is: right after the acceptance, and,
    from a reachable world, after any events among which no upload carries
    the session's token and no thread of the session runs. *)
Theorem second_question_refused w session_id s question :
  chat_sessions w !! session_id = Some s →
  session_id ≠ "" →
  is_processing s = false →
  extracted_text s ≠ "" →
  question ≠ "" →
  let w' := final (ask_question (Lifecycle.asking session_id question) w) in
  let shown :=
    Return
      (jsonify
         (messages_body
            (messages s ++ [{| role := user; content := question |}]))) in
  outcome (get_messages (Lifecycle.with_token session_id) w') = shown
  ∧ (∀ again,
       ask_question (Lifecycle.asking session_id again) w'
       = Spec.reject w' "System is still processing your file")
  ∧ (reachable w →
     ∀ events later,
       Forall (λ e, Lifecycle.keeps_flag session_id e = true) events →
       Demo.after events w' = Some later →
       outcome (get_messages (Lifecycle.with_token session_id) later) = shown
       ∧ ∀ again,
           ask_question (Lifecycle.asking session_id again) later
           = Spec.reject later "System is still processing your file").
Proof.
  intros Hs Hne Hidle Htext Hquestion w' shown.
  pose proof (ask_accepted_run _ _ _ _ Hs Hne Hidle Htext Hquestion) as Hw'.
  fold w' in Hw'.
  assert (∀ later busy,
            chat_sessions later !! session_id = Some busy →
            is_processing busy = true →
            messages busy
            = messages s ++ [{| role := user; content := question |}] →
            outcome (get_messages (Lifecycle.with_token session_id) later)
            = shown
            ∧ ∀ again,
                ask_question (Lifecycle.asking session_id again) later
                = Spec.reject later "System is still processing your file")
    as Hrefused.
  { intros later busy Hlater Hbusy Hmessages. split.
    - rewrite get_messages_run. unfold Spec.known_session. cbn.
      rewrite decide_False, Hlater by done. cbn. by rewrite Hmessages.
    - intros again.
      rewrite ask_question_refines. unfold Spec.ask, Spec.known_session. cbn.
      rewrite decide_False, Hlater by done. cbn. by rewrite Hbusy. }
  split_and!.
  - by eapply Hrefused.
  - by eapply Hrefused.
  - intros Hreach events later Hkeeps Hafter.
    assert (reachable w') as Hreach'.
    { eapply step_reachable; [exact Hreach|].
      exists (request_ask (Lifecycle.asking session_id question)).
      cbn [fire]. by rewrite final_serve. }
    destruct (keeps_flag_sessions events w' later session_id _ Hreach' Hafter
                Hkeeps Hw' eq_refl) as [_ Hlater].
    by eapply Hrefused.
Qed.

Lemma second_question_refused_witness :
  chat_sessions (Demo.world_after Lifecycle.document_ready) !! "alice"
  = Some Demo.loaded
  ∧ reachable (Demo.world_after Lifecycle.document_ready)
  ∧ Forall (λ e, Lifecycle.keeps_flag "alice" e = true) Lifecycle.meanwhile
  ∧ Demo.after Lifecycle.meanwhile
      (final (ask_question (Lifecycle.asking "alice" "What grew?")
                (Demo.world_after Lifecycle.document_ready)))
    = Some (Demo.world_after
              (Lifecycle.document_ready
               ++ request_ask (Lifecycle.asking "alice" "What grew?")
                  :: Lifecycle.meanwhile))
  ∧ outcome
      (ask_question (Lifecycle.asking "alice" "And costs?")
         (Demo.world_after
            (Lifecycle.document_ready
             ++ request_ask (Lifecycle.asking "alice" "What grew?")
                :: Lifecycle.meanwhile)))
    = Return
        (jsonify_code (error_body "System is still processing your file") 400).
Proof.
  assert (chat_sessions (Demo.world_after Lifecycle.document_ready) !! "alice"
          = Some Demo.loaded) as Hs by (vm_compute; reflexivity).
  assert (reachable (Demo.world_after Lifecycle.document_ready)) as Hreach.
  { apply (after_reachable Lifecycle.document_ready initial_world);
      [apply rtc_refl|vm_compute; reflexivity]. }
  assert (Forall (λ e, Lifecycle.keeps_flag "alice" e = true)
            Lifecycle.meanwhile) as Hkeeps by (repeat constructor).
  assert (Demo.after Lifecycle.meanwhile
            (final (ask_question (Lifecycle.asking "alice" "What grew?")
                      (Demo.world_after Lifecycle.document_ready)))
          = Some (Demo.world_after
                    (Lifecycle.document_ready
                     ++ request_ask (Lifecycle.asking "alice" "What grew?")
                        :: Lifecycle.meanwhile))) as Hafter
    by (vm_compute; reflexivity).
  split; [exact Hs|]. split; [exact Hreach|]. split; [exact Hkeeps|].
  split; [exact Hafter|].
  destruct (second_question_refused
              (Demo.world_after Lifecycle.document_ready) "alice"
              Demo.loaded "What grew?" Hs)
    as (_ & _ & Hlater); [discriminate|reflexivity|discriminate|discriminate|].
  destruct (Hlater Hreach Lifecycle.meanwhile _ Hkeeps Hafter) as [_ Hbusy].
  rewrite Hbusy. reflexivity.
Defined.

(** X17. Requests and jobs of one session never change another session:
    in a reachable world, an event leaves the session and the status
    stored under every token other than its own exactly as they were. *)
Theorem other_sessions_untouched e w w' session_id :
  reachable w →
  fire e w = Some w' →
  Lifecycle.event_token e ≠ Some session_id →
  Lifecycle.untouched session_id w w'.
Proof. apply fire_untouched. Qed.

Lemma other_sessions_untouched_witness :
  reachable (Demo.world_after Lifecycle.two_visitors)
  ∧ fire (request_upload Demo.externals Demo.pdf_upload)
      (Demo.world_after Lifecycle.two_visitors)
    = Some (Demo.world_after
              (Lifecycle.two_visitors
               ++ [request_upload Demo.externals Demo.pdf_upload]))
  ∧ chat_sessions (Demo.world_after Lifecycle.two_visitors) !! "bob"
    = Some Demo.watched
  ∧ is_processing
    <$> chat_sessions
          (Demo.world_after
             (Lifecycle.two_visitors
              ++ [request_upload Demo.externals Demo.pdf_upload])) !! "alice"
    = Some true
  ∧ Lifecycle.untouched "bob" (Demo.world_after Lifecycle.two_visitors)
      (Demo.world_after
         (Lifecycle.two_visitors
          ++ [request_upload Demo.externals Demo.pdf_upload])).
Proof.
  assert (reachable (Demo.world_after Lifecycle.two_visitors)) as Hreach.
  { apply (after_reachable Lifecycle.two_visitors initial_world);
      [apply rtc_refl|vm_compute; reflexivity]. }
  assert (fire (request_upload Demo.externals Demo.pdf_upload)
            (Demo.world_after Lifecycle.two_visitors)
          = Some (Demo.world_after
                    (Lifecycle.two_visitors
                     ++ [request_upload Demo.externals Demo.pdf_upload])))
    as Hfire by (vm_compute; reflexivity).
  split; [exact Hreach|]. split; [exact Hfire|].
  split; [vm_compute; reflexivity|]. split; [vm_compute; reflexivity|].
  apply (other_sessions_untouched _ _ _ "bob" Hreach Hfire).
  discriminate.
Defined.

(** ** Timestamps are unambiguous *)

Lemma pretty_N_three_digits (x : N) :
  (100 ≤ x)%N → (3 ≤ String.length (pretty x))%nat.
Proof.
  intros Hx. unfold pretty, pretty_N. rewrite decide_False by lia.
  rewrite pretty_N_go_step by lia.
  rewrite pretty_N_go_step by (apply N.div_str_pos; lia).
  rewrite pretty_N_go_step.
  - etrans; [|apply pretty_N_go_length]. cbn. lia.
  - apply N.div_str_pos. split; [lia|].
    apply N.div_le_lower_bound; lia.
Qed.

Lemma pretty_N_two_digits (x : N) :
  (10 ≤ x)%N → (2 ≤ String.length (pretty x))%nat.
Proof.
  intros Hx. unfold pretty, pretty_N. rewrite decide_False by lia.
  rewrite pretty_N_go_step by lia.
  rewrite pretty_N_go_step by (apply N.div_str_pos; lia).
  etrans; [|apply pretty_N_go_length]. cbn. lia.
Qed.

Lemma pretty_Z_length (z : Z) :
  (0 ≤ z < 10 → String.length (pretty z) = 1%nat)
  ∧ (z < 0 ∨ 10 ≤ z → (2 ≤ String.length (pretty z))%nat)
  ∧ (100 ≤ z → (3 ≤ String.length (pretty z))%nat).
Proof.
  split_and!.
  - intros Hz.
    assert (∃ k : nat, z = Z.of_nat k ∧ (k < 10)%nat) as (k & -> & Hk)
      by (exists (Z.to_nat z); lia).
    do 10 (destruct k as [|k]; [vm_compute; reflexivity|]). lia.
  - intros [Hneg|Hbig].
    + destruct z as [|p|p]; [lia|lia|].
      change (pretty (Z.neg p)) with (String "-" (pretty p)).
      pose proof (pretty_Z_nonempty (Z.pos p)) as Hp.
      change (pretty (Z.pos p)) with (pretty p) in Hp. cbn. lia.
    + destruct z as [|p|p]; [lia| |lia].
      change (pretty (Z.pos p)) with (pretty (N.pos p)).
      apply pretty_N_two_digits. lia.
  - intros Hbig. destruct z as [|p|p]; [lia| |lia].
    change (pretty (Z.pos p)) with (pretty (N.pos p)).
    apply pretty_N_three_digits. lia.
Qed.

Lemma format_02d_inj z z' : Py.format_02d z = Py.format_02d z' → z = z'.
Proof.
  assert (∀ a b : Z, 0 ≤ a < 10 → ¬ 0 ≤ b < 10 →
                     Py.format_02d a ≠ Py.format_02d b) as Hmixed.
  { intros a b Ha Hb Heq.
    destruct (decide (100 ≤ b)) as [Hbig|Hsmall].
    - apply (f_equal String.length) in Heq.
      rewrite (format_02d_below_60 a) in Heq by lia.
      unfold Py.format_02d in Heq.
      pose proof (proj2 (proj2 (pretty_Z_length b)) Hbig) as Hlen.
      destruct (Nat.ltb_spec (String.length (pretty b)) 2); [lia|].
      cbn in Heq. lia.
    - destruct (decide (b < 0)) as [Hneg|Hpos].
      + rewrite (format_02d_below_60 a) in Heq by lia.
        unfold Py.format_02d in Heq.
        pose proof (proj1 (proj2 (pretty_Z_length b)) (or_introl Hneg))
          as Hlen.
        destruct (Nat.ltb_spec (String.length (pretty b)) 2); [lia|].
        destruct b as [|p|p]; [lia|lia|].
        change (pretty (Z.neg p)) with (String "-" (pretty p)) in Heq.
        assert (∃ k : nat, a = Z.of_nat k ∧ (k < 10)%nat) as (k & -> & Hk)
          by (exists (Z.to_nat a); lia).
        do 10 (destruct k as [|k]; [vm_compute in Heq; discriminate|]). lia.
      + assert (∃ k : nat, a = Z.of_nat k ∧ (k < 10)%nat) as (k & -> & Hk)
          by (exists (Z.to_nat a); lia).
        assert (∃ n : nat, b = Z.of_nat (10 + n) ∧ (n < 90)%nat)
          as (n & -> & Hn) by (exists (Z.to_nat (b - 10)); lia).
        rewrite (format_02d_below_60 (Z.of_nat k)) in Heq by lia.
        assert (∃ c1 c2, Py.format_02d (Z.of_nat (10 + n))
                         = String c1 (String c2 "")
                         ∧ c1 ≠ "0"%char) as (c1 & c2 & Hb2 & Hc1).
        { clear -Hn.
          do 90 (destruct n as [|n];
                 [eexists _, _; split; [vm_compute; reflexivity|done]|]).
          lia. }
        rewrite Hb2 in Heq.
        do 10 (destruct k as [|k];
               [vm_compute in Heq; injection Heq as <- _; done|]).
        lia. }
  intros Heq.
  destruct (decide (0 ≤ z < 10)) as [Hz|Hz];
    destruct (decide (0 ≤ z' < 10)) as [Hz'|Hz'].
  - unfold Py.format_02d in Heq.
    rewrite (proj1 (pretty_Z_length z) Hz),
      (proj1 (pretty_Z_length z') Hz') in Heq. cbn in Heq.
    change ("0" +:+ pretty z) with (String "0" (pretty z)) in Heq.
    change ("0" +:+ pretty z') with (String "0" (pretty z')) in Heq.
    injection Heq as Heq. by apply (inj pretty).
  - by destruct (Hmixed z z' Hz Hz').
  - by destruct (Hmixed z' z Hz' Hz).
  - unfold Py.format_02d in Heq.
    assert (∀ b : Z, ¬ 0 ≤ b < 10 → (2 ≤ String.length (pretty b))%nat)
      as Hlong.
    { intros b Hb. apply pretty_Z_length. lia. }
    pose proof (Hlong z Hz). pose proof (Hlong z' Hz').
    destruct (Nat.ltb_spec (String.length (pretty z)) 2); [lia|].
    destruct (Nat.ltb_spec (String.length (pretty z')) 2); [lia|].
    by apply (inj pretty).
Qed.

(** X18. Two different times never print as the same timestamp: the hour
    field (which grows beyond two digits and carries a minus sign for
    negative times), the minute field and the second field determine the
    number of seconds. *)
Theorem format_timestamp_injective seconds seconds' :
  format_timestamp (py_int seconds) = format_timestamp (py_int seconds') →
  seconds = seconds'.
Proof.
  rewrite !format_timestamp_whole. intros [= Heq].
  destruct (clock_fields seconds) as (Hshape & Hm & Hs & Hsum).
  destruct (clock_fields seconds') as (Hshape' & Hm' & Hs' & Hsum').
  rewrite Hshape, Hshape' in Heq.
  apply append_inj_tail in Heq as [Hhours Htail]; [|done].
  apply format_02d_inj in Hhours.
  injection Htail as Hm1 Hm2 Hs1 Hs2.
  assert ((seconds `mod` 3600) `div` 60 = (seconds' `mod` 3600) `div` 60)
    as Hminutes.
  { apply two_digits_inj; [done|done|]. unfold Spec.two_digits.
    f_equal; [exact Hm1|f_equal; exact Hm2]. }
  assert (seconds `mod` 60 = seconds' `mod` 60) as Hseconds.
  { apply two_digits_inj; [done|done|]. unfold Spec.two_digits.
    f_equal; [exact Hs1|f_equal; exact Hs2]. }
  cbn zeta in Hsum, Hsum'. lia.
Qed.

Lemma format_timestamp_injective_witness :
  format_timestamp (py_int 3725) = format_timestamp (py_int (3600 + 125))
  ∧ 3725 = 3600 + 125.
Proof.
  assert (format_timestamp (py_int 3725)
          = format_timestamp (py_int (3600 + 125))) as Heq
    by reflexivity.
  split; [exact Heq|].
  exact (format_timestamp_injective 3725 (3600 + 125) Heq).
Defined.
